(** * Usage aggregation engine of the coding-assistant workbench

    A shallow embedding of the log parser ([store/logParser.js]), the usage
    aggregator ([store/usageAggregator.js]), the refresh policy of the
    usage page ([pages/UsageMonitorPage.jsx]), the scanner of the host
    ([electron/logScanner.js]) and its handler
    ([electron/scanLogFilesHandler.js]), followed by the properties of the
    engine.

    Conventions of the embedding:
    - a JavaScript value read from a log line is a [JsVal]; a number is an
      exact rational or one of the three non-finite doubles (rounding of
      binary floating point is not followed);
    - token counts inside the aggregator are integers ([Z]) and are added
      exactly: the embedding follows the code on figures that are whole
      numbers whose sums stay within 2^53, where the additions of the code
      are exact too ([withinSafeIntegers]); a sum beyond the largest double
      is [Infinity] in the code;
    - an instant is the number of milliseconds since the Unix epoch; a [Date]
      object is a [JsDate], which may be the invalid date;
    - the conversion of an array or of an object to a primitive is a field
      of the runtime; the embedding does not follow the conversions that
      throw (an object whose [toString] is no function), so [new Date(v)]
      and [Number(v)] are followed on the primitives ([isPrimitive]) and on
      the objects that convert;
    - strings are byte strings and [toLowerCase] folds the ASCII letters;
    - the built-ins the code calls but does not define ([JSON.parse], the
      parsing of a date text, the conversion of a text to a number, the
      collation of [localeCompare]) are fields of the classes [JsRuntime]
      and [Collator];
    - the time zone [Asia/Shanghai] is the fixed offset UTC+8, which it has
      kept since the end of its last summer time on 1991-09-15; years are
      printed with the digits they have, and the date texts the code builds
      are read back for years of four digits ([civilRange]). *)

From Stdlib Require Import ZArith QArith Qround List String Ascii Bool Lia.
From Stdlib Require Import Sorting.Sorted Sorting.Permutation.
From Stdlib Require Import DecimalString.
From Stdlib Require OrderedTypeEx DecimalPos DecimalN.
From ExtLib Require Import Structures.Monad Structures.MonadExc.
From ExtLib Require Import Data.Monads.EitherMonad.
Import ListNotations.
Import MonadNotation.

Local Open Scope string_scope.
Local Open Scope list_scope.
Local Open Scope Z_scope.
Local Open Scope monad_scope.

(** ** JavaScript values and the operations the engine applies to them *)

Module Js.

Inductive JsNum : Type :=
| Finite (q : Q)
| PosInf
| NegInf
| NaN.

#[local] Unset Elimination Schemes.
Inductive JsVal : Type :=
| JUndefined
| JNull
| JBool (b : bool)
| JNum (n : JsNum)
| JStr (s : string)
| JArr (elems : list JsVal)
| JObj (props : list (string * JsVal)).
#[local] Set Elimination Schemes.

(** A [Date] object: a time value in milliseconds, or the invalid date
    whose time value is NaN. *)
Inductive JsDate : Type :=
| ValidDate (ms : Z)
| InvalidDate.

Inductive JsError : Type :=
| SyntaxError
| TypeError.

(** An abrupt completion is [inl], a normal one [inr]. *)
Definition Completion : Type -> Type := sum JsError.

Class JsRuntime : Type := {
  (** [JSON.parse]; [None] when it throws a SyntaxError. *)
  JSON_parse : string -> option JsVal;
  (** The time value of [new Date(text)]. *)
  Date_parse : string -> JsDate;
  (** [Number(text)]. *)
  StringToNumber : string -> JsNum;
  (** The primitive text of an array or of a plain object. *)
  ObjectToString : JsVal -> string;
  (** [Math.round((part / whole) * 100)] in double arithmetic,
      for [whole > 0]. *)
  roundedPercent : Z -> Z -> Z
}.

Class Collator : Type := {
  (** [a.localeCompare(b)]: negative, zero or positive. *)
  localeCompare : string -> string -> Z
}.

(** [!v] is [negb (truthy v)]. *)
Definition truthy (v : JsVal) : bool :=
  match v with
  | JUndefined | JNull => false
  | JBool b => b
  | JNum (Finite q) => negb (Qeq_bool q 0)
  | JNum NaN => false
  | JNum _ => true
  | JStr s => negb (String.eqb s "")
  | JArr _ | JObj _ => true
  end.

(** [a || b] *)
Definition orElse (a b : JsVal) : JsVal := if truthy a then a else b.

Fixpoint lookup (k : string) (props : list (string * JsVal)) : JsVal :=
  match props with
  | [] => JUndefined
  | (k', v) :: rest => if String.eqb k k' then v else lookup k rest
  end.

(** [v.k] for the property names the parsers read; none of them is defined
    on a primitive or on an array, and reading a property of [null] or
    [undefined] throws. *)
Definition get (v : JsVal) (k : string) : Completion JsVal :=
  match v with
  | JUndefined | JNull => raise TypeError
  | JObj props => ret (lookup k props)
  | _ => ret JUndefined
  end.

(** [v?.k] *)
Definition getOpt (v : JsVal) (k : string) : Completion JsVal :=
  match v with
  | JUndefined | JNull => ret JUndefined
  | _ => get v k
  end.

(** [a !== b] against a string literal. *)
Definition notStrictEqStr (v : JsVal) (lit : string) : bool :=
  match v with
  | JStr s => negb (String.eqb s lit)
  | _ => true
  end.

(** [Number(v)]. An array or an object is converted through its primitive
    text, which the runtime gives; where that conversion throws in the
    source (no callable [toString] or [valueOf]) the embedding does not
    follow it. *)
Definition ToNumber `{JsRuntime} (v : JsVal) : JsNum :=
  match v with
  | JUndefined => NaN
  | JNull => Finite 0
  | JBool b => Finite (if b then 1 else 0)
  | JNum n => n
  | JStr s => StringToNumber s
  | JArr _ | JObj _ => StringToNumber (ObjectToString v)
  end.

(** Rounding toward zero. *)
Definition Qtruncate (q : Q) : Z :=
  if Qle_bool 0 q then Qfloor q else Qceiling q.

(** [new Date(v)] with one argument: a text is parsed, anything else is
    converted to a number and clipped to the range of time values. As for
    [ToNumber], an array or an object goes through its primitive text, and a
    conversion that throws in the source is not followed. *)
Definition newDate `{JsRuntime} (v : JsVal) : JsDate :=
  let ofNumber (n : JsNum) :=
    match n with
    | Finite q =>
        let t := Qtruncate q in
        if Z.abs t <=? 8640000000000000 then ValidDate t else InvalidDate
    | _ => InvalidDate
    end in
  match v with
  | JStr s => Date_parse s
  | JArr _ | JObj _ => Date_parse (ObjectToString v)
  | _ => ofNumber (ToNumber v)
  end.

(** The number a relational operator sees: [None] stands for NaN, and
    [null] converts to [+0]. *)
Definition dateNumber (d : JsDate) : option Z :=
  match d with
  | ValidDate ms => Some ms
  | InvalidDate => None
  end.

Definition nullableDateNumber (t : option JsDate) : option Z :=
  match t with
  | None => Some 0
  | Some d => dateNumber d
  end.

Definition ltNumber (a b : option Z) : bool :=
  match a, b with
  | Some x, Some y => x <? y
  | _, _ => false
  end.

Definition geNumber (a b : option Z) : bool :=
  match a, b with
  | Some x, Some y => y <=? x
  | _, _ => false
  end.

Definition gtNumber (a b : option Z) : bool := ltNumber b a.

(** *** Strings *)

Definition lowerAscii (c : ascii) : ascii :=
  let n := nat_of_ascii c in
  if ((65 <=? n) && (n <=? 90))%nat then ascii_of_nat (n + 32) else c.

Fixpoint toLowerCase (s : string) : string :=
  match s with
  | EmptyString => EmptyString
  | String c s' => String (lowerAscii c) (toLowerCase s')
  end.

(** [s.startsWith(sub)] *)
Fixpoint startsWith (s sub : string) {struct sub} : bool :=
  match sub, s with
  | EmptyString, _ => true
  | String a sub', String b s' => Ascii.eqb a b && startsWith s' sub'
  | String _ _, EmptyString => false
  end.

(** [s.includes(sub)] *)
Fixpoint includes (s sub : string) : bool :=
  startsWith s sub ||
  match s with
  | EmptyString => false
  | String _ s' => includes s' sub
  end.

(** Splitting at every separator character: never empty. *)
Fixpoint splitBy (isSep : ascii -> bool) (s : string) : list string :=
  match s with
  | EmptyString => [EmptyString]
  | String c s' =>
      if isSep c then EmptyString :: splitBy isSep s'
      else match splitBy isSep s' with
           | [] => [String c EmptyString]
           | piece :: pieces => String c piece :: pieces
           end
  end.

(** [s.split(sep)] for a one-character separator. *)
Definition split (sep : ascii) (s : string) : list string :=
  splitBy (fun c => Ascii.eqb c sep) s.

(** [pieces.join(sep)] *)
Fixpoint join (sep : string) (pieces : list string) : string :=
  match pieces with
  | [] => EmptyString
  | [piece] => piece
  | piece :: rest => (piece ++ sep ++ join sep rest)%string
  end.

(** Decimal text of a non-negative integer. *)
Definition decimal (n : Z) : string :=
  NilZero.string_of_uint (N.to_uint (Z.to_N n)).

End Js.

Import Js.

(** ** [store/logParser.js] *)

Module LogParser.

Record UsageRecord : Type := {
  timestamp : option JsDate;
  model : string;
  input : Z;
  output : Z;
  cacheRead : Z;
  cacheCreate : Z
}.

Record CodexSnapshot : Type := {
  snapTimestamp : option JsDate;
  snapModel : string;
  inputTotal : Z;
  outputTotal : Z;
  cacheReadTotal : Z;
  totalTokens : Z
}.

(** The ordered rule list of [normalizeModelName]: the first rule one of
    whose patterns occurs in the lower-cased name gives the series. *)
Definition MODEL_RULES : list (list string * string) :=
  [ (["claude-opus"; "opus"], "opus");
    (["claude-sonnet"; "sonnet"], "sonnet");
    (["claude-haiku"; "haiku"], "haiku");
    (["claude"], "claude");
    (["gpt-5"; "gpt5"], "gpt-5");
    (["gpt-4o"], "gpt-4o");
    (["gpt-4"], "gpt-4");
    (["gpt-3.5"; "gpt3"], "gpt-3.5");
    (["kimi"], "kimi");
    (["deepseek"], "deepseek");
    (["gemini"], "gemini");
    (["qwen"], "qwen");
    (["yi"], "yi");
    (["llama"], "llama");
    (["mistral"], "mistral") ].

Definition ruleMatches (lowerModel : string) (rule : list string * string) : bool :=
  existsb (includes lowerModel) (fst rule).

(** [lowerModel.split(':')[0].split('-').slice(0, 2).join('-')] *)
Definition fallbackName (lowerModel : string) : string :=
  join "-" (firstn 2 (split "-" (hd EmptyString (split ":" lowerModel)))).

Definition normalizeModelName (model : JsVal) : string :=
  match model with
  | JStr s =>
      if String.eqb s "" then "unknown"
      else
        let lowerModel := toLowerCase s in
        match find (ruleMatches lowerModel) MODEL_RULES with
        | Some rule => snd rule
        | None => fallbackName lowerModel
        end
  | _ => "unknown"
  end.

(** [toSafeInt]: [Number(value)], 0 unless finite, then
    [Math.max(0, Math.floor(parsed))]. *)
Definition toSafeInt `{JsRuntime} (value : JsVal) : Z :=
  match ToNumber value with
  | Finite q => Z.max 0 (Qfloor q)
  | _ => 0
  end.

(** The integer the aggregator adds for a token field of a Claude line
    ([usage.input_tokens || 0] and the like). The logs carry JSON integers,
    negative ones included, and on those this is the number the source
    adds. The source adds any other truthy value as it is (a fraction as a
    double, a text by concatenation, an object through its primitive);
    the embedding does not follow it there: it floors a fraction and counts
    a text, an array or an object for nothing. *)
Definition tokenCount (v : JsVal) : Z :=
  match v with
  | JNum (Finite q) => Qfloor q
  | JBool true => 1
  | _ => 0
  end.

Definition jsonParse `{JsRuntime} (line : string) : Completion JsVal :=
  match JSON_parse line with
  | Some v => ret v
  | None => raise SyntaxError
  end.

(** [timestamp ? new Date(timestamp) : null] *)
Definition dateOrNull `{JsRuntime} (ts : JsVal) : option JsDate :=
  if truthy ts then Some (newDate ts) else None.

(** The body of the [try] block of [parseClaudeLog]. *)
Definition parseClaudeLogBody `{JsRuntime} (line : string)
  : Completion (option UsageRecord) :=
  data <- jsonParse line ;;
  message <- get data "message" ;;
  usageOpt <- getOpt message "usage" ;;
  if negb (truthy usageOpt) then ret None
  else
    usage <- get message "usage" ;;
    dataTs <- get data "timestamp" ;;
    ts <- (if truthy dataTs then ret dataTs else get message "timestamp") ;;
    rawModel <- get message "model" ;;
    let model := normalizeModelName (orElse rawModel (JStr "unknown")) in
    inputTokens <- get usage "input_tokens" ;;
    outputTokens <- get usage "output_tokens" ;;
    cacheReadInput <- get usage "cache_read_input_tokens" ;;
    cacheReadLegacy <- get usage "cache_read_tokens" ;;
    cacheCreateInput <- get usage "cache_creation_input_tokens" ;;
    cacheCreateLegacy <- get usage "cache_creation_tokens" ;;
    ret (Some {| timestamp := dateOrNull ts;
                 model := model;
                 input := tokenCount (orElse inputTokens (JNum (Finite 0)));
                 output := tokenCount (orElse outputTokens (JNum (Finite 0)));
                 cacheRead :=
                   tokenCount (orElse (orElse cacheReadInput cacheReadLegacy)
                                      (JNum (Finite 0)));
                 cacheCreate :=
                   tokenCount (orElse (orElse cacheCreateInput cacheCreateLegacy)
                                      (JNum (Finite 0))) |}).

(** [try { ... } catch (error) { return null; }] *)
Definition parseClaudeLog `{JsRuntime} (line : string)
  : Completion (option UsageRecord) :=
  catch (parseClaudeLogBody line) (fun _ => ret None).

(** The guard shared by the two Codex parsers:
    [data.type !== 'event_msg' || data.payload?.type !== 'token_count'];
    on a token-count event it yields the payload. *)
Definition tokenCountPayload (data : JsVal) : Completion (option JsVal) :=
  type <- get data "type" ;;
  if notStrictEqStr type "event_msg" then ret None
  else
    payload <- get data "payload" ;;
    payloadType <- getOpt payload "type" ;;
    if notStrictEqStr payloadType "token_count" then ret None
    else ret (Some payload).

Definition parseCodexLogBody `{JsRuntime} (line : string)
  : Completion (option UsageRecord) :=
  data <- jsonParse line ;;
  event <- tokenCountPayload data ;;
  match event with
  | None => ret None
  | Some payload =>
      info <- get payload "info" ;;
      if negb (truthy info) then ret None
      else
        lastUsage <- get info "last_token_usage" ;;
        usage <- (if truthy lastUsage then ret lastUsage
                  else get info "total_token_usage") ;;
        if negb (truthy usage) then ret None
        else
          ts <- get data "timestamp" ;;
          inputTokens <- get usage "input_tokens" ;;
          outputTokens <- get usage "output_tokens" ;;
          cachedInput <- get usage "cached_input_tokens" ;;
          ret (Some {| timestamp := dateOrNull ts;
                       model := "codex";
                       input := tokenCount (orElse inputTokens (JNum (Finite 0)));
                       output := tokenCount (orElse outputTokens (JNum (Finite 0)));
                       cacheRead := tokenCount (orElse cachedInput (JNum (Finite 0)));
                       cacheCreate := 0 |})
  end.

Definition parseCodexLog `{JsRuntime} (line : string)
  : Completion (option UsageRecord) :=
  catch (parseCodexLogBody line) (fun _ => ret None).

(** The body of the [try] block of [parseCodexTokenSnapshot]. The three
    totals are clamped by [toSafeInt]; the total falls back to their plain
    sum, which the source adds as doubles without clamping it: the sum is
    exact here, rounded in the source beyond 2^53, and [Infinity] in the
    source beyond the largest double. *)
Definition parseCodexTokenSnapshotBody `{JsRuntime} (line : string)
  : Completion (option CodexSnapshot) :=
  data <- jsonParse line ;;
  event <- tokenCountPayload data ;;
  match event with
  | None => ret None
  | Some payload =>
      info <- get payload "info" ;;
      totalUsageOpt <- getOpt info "total_token_usage" ;;
      if negb (truthy totalUsageOpt) then ret None
      else
        totalUsage <- get info "total_token_usage" ;;
        inputTokens <- get totalUsage "input_tokens" ;;
        outputTokens <- get totalUsage "output_tokens" ;;
        cachedInput <- get totalUsage "cached_input_tokens" ;;
        totalTokensField <- get totalUsage "total_tokens" ;;
        let inputTotal := toSafeInt inputTokens in
        let outputTotal := toSafeInt outputTokens in
        let cacheReadTotal := toSafeInt cachedInput in
        let reported := toSafeInt totalTokensField in
        let totalTokens :=
          if reported =? 0 then inputTotal + outputTotal + cacheReadTotal
          else reported in
        ts <- get data "timestamp" ;;
        ret (Some {| snapTimestamp := dateOrNull ts;
                     snapModel := "codex";
                     inputTotal := inputTotal;
                     outputTotal := outputTotal;
                     cacheReadTotal := cacheReadTotal;
                     totalTokens := totalTokens |})
  end.

Definition parseCodexTokenSnapshot `{JsRuntime} (line : string)
  : Completion (option CodexSnapshot) :=
  catch (parseCodexTokenSnapshotBody line) (fun _ => ret None).

(** What the callers see of a parser: the record, or [null]. A parser that
    completed abruptly has no value. *)
Definition valueOf {A : Type} (c : Completion (option A)) : option A :=
  match c with
  | inr v => v
  | inl _ => None
  end.

Definition calculateTotalTokens (record : UsageRecord) : Z :=
  input record + output record + cacheRead record + cacheCreate record.

(** [isInTimeWindow]: exported by the parser module, with its own guard on
    a missing timestamp and a closed upper bound. *)
Definition isInTimeWindow (record : UsageRecord) (start end_ : JsDate) : bool :=
  match timestamp record with
  | None => false
  | Some ts =>
      geNumber (dateNumber ts) (dateNumber start)
      && geNumber (dateNumber end_) (dateNumber ts)
  end.

End LogParser.

Import LogParser.

(** ** Civil time at UTC+8 *)

Module Calendar.

Definition msPerMinute : Z := 60000.
Definition msPerHour : Z := 3600000.
Definition msPerDay : Z := 86400000.
Definition beijingOffset : Z := 8 * msPerHour.

(** The proleptic Gregorian calendar, as [Intl.DateTimeFormat] prints it
    and as the parsing of an ISO date text reads it. Days are counted in
    eras of 400 years that begin on a first of March: [dateOfEraDay] gives
    the year of the era, the month and the day of a day of the era, and
    [eraDayOf] the day of the era of such a date. *)
Definition dateOfEraDay (doe : Z) : Z * Z * Z :=
  let yoe := (doe - doe / 1460 + doe / 36524 - doe / 146096) / 365 in
  let doy := doe - (365 * yoe + yoe / 4 - yoe / 100) in
  let mp := (5 * doy + 2) / 153 in
  (yoe, (if mp <? 10 then mp + 3 else mp - 9), doy - (153 * mp + 2) / 5 + 1).

Definition eraDayOf (yoe m d : Z) : Z :=
  yoe * 365 + yoe / 4 - yoe / 100
  + (153 * (if 2 <? m then m - 3 else m + 9) + 2) / 5 + d - 1.

(** The date of a day number counted from 1970-01-01, and back. *)
Definition civil_from_days (z : Z) : Z * Z * Z :=
  let z := z + 719468 in
  let era := z / 146097 in
  let '(yoe, m, d) := dateOfEraDay (z - era * 146097) in
  ((if m <=? 2 then yoe + era * 400 + 1 else yoe + era * 400), m, d).

Definition days_from_civil (y m d : Z) : Z :=
  let y := if m <=? 2 then y - 1 else y in
  let era := y / 400 in
  era * 146097 + eraDayOf (y - era * 400) m d - 719468.

(** The fields [formatToParts] yields for the time zone of Beijing, at
    the fixed offset UTC+8: the fields of the source from 1992 on (in the
    summers of 1986 to 1991 the zone was at UTC+9). *)
Record DateTimeParts : Type := {
  year : Z;
  month : Z;
  day : Z;
  hour : Z;
  minute : Z
}.

Definition getBeijingDateTimeParts (date : Z) : DateTimeParts :=
  let local := date + beijingOffset in
  let '(y, m, d) := civil_from_days (local / msPerDay) in
  let msOfDay := local mod msPerDay in
  {| year := y; month := m; day := d;
     hour := msOfDay / msPerHour;
     minute := (msOfDay mod msPerHour) / msPerMinute |}.

(** The [2-digit] form of a month or of a day. *)
Definition twoDigit (n : Z) : string :=
  if n <? 10 then ("0" ++ decimal n)%string else decimal n.

(** The text [`${year}-${month}-${day}`]. *)
Definition dateText (parts : DateTimeParts) : string :=
  (decimal (year parts) ++ "-" ++ twoDigit (month parts) ++ "-"
     ++ twoDigit (day parts))%string.

(** [new Date(`${year}-${month}-${day}T00:00:00+08:00`)]: the instant of
    that civil midnight. *)
Definition midnightOf (parts : DateTimeParts) : Z :=
  days_from_civil (year parts) (month parts) (day parts) * msPerDay
  - beijingOffset.

(** The instant of a civil time given at UTC+8, and of one given in UTC. *)
Definition beijingInstant (y m d hh mm ss : Z) : Z :=
  days_from_civil y m d * msPerDay + hh * msPerHour + mm * msPerMinute
  + ss * 1000 - beijingOffset.

Definition utcInstant (y m d hh mm ss : Z) : Z :=
  days_from_civil y m d * msPerDay + hh * msPerHour + mm * msPerMinute
  + ss * 1000.

End Calendar.

Import Calendar.

(** ** [store/usageAggregator.js] *)

Module UsageAggregator.

Definition MODEL_COLORS : list (string * string) :=
  [ ("opus", "#2563eb"); ("claude-opus", "#2563eb");
    ("sonnet", "#6366f1"); ("claude-sonnet", "#6366f1");
    ("haiku", "#8b5cf6"); ("claude-haiku", "#8b5cf6");
    ("claude", "#ec4899");
    ("gpt-5", "#e67e22"); ("gpt-4o", "#f97316"); ("gpt-4", "#f59e0b");
    ("gpt-3.5", "#fbbf24");
    ("kimi", "#16a34a"); ("kimi-pro", "#22c55e");
    ("deepseek", "#a855f7"); ("gemini", "#dc2626"); ("qwen", "#10b981");
    ("yi", "#ec4899"); ("llama", "#06b6d4"); ("mistral", "#f59e0b");
    ("codex", "#3b82f6"); ("default", "#8b919a") ].

Definition MODEL_COLORS_default : string := "#8b919a".

Record TimeWindow : Type := {
  windowStart : Z;
  windowEnd : Z
}.

(** [getBeijingDateParts] keeps the year, month and day of the parts, at
    the fixed offset UTC+8 as [getBeijingDateTimeParts]. *)
Definition getBeijingDateParts (date : Z) : DateTimeParts :=
  getBeijingDateTimeParts date.

(** [getBeijingTimeWindow(period)], with the instant [new Date()] read as
    [now]. [setUTCDate(getUTCDate() - n)] moves an instant back by [n] whole
    days. *)
Definition getBeijingTimeWindow (now : Z) (period : string) : TimeWindow :=
  let todayStart := midnightOf (getBeijingDateParts now) in
  if String.eqb period "today" then
    {| windowStart := todayStart; windowEnd := now |}
  else if String.eqb period "week" then
    {| windowStart := todayStart - 7 * msPerDay; windowEnd := todayStart |}
  else if String.eqb period "month" then
    {| windowStart := todayStart - 30 * msPerDay; windowEnd := todayStart |}
  else
    {| windowStart := todayStart; windowEnd := now |}.

(** *** The scanner collaborator *)

Record LogFile : Type := {
  path : string;
  lines : list string
}.

Record ScanResult : Type := {
  success : bool;
  files : option (list LogFile);
  totalMatched : Z;
  scannedCount : Z;
  truncated : bool;
  error : option string
}.

Record ScanRequest : Type := {
  basePath : string;
  pattern : string;
  reqStart : Z;
  reqEnd : Z
}.

(** The promise of a scan resolves with a result or rejects. *)
Inductive ScanOutcome : Type :=
| Resolved (result : ScanResult)
| Rejected.

(** What a run of the aggregator reads from outside: the clock and
    [window.electronAPI?.scanLogFiles], which may be absent. *)
Record Env : Type := {
  now : Z;
  scanLogFiles : option (ScanRequest -> ScanOutcome)
}.

(** [record.timestamp >= start && record.timestamp < end], as the
    relational operators evaluate it. *)
Definition withinWindow (ts : option JsDate) (start end_ : Z) : bool :=
  geNumber (nullableDateNumber ts) (Some start)
  && ltNumber (nullableDateNumber ts) (Some end_).

Definition keepClaudeLine `{JsRuntime} (start end_ : Z) (line : string)
  : list UsageRecord :=
  match valueOf (parseClaudeLog line) with
  | Some record =>
      if withinWindow (timestamp record) start end_ then [record] else []
  | None => []
  end.

(** [scanClaudeLogs]: every exit of the function returns [records]. *)
Definition scanClaudeLogs `{JsRuntime} (env : Env) (start end_ : Z)
  : list UsageRecord :=
  match scanLogFiles env with
  | None => []
  | Some scan =>
      match scan {| basePath := "~/.claude/projects"; pattern := "**/*.jsonl";
                    reqStart := start; reqEnd := end_ |} with
      | Rejected => []
      | Resolved result =>
          match success result, files result with
          | true, Some fs =>
              flat_map (fun file => flat_map (keepClaudeLine start end_) (lines file)) fs
          | _, _ => []
          end
      end
  end.

(** *** Codex sessions *)

Definition isPathSeparator (c : ascii) : bool :=
  Ascii.eqb c "/" || Ascii.eqb c "\".

Definition isHexDigit (c : ascii) : bool :=
  let n := nat_of_ascii c in
  (((48 <=? n) && (n <=? 57)) || ((97 <=? n) && (n <=? 102))
   || ((65 <=? n) && (n <=? 70)))%nat.

(** The shape of [CODEX_SESSION_ID_REGEX]: [x] is a hexadecimal digit. *)
Definition CODEX_SESSION_ID_SHAPE : string :=
  "xxxxxxxx-xxxx-xxxx-xxxx-xxxxxxxxxxxx".

Fixpoint matchesShape (shape s : string) : bool :=
  match shape, s with
  | EmptyString, EmptyString => true
  | String p shape', String c s' =>
      (if Ascii.eqb p "-" then Ascii.eqb c "-" else isHexDigit c)
      && matchesShape shape' s'
  | _, _ => false
  end.

Definition lastChars (n : nat) (s : string) : string :=
  substring (String.length s - n) n s.

Definition dropLastChars (n : nat) (s : string) : string :=
  substring 0 (String.length s - n) s.

(** [extractCodexSessionId]: the UUID that ends the file stem, else the
    stem, lower-cased. *)
Definition extractCodexSessionId (filePath : string) : string :=
  let fileName := last (splitBy isPathSeparator filePath) EmptyString in
  let stem :=
    if String.eqb (toLowerCase (lastChars 6 fileName)) ".jsonl"
    then dropLastChars 6 fileName else fileName in
  let tail := lastChars 36 stem in
  toLowerCase
    (if matchesShape CODEX_SESSION_ID_SHAPE tail then tail
     else if String.eqb stem "" then "unknown-codex-session"
     else stem).

Record SessionState : Type := {
  beforeWindow : option CodexSnapshot;
  inWindow : option CodexSnapshot
}.

Definition emptySession : SessionState :=
  {| beforeWindow := None; inWindow := None |}.

Definition pickCodexMaxSnapshot (current : option CodexSnapshot)
  (incoming : CodexSnapshot) : CodexSnapshot :=
  match current with
  | None => incoming
  | Some cur =>
      if totalTokens cur <? totalTokens incoming then incoming
      else if (totalTokens incoming =? totalTokens cur)
              && gtNumber (nullableDateNumber (snapTimestamp incoming))
                    (nullableDateNumber (snapTimestamp cur))
      then incoming
      else cur
  end.

(** The slot a snapshot with a timestamp goes to: before the window, inside
    the half-open window, or nowhere. *)
Definition placeSnapshot (start end_ : Z) (state : SessionState)
  (snapshot : CodexSnapshot) (ts : JsDate) : SessionState :=
  if ltNumber (dateNumber ts) (Some start) then
    {| beforeWindow :=
         Some (pickCodexMaxSnapshot (beforeWindow state) snapshot);
       inWindow := inWindow state |}
  else if geNumber (dateNumber ts) (Some start)
          && ltNumber (dateNumber ts) (Some end_) then
    {| beforeWindow := beforeWindow state;
       inWindow := Some (pickCodexMaxSnapshot (inWindow state) snapshot) |}
  else state.

(** What a turn of the loop does with a parsed line. A [Date] object is
    truthy even when invalid, so [!snapshot?.timestamp] skips the missing
    snapshot and the missing timestamp only. *)
Definition applySnapshot (start end_ : Z) (state : SessionState)
  (parsed : option CodexSnapshot) : SessionState :=
  match parsed with
  | None => state
  | Some snapshot =>
      match snapTimestamp snapshot with
      | None => state
      | Some ts => placeSnapshot start end_ state snapshot ts
      end
  end.

(** One turn of the loop over the lines of a file. *)
Definition updateSession `{JsRuntime} (start end_ : Z) (state : SessionState)
  (line : string) : SessionState :=
  applySnapshot start end_ state (valueOf (parseCodexTokenSnapshot line)).

(** A [Map] with string keys: the bindings in insertion order; setting a
    key that is present keeps its place. *)
Fixpoint mapGet {V : Type} (k : string) (m : list (string * V)) : option V :=
  match m with
  | [] => None
  | (k', v) :: rest => if String.eqb k k' then Some v else mapGet k rest
  end.

Fixpoint mapSet {V : Type} (k : string) (v : V) (m : list (string * V))
  : list (string * V) :=
  match m with
  | [] => [(k, v)]
  | (k', v') :: rest =>
      if String.eqb k k' then (k, v) :: rest else (k', v') :: mapSet k v rest
  end.

Definition mapValues {V : Type} (m : list (string * V)) : list V :=
  map snd m.

Definition scanCodexFile `{JsRuntime} (start end_ : Z)
  (sessionSnapshots : list (string * SessionState)) (file : LogFile)
  : list (string * SessionState) :=
  let sessionId := extractCodexSessionId (path file) in
  let state :=
    match mapGet sessionId sessionSnapshots with
    | Some st => st
    | None => emptySession
    end in
  mapSet sessionId (fold_left (updateSession start end_) (lines file) state)
    sessionSnapshots.

(** The record of one session: the largest total inside the window less
    the largest total before it. *)
Definition sessionRecord (state : SessionState) : list UsageRecord :=
  match inWindow state with
  | None => []
  | Some current =>
      let '(beforeInput, beforeOutput, beforeCacheRead) :=
        match beforeWindow state with
        | Some before =>
            (inputTotal before, outputTotal before, cacheReadTotal before)
        | None => (0, 0, 0)
        end in
      let deltaInputTotal := Z.max 0 (inputTotal current - beforeInput) in
      let deltaOutput := Z.max 0 (outputTotal current - beforeOutput) in
      let deltaCacheRead :=
        Z.max 0 (cacheReadTotal current - beforeCacheRead) in
      let deltaNonCachedInput := Z.max 0 (deltaInputTotal - deltaCacheRead) in
      let deltaTotal := deltaNonCachedInput + deltaOutput + deltaCacheRead in
      if deltaTotal <=? 0 then []
      else [ {| timestamp := snapTimestamp current;
                model := snapModel current;
                input := deltaNonCachedInput;
                output := deltaOutput;
                cacheRead := deltaCacheRead;
                cacheCreate := 0 |} ]
  end.

(** The two loops of [scanCodexLogs]: the slots of every session are
    filled file by file, then each session yields its record. *)
Definition reduceCodexSessions `{JsRuntime} (start end_ : Z)
  (fs : list LogFile) : list UsageRecord :=
  flat_map sessionRecord
    (mapValues (fold_left (scanCodexFile start end_) fs [])).

Definition scanCodexLogs `{JsRuntime} (env : Env) (start end_ : Z)
  : list UsageRecord :=
  match scanLogFiles env with
  | None => []
  | Some scan =>
      match scan {| basePath := "~/.codex/sessions"; pattern := "**/*.jsonl";
                    reqStart := start; reqEnd := end_ |} with
      | Rejected => []
      | Resolved result =>
          match success result, files result with
          | true, Some fs => reduceCodexSessions start end_ fs
          | _, _ => []
          end
      end
  end.

(** *** Aggregation by model *)

Module ModelAggregate.
Record t : Type := {
  name : string;
  input : Z;
  output : Z;
  cacheRead : Z;
  cacheCreate : Z;
  total : Z;
  count : Z
}.
End ModelAggregate.

Definition addRecord (aggregated : list (string * ModelAggregate.t))
  (record : UsageRecord) : list (string * ModelAggregate.t) :=
  let model := if String.eqb (model record) "" then "unknown" else model record in
  let modelData :=
    match mapGet model aggregated with
    | Some data => data
    | None =>
        {| ModelAggregate.name := model;
           ModelAggregate.input := 0; ModelAggregate.output := 0;
           ModelAggregate.cacheRead := 0; ModelAggregate.cacheCreate := 0;
           ModelAggregate.total := 0; ModelAggregate.count := 0 |}
    end in
  mapSet model
    {| ModelAggregate.name := ModelAggregate.name modelData;
       ModelAggregate.input := ModelAggregate.input modelData + input record;
       ModelAggregate.output := ModelAggregate.output modelData + output record;
       ModelAggregate.cacheRead :=
         ModelAggregate.cacheRead modelData + cacheRead record;
       ModelAggregate.cacheCreate :=
         ModelAggregate.cacheCreate modelData + cacheCreate record;
       ModelAggregate.total :=
         ModelAggregate.total modelData + calculateTotalTokens record;
       ModelAggregate.count := ModelAggregate.count modelData + 1 |}
    aggregated.

Definition aggregateByModel (records : list UsageRecord)
  : list (string * ModelAggregate.t) :=
  fold_left addRecord records [].

(** [getModelColor]: the colour of the name, else of the first key of the
    table that occurs in it, else the default. *)
Definition getModelColor (model : string) : string :=
  let normalized := toLowerCase model in
  match mapGet normalized MODEL_COLORS with
  | Some color => color
  | None =>
      match find (fun entry => includes normalized (fst entry)) MODEL_COLORS with
      | Some entry => snd entry
      | None => MODEL_COLORS_default
      end
  end.

(** *** The view *)

(** [Array.prototype.sort] is stable; with a consistent comparator its
    result is the one of any stable sort, here insertion from the right. *)
Fixpoint insertBy {A : Type} (cmp : A -> A -> Z) (x : A) (l : list A)
  : list A :=
  match l with
  | [] => [x]
  | y :: rest => if cmp x y <=? 0 then x :: l else y :: insertBy cmp x rest
  end.

Definition sortBy {A : Type} (cmp : A -> A -> Z) (l : list A) : list A :=
  fold_right (insertBy cmp) [] l.

(** [(b.total - a.total) || a.name.localeCompare(b.name)] *)
Definition compareModels `{Collator} (a b : ModelAggregate.t) : Z :=
  let byTotal := ModelAggregate.total b - ModelAggregate.total a in
  if byTotal =? 0
  then localeCompare (ModelAggregate.name a) (ModelAggregate.name b)
  else byTotal.

(** An entry of [models]: the aggregate with its colour. *)
Record ModelRow : Type := {
  aggregate : ModelAggregate.t;
  color : string
}.

Module Bucket.
Record t : Type := {
  name : string;
  percent : Z;
  color : string;
  key : string
}.
End Bucket.

Module ViewData.
Record t : Type := {
  total : Z;
  input : Z;
  output : Z;
  cache : Z;
  models : list ModelRow;
  distribution : list Bucket.t;
  isExtremeScenario : bool;
  modelCount : Z
}.
End ViewData.

Definition rowTotal (row : ModelRow) : Z := ModelAggregate.total (aggregate row).

Definition sumOf {A : Type} (f : A -> Z) (l : list A) : Z :=
  fold_left (fun sum x => sum + f x) l 0.

(** [total > 0 ? Math.round((part / total) * 100) : 0] *)
Definition percentOf `{JsRuntime} (part total : Z) : Z :=
  if 0 <? total then roundedPercent part total else 0.

Definition bucketOf (row : ModelRow * Z) : Bucket.t :=
  {| Bucket.name := ModelAggregate.name (aggregate (fst row));
     Bucket.percent := snd row;
     Bucket.color := color (fst row);
     Bucket.key := ModelAggregate.name (aggregate (fst row)) |}.

Definition othersBucket (howMany : nat) (othersPercent : Z) : Bucket.t :=
  {| Bucket.name :=
       ("其他 (" ++ decimal (Z.of_nat howMany) ++ "个模型)")%string;
     Bucket.percent := othersPercent;
     Bucket.color := MODEL_COLORS_default;
     Bucket.key := "others" |}.

(** The constants of [generateViewData], in the order it computes them. *)
Definition nonZeroModels (aggregated : list (string * ModelAggregate.t))
  : list ModelAggregate.t :=
  filter (fun m => 0 <? ModelAggregate.total m) (mapValues aggregated).

Definition rankModels `{Collator} (nonZero : list ModelAggregate.t)
  : list ModelRow :=
  map (fun m => {| aggregate := m;
                   color := getModelColor (ModelAggregate.name m) |})
      (sortBy compareModels nonZero).

Definition withPercent `{JsRuntime} (models : list ModelRow) (total : Z)
  : list (ModelRow * Z) :=
  map (fun m => (m, percentOf (rowTotal m) total)) models.

Definition distributionOf `{JsRuntime} (modelsWithPercent : list (ModelRow * Z))
  (total : Z) : list Bucket.t :=
  if negb (5 <? List.length modelsWithPercent)%nat
  then map bucketOf modelsWithPercent
  else
    let topModels := firstn 5 modelsWithPercent in
    let otherModels := skipn 5 modelsWithPercent in
    let othersTotal := sumOf (fun m => rowTotal (fst m)) otherModels in
    let othersPercent := percentOf othersTotal total in
    if 0 <? othersTotal
    then map bucketOf topModels
         ++ [othersBucket (List.length otherModels) othersPercent]
    else map bucketOf topModels.

Definition generateViewData `{JsRuntime} `{Collator}
  (aggregated : list (string * ModelAggregate.t)) : ViewData.t :=
  let models := rankModels (nonZeroModels aggregated) in
  let total := sumOf rowTotal models in
  let totalInput := sumOf (fun m => ModelAggregate.input (aggregate m)) models in
  let totalOutput := sumOf (fun m => ModelAggregate.output (aggregate m)) models in
  let totalCache :=
    sumOf (fun m => ModelAggregate.cacheRead (aggregate m)
                    + ModelAggregate.cacheCreate (aggregate m)) models in
  let modelsWithPercent := withPercent models total in
  {| ViewData.total := total;
     ViewData.input := totalInput;
     ViewData.output := totalOutput;
     ViewData.cache := totalCache;
     ViewData.models := models;
     ViewData.distribution := distributionOf modelsWithPercent total;
     ViewData.isExtremeScenario := (5 <? List.length models)%nat;
     ViewData.modelCount := Z.of_nat (List.length models) |}.

(** *** The entry point *)

Record UsageData : Type := {
  view : ViewData.t;
  period : string;
  startTime : Z;
  endTime : Z;
  recordCount : Z
}.

(** [{ success: true, data }] or [{ success: false, error }]. *)
Inductive AggregateResult : Type :=
| Success (data : UsageData)
| Failure (error : string).

Definition PERIODS : list string := ["today"; "week"; "month"].

(** [aggregateUsage(period)], on the runs whose [try] block completes.
    The two scans are independent and each returns its records on every
    path. The block of the source throws, and its [catch] arm answers
    [{ success: false, error: error.message }], when an addition of
    [aggregateByModel] meets a figure that has no primitive value, or when
    an end of the window is no valid date ([toISOString]); with figures
    typed as integers and the window computed at UTC+8 the embedding has no
    such run, and does not follow them. *)
Definition aggregateUsage `{JsRuntime} `{Collator} (env : Env)
  (period : string) : AggregateResult :=
  if negb (existsb (String.eqb period) PERIODS) then Failure "INVALID_PERIOD"
  else
    let window := getBeijingTimeWindow (now env) period in
    let start := windowStart window in
    let end_ := windowEnd window in
    let claudeRecords := scanClaudeLogs env start end_ in
    let codexRecords := scanCodexLogs env start end_ in
    let allRecords := claudeRecords ++ codexRecords in
    let aggregated := aggregateByModel allRecords in
    let viewData := generateViewData aggregated in
    Success {| view := viewData;
               period := period;
               startTime := start;
               endTime := end_;
               recordCount := Z.of_nat (List.length allRecords) |}.

End UsageAggregator.

Import UsageAggregator.

(** ** The refresh policy of [pages/UsageMonitorPage.jsx] *)

Module UsageMonitorPage.

Definition TODAY_REFRESH_INTERVAL_MS : Z := 5 * 60 * 1000.
Definition DAILY_REFRESH_MINUTE : Z := 5.

Definition getBeijingDayKey (date : Z) : string :=
  dateText (getBeijingDateTimeParts date).

Definition getBeijingDayStart (date : Z) : Z :=
  midnightOf (getBeijingDateTimeParts date).

(** [getDailyRefreshKey]: before 00:05 the batch of the previous day. *)
Definition getDailyRefreshKey (date : Z) : string :=
  let parts := getBeijingDateTimeParts date in
  let dayStart := getBeijingDayStart date in
  if (hour parts =? 0) && (minute parts <? DAILY_REFRESH_MINUTE)
  then getBeijingDayKey (dayStart - msPerDay)
  else getBeijingDayKey dayStart.

(** A slot of the cache as it is stored: the three staleness fields are
    texts that may be absent. *)
Record PeriodCacheEntry : Type := {
  data : option UsageData;
  computedAt : option string;
  dayKey : option string;
  dailyRefreshKey : option string
}.

(** A text field is truthy when it is present and not empty. *)
Definition present (field : option string) : option string :=
  match field with
  | Some text => if String.eqb text "" then None else Some text
  | None => None
  end.

Definition isTodayCacheFresh `{JsRuntime} (entry : option PeriodCacheEntry)
  (now : Z) : bool :=
  match entry with
  | None => false
  | Some e =>
      match present (computedAt e), present (dayKey e) with
      | Some computedText, Some key =>
          if negb (String.eqb key (getBeijingDayKey now)) then false
          else
            match Date_parse computedText with
            | InvalidDate => false
            | ValidDate computed =>
                now - computed <? TODAY_REFRESH_INTERVAL_MS
            end
      | _, _ => false
      end
  end.

Definition isRangeCacheFresh (entry : option PeriodCacheEntry) (now : Z)
  : bool :=
  match entry with
  | None => false
  | Some e =>
      match present (dailyRefreshKey e) with
      | Some key => String.eqb key (getDailyRefreshKey now)
      | None => false
      end
  end.

(** [!entry?.data] *)
Definition hasData (entry : option PeriodCacheEntry) : bool :=
  match entry with
  | Some e => match data e with Some _ => true | None => false end
  | None => false
  end.

Definition shouldRefreshPeriod `{JsRuntime} (period : string)
  (entry : option PeriodCacheEntry) (now : Z) : bool :=
  if negb (hasData entry) then true
  else if String.eqb period "today" then negb (isTodayCacheFresh entry now)
  else negb (isRangeCacheFresh entry now).

End UsageMonitorPage.

Import UsageMonitorPage.

(** ** [electron/logScanner.js] *)

Module LogScanner.

(** [path.join] of the host. *)
Class NodePath : Type := {
  path_join : string -> string -> string
}.

(** What the scanner observes of an entry of the file system: a directory
    with its entries in the order [readdir] lists them, unless reading it
    throws; a regular file with its modification time, unless [stat]
    throws, and its text, unless reading it throws; or something else. *)
#[local] Unset Elimination Schemes.
Inductive FsEntry : Type :=
| Directory (entries : option (list (string * FsEntry)))
| RegularFile (stat : option Z) (text : option string)
| Special.
#[local] Set Elimination Schemes.

(** The options; a field that is not a number is absent. The numbers are
    whole. *)
Record Options : Type := {
  maxFiles : option Z;
  maxLinesPerFile : option Z;
  maxDepth : option Z
}.

Definition noOptions : Options :=
  {| maxFiles := None; maxLinesPerFile := None; maxDepth := None |}.

(** A candidate: its path and modification time, and next to them what
    reading the file at that path will give. *)
Module Candidate.
Record t : Type := {
  path : string;
  mtime : Z;
  content : option string
}.
End Candidate.

(** A file of the result; [mtime] is the instant that the result gives as
    an ISO text. *)
Record ScannedFile : Type := {
  path : string;
  lines : list string;
  mtime : Z
}.

Record RangeScan : Type := {
  files : list ScannedFile;
  totalMatched : Z;
  scannedCount : Z;
  truncated : bool
}.

(** [s.endsWith(suffix)] *)
Definition endsWith (s suffix : string) : bool :=
  (String.length suffix <=? String.length s)%nat
  && String.eqb (lastChars (String.length suffix) s) suffix.

(** The white space of ASCII, which [trim] removes. *)
Definition isWhiteSpace (c : ascii) : bool :=
  let n := nat_of_ascii c in
  (((9 <=? n) && (n <=? 13)) || (n =? 32))%nat.

(** [!line.trim()] *)
Fixpoint isBlank (line : string) : bool :=
  match line with
  | EmptyString => true
  | String c rest => isWhiteSpace c && isBlank rest
  end.

(** [l.slice(0, n)]: a negative [n] counts from the end. *)
Definition slice0 {A : Type} (n : Z) (l : list A) : list A :=
  firstn (Z.to_nat (if n <? 0 then Z.of_nat (List.length l) + n else n)) l.

(** The test on the modification time: [mtime < startTime || mtime >=
    endTime] skips the file. *)
Definition outsideRange (mtime : Z) (startTime endTime : JsDate) : bool :=
  ltNumber (Some mtime) (dateNumber startTime)
  || geNumber (Some mtime) (dateNumber endTime).

Section Scan.
Context {host : NodePath}.
Variables (maxDepth : Z) (startTime endTime : JsDate).

(** [collectCandidates(currentPath, depth)], where [node] is what lies at
    [currentPath]. *)
Fixpoint collectCandidates (node : FsEntry) (currentPath : string) (depth : Z)
  {struct node} : list Candidate.t :=
  if maxDepth <? depth then []
  else
    match node with
    | Directory (Some entries) =>
        (fix eachEntry (entries : list (string * FsEntry)) : list Candidate.t :=
           match entries with
           | [] => []
           | (name, entry) :: rest =>
               let fullPath := path_join currentPath name in
               match entry with
               | Directory _ => collectCandidates entry fullPath (depth + 1)
               | RegularFile stat text =>
                   if endsWith name ".jsonl" then
                     match stat with
                     | Some mtime =>
                         if outsideRange mtime startTime endTime then []
                         else [ {| Candidate.path := fullPath;
                                   Candidate.mtime := mtime;
                                   Candidate.content := text |} ]
                     | None => []
                     end
                   else []
               | Special => []
               end ++ eachEntry rest
           end) entries
    | _ => []
    end.

End Scan.

(** [content.split('\n').filter(line => line.trim()).slice(0, maxLinesPerFile)] *)
Definition readLines (maxLinesPerFile : Z) (content : string) : list string :=
  slice0 maxLinesPerFile
    (filter (fun line => negb (isBlank line)) (split "010" content)).

(** A turn of the loop over the selected candidates: a file that cannot
    be read is passed over. *)
Definition readCandidate (maxLinesPerFile : Z) (candidate : Candidate.t)
  : list ScannedFile :=
  match Candidate.content candidate with
  | Some content =>
      [ {| path := Candidate.path candidate;
           lines := readLines maxLinesPerFile content;
           mtime := Candidate.mtime candidate |} ]
  | None => []
  end.

(** [(a, b) => b.mtime.getTime() - a.mtime.getTime()] *)
Definition newestFirst (a b : Candidate.t) : Z :=
  Candidate.mtime b - Candidate.mtime a.

Definition orDefault (option : option Z) (default : Z) : Z :=
  match option with
  | Some n => n
  | None => default
  end.

(** [scanLogFilesInRange(basePath, startTime, endTime, options)], where
    [root] is what lies at [basePath]. *)
Definition scanLogFilesInRange `{NodePath} (root : FsEntry) (basePath : string)
  (startTime endTime : JsDate) (options : Options) : RangeScan :=
  let maxFiles := orDefault (maxFiles options) 5000 in
  let maxLinesPerFile := orDefault (maxLinesPerFile options) 10000 in
  let maxDepth := orDefault (maxDepth options) 10 in
  let candidates :=
    sortBy newestFirst
      (collectCandidates maxDepth startTime endTime root basePath 0) in
  let selectedCandidates := slice0 maxFiles candidates in
  let truncated := maxFiles <? Z.of_nat (List.length candidates) in
  {| files := flat_map (readCandidate maxLinesPerFile) selectedCandidates;
     totalMatched := Z.of_nat (List.length candidates);
     scannedCount := Z.of_nat (List.length selectedCandidates);
     truncated := truncated |}.

(** Induction on an entry of the file system, through the entries of a
    directory. *)
Section Induction.
Variable P : FsEntry -> Prop.
Hypothesis unreadable : P (Directory None).
Hypothesis directory :
  forall entries, Forall (fun entry => P (snd entry)) entries ->
                  P (Directory (Some entries)).
Hypothesis regular : forall stat text, P (RegularFile stat text).
Hypothesis special : P Special.

Fixpoint FsEntry_ind (node : FsEntry) : P node :=
  match node with
  | Directory None => unreadable
  | Directory (Some entries) =>
      directory entries
        ((fix each (l : list (string * FsEntry))
            : Forall (fun entry => P (snd entry)) l :=
            match l with
            | [] => Forall_nil _
            | entry :: rest =>
                Forall_cons entry (FsEntry_ind (snd entry)) (each rest)
            end) entries)
  | RegularFile stat text => regular stat text
  | Special => special
  end.

End Induction.

End LogScanner.

(** ** [electron/scanLogFilesHandler.js] *)

Module ScanLogFilesHandler.

(** What the handler reads of an error thrown by the host. *)
Record NodeError : Type := {
  code : option string;
  message : string
}.

(** The fields of the request, [undefined] where absent. *)
Record Params : Type := {
  basePath : JsVal;
  start : JsVal;
  end_ : JsVal
}.

(** The three collaborators; checking the path and scanning may throw. *)
Record Deps : Type := {
  expandHomeFn : string -> string;
  pathExistsFn : string -> NodeError + bool;
  scanLogFilesInRangeFn :
    string -> JsDate -> JsDate -> NodeError + LogScanner.RangeScan
}.

Record Result : Type := {
  success : bool;
  files : list LogScanner.ScannedFile;
  totalMatched : Z;
  scannedCount : Z;
  truncated : bool;
  error : option string
}.

(** The answer without files, with and without an error. *)
Definition failed (reason : string) : Result :=
  {| success := false; files := []; totalMatched := 0; scannedCount := 0;
     truncated := false; error := Some reason |}.

Definition nothingFound : Result :=
  {| success := true; files := []; totalMatched := 0; scannedCount := 0;
     truncated := false; error := None |}.

(** The body of the [try] block. *)
Definition handleScanLogFilesBody `{JsRuntime} (params : option Params)
  (deps : Deps) : NodeError + Result :=
  let '(basePath, start, end_) :=
    match params with
    | Some given => (basePath given, start given, end_ given)
    | None => (JUndefined, JUndefined, JUndefined)
    end in
  match basePath with
  | JStr text =>
      if String.eqb text "" then ret (failed "INVALID_PATH")
      else
        let expandedPath := expandHomeFn deps text in
        let startTime := newDate start in
        let endTime := newDate end_ in
        found <- pathExistsFn deps expandedPath ;;
        if negb found then ret nothingFound
        else
          scanResult <- scanLogFilesInRangeFn deps expandedPath startTime endTime ;;
          ret {| success := true;
                 files := LogScanner.files scanResult;
                 totalMatched := LogScanner.totalMatched scanResult;
                 scannedCount := LogScanner.scannedCount scanResult;
                 truncated := LogScanner.truncated scanResult;
                 error := None |}
  | _ => ret (failed "INVALID_PATH")
  end.

(** [error.code === 'EACCES' || error.code === 'EPERM'] *)
Definition isPermissionError (thrown : NodeError) : bool :=
  match code thrown with
  | Some text => String.eqb text "EACCES" || String.eqb text "EPERM"
  | None => false
  end.

Definition handleScanLogFiles `{JsRuntime} (params : option Params)
  (deps : Deps) : Result :=
  match handleScanLogFilesBody params deps with
  | inr result => result
  | inl thrown =>
      if isPermissionError thrown then failed "PERMISSION_DENIED"
      else failed (message thrown)
  end.

(** *** The collaborators of the application *)

(** [expandHomePath]: [~/] stands for the home directory. *)
Definition expandHomePath `{LogScanner.NodePath} (homedir filepath : string)
  : string :=
  if startsWith filepath "~/"
  then LogScanner.path_join homedir
         (substring 2 (String.length filepath - 2) filepath)
  else filepath.

(** [pathExists]: whether [fs.access] finds the path; it never throws. The
    file system is a function from the paths that exist to what lies
    there. *)
Definition pathExists (fileSystem : string -> option LogScanner.FsEntry)
  (filepath : string) : bool :=
  match fileSystem filepath with
  | Some _ => true
  | None => false
  end.

(** What the scanner finds at a path; at a path that does not exist,
    reading the directory throws. *)
Definition entryAt (fileSystem : string -> option LogScanner.FsEntry)
  (filepath : string) : LogScanner.FsEntry :=
  match fileSystem filepath with
  | Some node => node
  | None => LogScanner.Directory None
  end.

(** The dependencies the application registers the handler with; the
    scanner is called without options and catches what the file system
    throws. *)
Definition applicationDeps `{LogScanner.NodePath} (homedir : string)
  (fileSystem : string -> option LogScanner.FsEntry) : Deps :=
  {| expandHomeFn := expandHomePath homedir;
     pathExistsFn := fun filepath => inr (pathExists fileSystem filepath);
     scanLogFilesInRangeFn := fun filepath startTime endTime =>
       inr (LogScanner.scanLogFilesInRange (entryAt fileSystem filepath)
              filepath startTime endTime LogScanner.noOptions) |}.

End ScanLogFilesHandler.

(** ** The scanner as the aggregator reaches it

    [window.electronAPI.scanLogFiles] passes the request to the handler of
    the application; the instants of the window travel as ISO texts. *)

Definition toLogFile (file : LogScanner.ScannedFile) : LogFile :=
  {| path := LogScanner.path file; lines := LogScanner.lines file |}.

Definition toScanResult (result : ScanLogFilesHandler.Result) : ScanResult :=
  {| success := ScanLogFilesHandler.success result;
     files := Some (map toLogFile (ScanLogFilesHandler.files result));
     totalMatched := ScanLogFilesHandler.totalMatched result;
     scannedCount := ScanLogFilesHandler.scannedCount result;
     truncated := ScanLogFilesHandler.truncated result;
     error := ScanLogFilesHandler.error result |}.

Definition hostScan `{JsRuntime} `{LogScanner.NodePath}
  (toISOString : Z -> string) (homedir : string)
  (fileSystem : string -> option LogScanner.FsEntry)
  (request : ScanRequest) : ScanOutcome :=
  Resolved
    (toScanResult
       (ScanLogFilesHandler.handleScanLogFiles
          (Some {| ScanLogFilesHandler.basePath := JStr (basePath request);
                   ScanLogFilesHandler.start := JStr (toISOString (reqStart request));
                   ScanLogFilesHandler.end_ := JStr (toISOString (reqEnd request)) |})
          (ScanLogFilesHandler.applicationDeps homedir fileSystem))).

(** What the scanner returns for a log directory of the home. *)
Definition scannedUnder `{LogScanner.NodePath} (homedir : string)
  (fileSystem : string -> option LogScanner.FsEntry) (base : string)
  (start end_ : Z) : LogScanner.RangeScan :=
  let expandedPath := ScanLogFilesHandler.expandHomePath homedir base in
  LogScanner.scanLogFilesInRange
    (ScanLogFilesHandler.entryAt fileSystem expandedPath) expandedPath
    (ValidDate start) (ValidDate end_) LogScanner.noOptions.

(** ** A concrete runtime and the log lines of the test suite

    Lines are named; the runtime parses a name to the value the line of that
    name denotes in the unit tests of the aggregator, and a date text to its
    instant. *)

Module Fixture.

Definition num (z : Z) : JsVal := JNum (Finite (inject_Z z)).

Definition claudeLine (ts modelName : string)
  (inputTokens outputTokens cacheReadTokens cacheCreateTokens : Z) : JsVal :=
  JObj [ ("timestamp", JStr ts);
         ("message",
          JObj [ ("model", JStr modelName);
                 ("usage",
                  JObj [ ("input_tokens", num inputTokens);
                         ("output_tokens", num outputTokens);
                         ("cache_read_input_tokens", num cacheReadTokens);
                         ("cache_creation_input_tokens", num cacheCreateTokens) ]) ]) ].

(** A Claude line that carries usage and no timestamp at all. *)
Definition claudeLineWithoutTimestamp (modelName : string) (inputTokens : Z)
  : JsVal :=
  JObj [ ("message",
          JObj [ ("model", JStr modelName);
                 ("usage", JObj [ ("input_tokens", num inputTokens) ]) ]) ].

Definition codexLine (ts : JsVal) (inputTokens outputTokens cachedTokens : JsVal)
  : JsVal :=
  JObj [ ("timestamp", ts);
         ("type", JStr "event_msg");
         ("payload",
          JObj [ ("type", JStr "token_count");
                 ("info",
                  JObj [ ("total_token_usage",
                          JObj [ ("input_tokens", inputTokens);
                                 ("cached_input_tokens", cachedTokens);
                                 ("output_tokens", outputTokens) ]);
                         ("last_token_usage",
                          JObj [ ("input_tokens", num 1);
                                 ("cached_input_tokens", num 1);
                                 ("output_tokens", num 1);
                                 ("total_tokens", num 3) ]) ]) ]) ].

Definition parsedLines : list (string * JsVal) :=
  [ ("today-midnight", claudeLine "2026-02-15T00:00:00+08:00" "claude-sonnet-4-5" 10 5 0 0);
    ("today-0100", claudeLine "2026-02-15T01:00:00+08:00" "claude-opus-4-1" 20 10 0 0);
    ("week-start", claudeLine "2026-02-08T00:00:00+08:00" "kimi" 30 0 0 0);
    ("yesterday-last-second", claudeLine "2026-02-14T23:59:59+08:00" "codex" 40 0 0 0);
    ("month-start", claudeLine "2026-01-16T00:00:00+08:00" "deepseek" 50 0 0 0);
    ("zero", claudeLine "2026-02-15T12:00:00+08:00" "gpt-4" 0 0 0 0);
    ("no-timestamp", claudeLineWithoutTimestamp "sonnet" 7);
    ("null", JNull);
    ("no-usage", JObj [ ("message", JObj [ ("model", JStr "sonnet") ]) ]);
    ("codex-before",
     codexLine (JStr "2026-02-14T15:59:00.000Z") (num 60) (num 10) (num 30));
    ("codex-small",
     codexLine (JStr "2026-02-14T16:10:00.000Z") (num 80) (num 10) (num 50));
    ("codex-large",
     codexLine (JStr "2026-02-14T16:20:00.000Z") (num 95) (num 15) (num 60));
    ("codex-no-timestamp", codexLine JUndefined (num 95) (num 15) (num 60));
    ("model-1", claudeLine "2026-02-15T01:00:00+08:00" "model-1" 700 0 0 0);
    ("model-2", claudeLine "2026-02-15T01:00:00+08:00" "model-2" 600 0 0 0);
    ("model-3", claudeLine "2026-02-15T01:00:00+08:00" "model-3" 500 0 0 0);
    ("model-4", claudeLine "2026-02-15T01:00:00+08:00" "model-4" 400 0 0 0);
    ("model-5", claudeLine "2026-02-15T01:00:00+08:00" "model-5" 300 0 0 0);
    ("model-6", claudeLine "2026-02-15T01:00:00+08:00" "model-6" 200 0 0 0);
    ("model-7", claudeLine "2026-02-15T01:00:00+08:00" "model-7" 100 0 0 0);
    ("zeta", claudeLine "2026-02-15T01:00:00+08:00" "zeta" 10 0 0 0);
    ("alpha", claudeLine "2026-02-15T01:00:00+08:00" "alpha" 10 0 0 0);
    ("beta", claudeLine "2026-02-15T01:00:00+08:00" "beta" 10 0 0 0);
    ("codex-ragged",
     codexLine (JStr "2026-02-14T16:20:00.000Z")
       (JNum (Finite (-7 # 1))) (JNum (Finite (5 # 2))) (JStr "many")) ].

Definition parsedDates : list (string * Z) :=
  [ ("2026-02-15T00:00:00+08:00", beijingInstant 2026 2 15 0 0 0);
    ("2026-02-15T01:00:00+08:00", beijingInstant 2026 2 15 1 0 0);
    ("2026-02-08T00:00:00+08:00", beijingInstant 2026 2 8 0 0 0);
    ("2026-02-14T23:59:59+08:00", beijingInstant 2026 2 14 23 59 59);
    ("2026-01-16T00:00:00+08:00", beijingInstant 2026 1 16 0 0 0);
    ("2026-02-15T12:00:00+08:00", beijingInstant 2026 2 15 12 0 0);
    ("2026-02-14T15:59:00.000Z", utcInstant 2026 2 14 15 59 0);
    ("2026-02-14T16:10:00.000Z", utcInstant 2026 2 14 16 10 0);
    ("2026-02-14T16:20:00.000Z", utcInstant 2026 2 14 16 20 0);
    ("2026-02-15T03:00:00.000Z", utcInstant 2026 2 15 3 0 0) ].

Definition runtime : JsRuntime :=
  {| JSON_parse := fun line => mapGet line parsedLines;
     Date_parse := fun text =>
       match mapGet text parsedDates with
       | Some instant => ValidDate instant
       | None => InvalidDate
       end;
     StringToNumber := fun _ => NaN;
     ObjectToString := fun _ => "[object Object]";
     roundedPercent := fun part whole => (200 * part + whole) / (2 * whole) |}.

(** Collation by code units. *)
Definition collator : Collator :=
  {| localeCompare := fun a b =>
       match String.compare a b with
       | Lt => -1
       | Eq => 0
       | Gt => 1
       end |}.

(** A scanner that serves the same file to each log source. *)
Definition scanResult (fs : list LogFile) : ScanResult :=
  {| success := true; files := Some fs;
     totalMatched := Z.of_nat (List.length fs);
     scannedCount := Z.of_nat (List.length fs);
     truncated := false; error := None |}.

Definition failedScan (code : string) : ScanResult :=
  {| success := false; files := Some []; totalMatched := 0;
     scannedCount := 0; truncated := false; error := Some code |}.

(** The report of a run without records, as a cached value. *)
Definition emptyUsage : UsageData :=
  {| view := {| ViewData.total := 0; ViewData.input := 0;
                ViewData.output := 0; ViewData.cache := 0;
                ViewData.models := []; ViewData.distribution := [];
                ViewData.isExtremeScenario := false;
                ViewData.modelCount := 0 |};
     period := "today"; startTime := 0; endTime := 0; recordCount := 0 |}.

(** The instant 2026-02-15T03:00:00Z, 11:00 in Beijing. *)
Definition fixedNow : Z := utcInstant 2026 2 15 3 0 0.

Definition claudeFile (ls : list string) : LogFile :=
  {| path := "/tmp/mock-claude.jsonl"; lines := ls |}.

Definition codexFile (ls : list string) : LogFile :=
  {| path := "/tmp/rollout-2026-02-15T10-00-00-019c5f06-c6e8-7f50-add2-6865b618d549.jsonl";
     lines := ls |}.

Definition envWith (clock : Z) (claude codex : ScanResult) : Env :=
  {| now := clock;
     scanLogFiles := Some (fun request =>
       if String.eqb (basePath request) "~/.claude/projects"
       then Resolved claude else Resolved codex) |}.

End Fixture.

(** ** A concrete host: a home directory with two log directories *)

Module HostFixture.

(** Paths joined by a slash. *)
Definition nodePath : LogScanner.NodePath :=
  {| LogScanner.path_join := fun dir name => (dir ++ "/" ++ name)%string |}.

Definition lineFeed : string := String "010" EmptyString.

(** The window of today at the instant of the fixture, and the texts its
    two ends travel as. *)
Definition windowStartInstant : Z := beijingInstant 2026 2 15 0 0 0.

Definition isoText (instant : Z) : string :=
  if instant =? windowStartInstant then "2026-02-15T00:00:00+08:00"
  else "2026-02-15T03:00:00.000Z".

(** A Claude project with a log modified inside the window, one modified
    the day before and a file that is no log; a Codex session stored in a
    directory of its day. *)
Definition claudeProjects : LogScanner.FsEntry :=
  LogScanner.Directory (Some
    [ ("project-a",
       LogScanner.Directory (Some
         [ ("current.jsonl",
            LogScanner.RegularFile (Some (beijingInstant 2026 2 15 1 30 0))
              (Some ("today-midnight" ++ lineFeed ++ lineFeed
                     ++ "today-0100" ++ lineFeed)%string));
           ("yesterday.jsonl",
            LogScanner.RegularFile (Some (beijingInstant 2026 2 14 23 0 0))
              (Some ("today-0100" ++ lineFeed)%string));
           ("notes.txt",
            LogScanner.RegularFile (Some (beijingInstant 2026 2 15 2 0 0))
              (Some "today-0100")) ]));
      ("locked", LogScanner.Directory None) ]).

Definition codexSessions : LogScanner.FsEntry :=
  LogScanner.Directory (Some
    [ ("2026",
       LogScanner.Directory (Some
         [ ("rollout-2026-02-15T10-00-00-019c5f06-c6e8-7f50-add2-6865b618d549.jsonl",
            LogScanner.RegularFile (Some (beijingInstant 2026 2 15 0 30 0))
              (Some ("codex-before" ++ lineFeed ++ "codex-small" ++ lineFeed
                     ++ "codex-large" ++ lineFeed ++ "codex-large")%string)) ])) ]).

Definition fileSystem (filepath : string) : option LogScanner.FsEntry :=
  if String.eqb filepath "/home/user/.claude/projects" then Some claudeProjects
  else if String.eqb filepath "/home/user/.codex/sessions" then Some codexSessions
  else None.

(** The files of UT-BE-02 of the scanner, oldest first in the directory. *)
Definition threeLogs : LogScanner.FsEntry :=
  LogScanner.Directory (Some
    [ ("logs",
       LogScanner.Directory (Some
         [ ("oldest.jsonl",
            LogScanner.RegularFile (Some (utcInstant 2026 2 10 0 0 0)) (Some "oldest"));
           ("middle.jsonl",
            LogScanner.RegularFile (Some (utcInstant 2026 2 11 0 0 0)) (Some "middle"));
           ("newest.jsonl",
            LogScanner.RegularFile (Some (utcInstant 2026 2 12 0 0 0)) (Some "newest")) ])) ]).

End HostFixture.

(** ** Lines at the edge of what a log may carry *)

Module EdgeFixture.

(** A Claude line whose input figure is negative, and a Codex event whose
    running totals of input and output are [8.98846567431158e307] each,
    the double 2^1023, without a [total_tokens] field. *)
Definition parsedLines : list (string * JsVal) :=
  [ ("refund",
     Fixture.claudeLine "2026-02-15T01:00:00+08:00" "claude-sonnet-4-5" (-5) 0 0 0);
    ("codex-huge",
     Fixture.codexLine (JStr "2026-02-14T16:20:00.000Z")
       (Fixture.num (2 ^ 1023)) (Fixture.num (2 ^ 1023)) (Fixture.num 0)) ].

Definition runtime : JsRuntime :=
  {| JSON_parse := fun line => mapGet line parsedLines;
     Date_parse := @Date_parse Fixture.runtime;
     StringToNumber := @StringToNumber Fixture.runtime;
     ObjectToString := @ObjectToString Fixture.runtime;
     roundedPercent := @roundedPercent Fixture.runtime |}.

End EdgeFixture.

(** ** Vocabulary of the properties *)

(** The value of a property read that does not throw. *)
Definition prop (v : JsVal) (k : string) : JsVal :=
  match v with
  | JObj props => lookup k props
  | _ => JUndefined
  end.

(** No character of the text satisfies [p]. *)
Fixpoint freeOf (p : ascii -> bool) (s : string) : bool :=
  match s with
  | EmptyString => true
  | String c s' => negb (p c) && freeOf p s'
  end.

(** A snapshot stamped before the window, and one stamped inside it. *)
Definition isBefore (start : Z) (s : CodexSnapshot) : bool :=
  match snapTimestamp s with
  | Some ts => ltNumber (dateNumber ts) (Some start)
  | None => false
  end.

Definition isInside (start end_ : Z) (s : CodexSnapshot) : bool :=
  match snapTimestamp s with
  | Some ts => geNumber (dateNumber ts) (Some start) && ltNumber (dateNumber ts) (Some end_)
  | None => false
  end.

(** A slot after one more parsed line, for the snapshots [sel] selects. *)
Definition stepSlot (sel : CodexSnapshot -> bool) (slot : option CodexSnapshot)
  (parsed : option CodexSnapshot) : option CodexSnapshot :=
  match parsed with
  | Some s => if sel s then Some (pickCodexMaxSnapshot slot s) else slot
  | None => slot
  end.

(** [slot] holds a largest selected snapshot of [init] and [parsed]. *)
Definition slotMax (sel : CodexSnapshot -> bool) (init : option CodexSnapshot)
  (parsed : list (option CodexSnapshot)) (slot : option CodexSnapshot) : Prop :=
  match slot with
  | None => init = None /\ forall s, In (Some s) parsed -> sel s = false
  | Some best =>
      (init = Some best \/ (In (Some best) parsed /\ sel best = true))
      /\ (forall s, init = Some s -> totalTokens s <= totalTokens best)
      /\ (forall s, In (Some s) parsed -> sel s = true ->
                    totalTokens s <= totalTokens best)
  end.

(** The snapshot the parser yields for a line stamped [ts] with the given
    running totals. *)
Definition snapshotAt (ts inputTokens outputTokens cachedTokens tokens : Z)
  : CodexSnapshot :=
  {| snapTimestamp := Some (ValidDate ts);
     snapModel := "codex";
     inputTotal := inputTokens;
     outputTotal := outputTokens;
     cacheReadTotal := cachedTokens;
     totalTokens := tokens |}.

(** A collation that orders the names: total and transitive. *)
Definition consistentCollator (C : Collator) : Prop :=
  (forall a b, localeCompare a b <= 0 \/ localeCompare b a <= 0)
  /\ (forall a b c, localeCompare a b <= 0 -> localeCompare b c <= 0 ->
                    localeCompare a c <= 0).

(** A collation that tells any two different names apart. *)
Definition separatingCollator (C : Collator) : Prop :=
  forall a b, localeCompare a b <= 0 -> localeCompare b a <= 0 -> a = b.

(** Larger total first; on equal totals the name that collates first. *)
Definition rankedBefore `{Collator} (a b : ModelAggregate.t) : Prop :=
  ModelAggregate.total b < ModelAggregate.total a
  \/ (ModelAggregate.total a = ModelAggregate.total b
      /\ localeCompare (ModelAggregate.name a) (ModelAggregate.name b) <= 0).

(** The order a comparator sorts by. *)
Definition notAfter {A : Type} (cmp : A -> A -> Z) (x y : A) : Prop :=
  cmp x y <= 0.

(** The records of a run, and their aggregation by model. *)
Definition recordsOf `{JsRuntime} (env : Env) (period : string)
  : list UsageRecord :=
  let window := getBeijingTimeWindow (now env) period in
  scanClaudeLogs env (windowStart window) (windowEnd window)
  ++ scanCodexLogs env (windowStart window) (windowEnd window).

Definition aggregatedOf `{JsRuntime} (env : Env) (period : string)
  : list (string * ModelAggregate.t) :=
  aggregateByModel (recordsOf env period).

(** The scanner answered the request for [base] with [success: false]. *)
Definition scanFailed (env : Env) (base : string) (window : TimeWindow) : Prop :=
  exists scan result,
    scanLogFiles env = Some scan
    /\ scan {| basePath := base; pattern := "**/*.jsonl";
               reqStart := windowStart window;
               reqEnd := windowEnd window |} = Resolved result
    /\ success result = false.

Definition cachedDayKey (entry : option PeriodCacheEntry) : option string :=
  match entry with
  | Some e => present (dayKey e)
  | None => None
  end.

Definition cachedBatchKey (entry : option PeriodCacheEntry) : option string :=
  match entry with
  | Some e => present (dailyRefreshKey e)
  | None => None
  end.

(** The instant an entry was computed at, when its text is present and
    readable. *)
Definition computedInstant `{JsRuntime} (entry : option PeriodCacheEntry)
  : option Z :=
  match entry with
  | Some e =>
      match present (computedAt e) with
      | Some text => dateNumber (Date_parse text)
      | None => None
      end
  | None => None
  end.

(** The staleness rule of the today slot in the words of the specification:
    no entry, another civil day, or more than the interval elapsed. *)
Definition specTodayStale `{JsRuntime} (entry : option PeriodCacheEntry)
  (now : Z) : Prop :=
  hasData entry = false
  \/ cachedDayKey entry <> Some (getBeijingDayKey now)
  \/ exists computed,
       computedInstant entry = Some computed
       /\ TODAY_REFRESH_INTERVAL_MS < now - computed.

(** The first instant from which every window starts after the epoch. *)
Definition firstOfFebruary1970 : Z := beijingInstant 1970 2 1 0 0 0.

(** A map of aggregates whose keys are distinct and name their values. *)
Definition wellKeyed (m : list (string * ModelAggregate.t)) : Prop :=
  NoDup (map fst m)
  /\ Forall (fun kv => ModelAggregate.name (snd kv) = fst kv) m.

(** The key a record is aggregated under: [record.model || 'unknown']. *)
Definition modelKey (record : UsageRecord) : string :=
  if String.eqb (model record) "" then "unknown" else model record.

(** The records aggregated under a key, in their order. *)
Definition recordsFor (key : string) (records : list UsageRecord)
  : list UsageRecord :=
  filter (fun record => String.eqb key (modelKey record)) records.

(** The session of a file, the sessions of a scan in the order of their
    first file, and the lines of the files of a session in the order of the
    files. *)
Definition sessionOf (file : LogFile) : string :=
  extractCodexSessionId (path file).

Definition distinctSessions (fs : list LogFile) : list string :=
  fold_left (fun seen file =>
               if existsb (String.eqb (sessionOf file)) seen then seen
               else seen ++ [sessionOf file])
    fs [].

Definition sessionLines (sessionId : string) (fs : list LogFile) : list string :=
  flat_map lines
    (filter (fun file => String.eqb sessionId (sessionOf file)) fs).

(** A parsed line that leaves a slot as it is. *)
Definition settled (sel : CodexSnapshot -> bool) (slot : option CodexSnapshot)
  (parsed : option CodexSnapshot) : Prop :=
  stepSlot sel slot parsed = slot.

(** [incoming] replaces [current] in a slot: a larger total, or the same
    total with a later time stamp. *)
Definition replaces (incoming current : CodexSnapshot) : bool :=
  (totalTokens current <? totalTokens incoming)
  || ((totalTokens incoming =? totalTokens current)
      && gtNumber (nullableDateNumber (snapTimestamp incoming))
           (nullableDateNumber (snapTimestamp current))).

(** The canonical form of a series name: in lower case, without a colon,
    and of at most two parts between hyphens. *)
Definition canonicalName (name : string) : Prop :=
  toLowerCase name = name
  /\ freeOf (fun c => Ascii.eqb c ":") name = true
  /\ (List.length (split "-" name) <= 2)%nat.

(** The entry [refreshPeriodData] stores after a successful aggregation:
    the result, the ISO text of the instant of storing, and the key of the
    day (today) or of the batch (week, month) at the instant [stamped]. *)
Definition refreshedEntry (period : string) (result : UsageData)
  (computedAtText : string) (stamped : Z) : PeriodCacheEntry :=
  {| data := Some result;
     computedAt := Some computedAtText;
     dayKey :=
       if String.eqb period "today" then Some (getBeijingDayKey stamped)
       else None;
     dailyRefreshKey :=
       if negb (String.eqb period "today")
       then Some (getDailyRefreshKey stamped) else None |}.

(** The number of the civil day of an instant at UTC+8, and the number of
    its batch: the batch of a day starts five minutes into the day. *)
Definition civilDay (instant : Z) : Z :=
  (instant + beijingOffset) / msPerDay.

Definition batchDay (instant : Z) : Z :=
  (instant + beijingOffset - DAILY_REFRESH_MINUTE * msPerMinute) / msPerDay.

(** The separator of the parts of a day key. *)
Definition isDash (c : ascii) : bool := Ascii.eqb c "-".

(** The instants at which the civil dates of the embedding are those of
    the source: from 1992-01-01 in Beijing, since when [Asia/Shanghai] has
    kept UTC+8 all year (the windows and the batches reach at most 30 days
    back), to the end of the year 9999, the last year whose date text
    [new Date] reads back. *)
Definition civilRange (instant : Z) : Prop :=
  beijingInstant 1992 1 1 0 0 0 <= instant < beijingInstant 10000 1 1 0 0 0.

(** A value that is no array and no object: its conversion to a number or
    to a date cannot throw. *)
Definition isPrimitive (v : JsVal) : bool :=
  match v with
  | JArr _ | JObj _ => false
  | _ => true
  end.

(** Records whose figures the source adds exactly: they are whole numbers,
    as the type of a record has it, and their magnitudes sum to at most
    2^53, so that no addition of doubles over them is rounded. *)
Definition withinSafeIntegers (records : list UsageRecord) : Prop :=
  sumOf (fun record =>
           Z.abs (input record) + Z.abs (output record)
           + Z.abs (cacheRead record) + Z.abs (cacheCreate record))
    records
  <= 2 ^ 53.

(** The largest finite double, [Number.MAX_VALUE]: a sum of doubles beyond
    it is [Infinity]. *)
Definition MAX_VALUE : Z := 2 ^ 1024 - 2 ^ 971.

(** The answer of the scanner for a directory without files, and the run
    in which every scan that failed is answered so. *)
Definition emptyScan : ScanResult :=
  {| success := true; files := Some []; totalMatched := 0;
     scannedCount := 0; truncated := false; error := None |}.

Definition withFailuresAsEmpty (env : Env) : Env :=
  {| now := now env;
     scanLogFiles :=
       match scanLogFiles env with
       | Some scan =>
           Some (fun request =>
                   match scan request with
                   | Resolved result =>
                       if success result then Resolved result
                       else Resolved emptyScan
                   | Rejected => Rejected
                   end)
       | None => None
       end |}.

(** The view of a run without records. *)
Definition emptyView : ViewData.t :=
  {| ViewData.total := 0; ViewData.input := 0; ViewData.output := 0;
     ViewData.cache := 0; ViewData.models := []; ViewData.distribution := [];
     ViewData.isExtremeScenario := false; ViewData.modelCount := 0 |}.

(** * Properties *)

(** ** The parsers *)

Section Parsers.

Context {rt : JsRuntime}.

(** [try]/[catch] with a handler that returns [null] always completes
    normally. *)
Lemma catch_null_normal {A : Type} (body : Completion (option A)) :
  catch body (fun _ => ret None) = inr (valueOf (catch body (fun _ => ret None))).
Proof. destruct body; reflexivity. Qed.

Lemma malformed_line_is_skipped (line : string) :
  JSON_parse line = None ->
  parseClaudeLog line = inr None
  /\ parseCodexLog line = inr None
  /\ parseCodexTokenSnapshot line = inr None.
Proof.
  intros Hbad.
  unfold parseClaudeLog, parseCodexLog, parseCodexTokenSnapshot,
    parseClaudeLogBody, parseCodexLogBody, parseCodexTokenSnapshotBody, jsonParse.
  rewrite Hbad. repeat split; reflexivity.
Qed.

(** A Claude line without [message.usage] is skipped, whether the read of
    the property throws or yields nothing. *)
Lemma missing_usage_is_skipped (line : string) (data : JsVal) :
  JSON_parse line = Some data ->
  truthy (prop (prop data "message") "usage") = false ->
  parseClaudeLog line = inr None.
Proof.
  intros Hdata Husage.
  unfold parseClaudeLog, parseClaudeLogBody, jsonParse. rewrite Hdata.
  destruct data as [| |b|n|s|elems|props]; try reflexivity.
  simpl in *. destruct (lookup "message" props) as [| |b|n|s|elems|inner];
    try reflexivity.
  simpl in *. now rewrite Husage.
Qed.

(** Claim C8: on every line of text, malformed or not, each of the three
    parsers completes normally with a record (or snapshot) or with the skip
    value [null]; no exception escapes, and a line that is not JSON is
    skipped by all three. The parsers are functions of the line alone. *)
Theorem parsers_never_throw (line : string) :
  (exists record, parseClaudeLog line = inr record)
  /\ (exists record, parseCodexLog line = inr record)
  /\ (exists snapshot, parseCodexTokenSnapshot line = inr snapshot)
  /\ match JSON_parse line with
     | None =>
         parseClaudeLog line = inr None
         /\ parseCodexLog line = inr None
         /\ parseCodexTokenSnapshot line = inr None
     | Some _ => True
     end.
Proof.
  split; [|split; [|split]].
  - eexists. apply catch_null_normal.
  - eexists. apply catch_null_normal.
  - eexists. apply catch_null_normal.
  - destruct (JSON_parse line) eqn:Hparse; [exact I|].
    now apply malformed_line_is_skipped.
Qed.

Lemma toSafeInt_nonneg (v : JsVal) : 0 <= toSafeInt v.
Proof.
  unfold toSafeInt. destruct (ToNumber v); lia.
Qed.

Lemma toSafeInt_clamps (v : JsVal) :
  toSafeInt v =
  match ToNumber v with
  | Finite q => if Qle_bool 0 q then Qfloor q else 0
  | _ => 0
  end.
Proof.
  unfold toSafeInt. destruct (ToNumber v) as [q| | |]; try reflexivity.
  destruct (Qle_bool 0 q) eqn:Hq.
  - apply Qle_bool_iff in Hq. apply Z.max_r.
    change 0 with (Qfloor 0). now apply Qfloor_resp_le.
  - apply Z.max_l.
    assert (Hlt : (q < 0)%Q).
    { apply Qnot_le_lt. intro Hle. apply Qle_bool_iff in Hle. congruence. }
    assert (Hf : (inject_Z (Qfloor q) < inject_Z 0)%Q).
    { eapply Qle_lt_trans; [apply Qfloor_le | exact Hlt]. }
    rewrite <- Zlt_Qlt in Hf. lia.
Qed.

Lemma bind_inr {A B : Type} (c : Completion A) (f : A -> Completion B)
  (r : B) :
  bind c f = inr r -> exists x, c = inr x /\ f x = inr r.
Proof. destruct c as [e|x]; simpl; [discriminate | eauto]. Qed.

Lemma catch_null_some {A : Type} (body : Completion (option A)) (a : A) :
  catch body (fun _ => ret None) = inr (Some a) -> body = inr (Some a).
Proof. destruct body; simpl; [discriminate | auto]. Qed.

Lemma get_inr (v x : JsVal) (k : string) : get v k = inr x -> x = prop v k.
Proof. destruct v; simpl; intros H; congruence. Qed.

Ltac unbind H :=
  let x := fresh "x" in
  let Hx := fresh "Hx" in
  apply bind_inr in H; destruct H as (x & Hx & H).

Lemma snapshot_inversion (line : string) (snap : CodexSnapshot) :
  parseCodexTokenSnapshot line = inr (Some snap) ->
  exists totalUsage ts,
    let reported := toSafeInt (prop totalUsage "total_tokens") in
    snapTimestamp snap = dateOrNull ts
    /\ snapModel snap = "codex"
    /\ inputTotal snap = toSafeInt (prop totalUsage "input_tokens")
    /\ outputTotal snap = toSafeInt (prop totalUsage "output_tokens")
    /\ cacheReadTotal snap = toSafeInt (prop totalUsage "cached_input_tokens")
    /\ totalTokens snap =
       (if reported =? 0
        then inputTotal snap + outputTotal snap + cacheReadTotal snap
        else reported).
Proof.
  unfold parseCodexTokenSnapshot, parseCodexTokenSnapshotBody.
  intros H. apply catch_null_some in H.
  unbind H. unbind H. destruct x0 as [payload|]; [|discriminate].
  unbind H. unbind H.
  destruct (negb (truthy x1)); [discriminate|].
  unbind H. unbind H. unbind H. unbind H. unbind H. unbind H.
  injection H as <-. 
  repeat match goal with
         | Hg : get _ _ = inr _ |- _ => apply get_inr in Hg; subst
         end.
  eexists _, _. cbn. repeat split; reflexivity.
Qed.

Lemma notStrictEqStr_false (v : JsVal) (lit : string) :
  notStrictEqStr v lit = false -> v = JStr lit.
Proof.
  destruct v; simpl; try discriminate.
  intros H. apply negb_false_iff, String.eqb_eq in H. now subst.
Qed.

Lemma getOpt_inr (v x : JsVal) (k : string) : getOpt v k = inr x -> x = prop v k.
Proof. destruct v; simpl; intros H; congruence. Qed.

Lemma tokenCountPayload_some (data payload : JsVal) :
  tokenCountPayload data = inr (Some payload) ->
  prop data "type" = JStr "event_msg"
  /\ payload = prop data "payload"
  /\ prop payload "type" = JStr "token_count".
Proof.
  unfold tokenCountPayload. intros H.
  apply bind_inr in H. destruct H as (type & Htype & H).
  apply get_inr in Htype. subst type.
  destruct (notStrictEqStr (prop data "type") "event_msg") eqn:Hevent;
    [discriminate|].
  apply notStrictEqStr_false in Hevent.
  apply bind_inr in H. destruct H as (found & Hfound & H).
  apply get_inr in Hfound. subst found.
  apply bind_inr in H. destruct H as (payloadType & HpayloadType & H).
  apply getOpt_inr in HpayloadType. subst payloadType.
  destruct (notStrictEqStr (prop (prop data "payload") "type") "token_count")
    eqn:Hcount; [discriminate|].
  apply notStrictEqStr_false in Hcount.
  injection H as <-. auto.
Qed.

(** What a snapshot tells of its line: the line is a token-count event
    with a truthy [total_token_usage], and the snapshot is made of the
    fields of that object. *)
Lemma snapshot_of_line (line : string) (data : JsVal) (snap : CodexSnapshot) :
  JSON_parse line = Some data ->
  parseCodexTokenSnapshot line = inr (Some snap) ->
  let totalUsage :=
    prop (prop (prop data "payload") "info") "total_token_usage" in
  let reported := toSafeInt (prop totalUsage "total_tokens") in
  prop data "type" = JStr "event_msg"
  /\ prop (prop data "payload") "type" = JStr "token_count"
  /\ truthy totalUsage = true
  /\ snap
     = {| snapTimestamp := dateOrNull (prop data "timestamp");
          snapModel := "codex";
          inputTotal := toSafeInt (prop totalUsage "input_tokens");
          outputTotal := toSafeInt (prop totalUsage "output_tokens");
          cacheReadTotal := toSafeInt (prop totalUsage "cached_input_tokens");
          totalTokens :=
            if reported =? 0
            then toSafeInt (prop totalUsage "input_tokens")
                 + toSafeInt (prop totalUsage "output_tokens")
                 + toSafeInt (prop totalUsage "cached_input_tokens")
            else reported |}.
Proof.
  intros Hdata H. cbv zeta.
  unfold parseCodexTokenSnapshot, parseCodexTokenSnapshotBody, jsonParse in H.
  rewrite Hdata in H. apply catch_null_some in H. simpl bind in H.
  apply bind_inr in H. destruct H as (event & Hevent & H).
  destruct event as [payload|]; [|discriminate].
  apply tokenCountPayload_some in Hevent as (Htype & -> & Hcount).
  apply bind_inr in H. destruct H as (info & Hinfo & H).
  apply get_inr in Hinfo. subst info.
  apply bind_inr in H. destruct H as (totalOpt & HtotalOpt & H).
  apply getOpt_inr in HtotalOpt. subst totalOpt.
  destruct (truthy (prop (prop (prop data "payload") "info") "total_token_usage"))
    eqn:Htruthy; [|discriminate].
  simpl negb in H. cbv iota in H.
  repeat (let x := fresh "x" in
          let Hx := fresh "Hx" in
          apply bind_inr in H; destruct H as (x & Hx & H);
          apply get_inr in Hx; subst x).
  injection H as <-. auto.
Qed.

End Parsers.

(** Claim C10, at the input where the code departs from it: a token-count
    event whose running totals of input and output are 2^1023 each
    ([8.98846567431158e307]) and that carries no [total_tokens]. The
    parser returns a snapshot; the three totals are clamped, the reported
    total is 0, so the total is the fallback sum of the three, and that
    sum, 2^1024, lies beyond the largest double: the addition of the source
    gives [Infinity], which is no integer. *)
Theorem snapshot_total_beyond_the_doubles :
  exists data snap,
    @JSON_parse EdgeFixture.runtime "codex-huge" = Some data
    /\ @parseCodexTokenSnapshot EdgeFixture.runtime "codex-huge"
       = inr (Some snap)
    /\ @toSafeInt EdgeFixture.runtime
         (prop (prop (prop (prop data "payload") "info") "total_token_usage")
               "total_tokens") = 0
    /\ inputTotal snap = 2 ^ 1023
    /\ outputTotal snap = 2 ^ 1023
    /\ cacheReadTotal snap = 0
    /\ MAX_VALUE < inputTotal snap + outputTotal snap + cacheReadTotal snap.
Proof.
  eexists _, _. split; [reflexivity|]. split; [reflexivity|].
  repeat split; vm_compute; reflexivity.
Qed.


(** ** Model names *)

Section Strings.

Lemma startsWith_app (p a b : string) :
  startsWith a p = true -> startsWith (a ++ b) p = true.
Proof.
  revert a. induction p as [|c p IH]; intros a H; [reflexivity|].
  destruct a as [|d a]; simpl in *; [discriminate|].
  apply andb_true_iff in H. destruct H as [Hc H].
  rewrite Hc. simpl. auto.
Qed.

Lemma includes_app (a b p : string) :
  includes a p = true -> includes (a ++ b) p = true.
Proof.
  induction a as [|c a IH]; simpl; intros H.
  - rewrite orb_false_r in H. destruct p; [|discriminate].
    destruct b; reflexivity.
  - apply orb_true_iff in H. apply orb_true_iff. destruct H as [H|H].
    + left. exact (startsWith_app p (String c a) b H).
    + right. auto.
Qed.

Lemma lowerAscii_idem (c : ascii) : lowerAscii (lowerAscii c) = lowerAscii c.
Proof. destruct c as [[] [] [] [] [] [] [] []]; reflexivity. Qed.

Lemma toLowerCase_idem (s : string) : toLowerCase (toLowerCase s) = toLowerCase s.
Proof. induction s; simpl; [|rewrite lowerAscii_idem, IHs]; reflexivity. Qed.

Lemma toLowerCase_prefix (a b : string) :
  toLowerCase (a ++ b) = (a ++ b)%string -> toLowerCase a = a.
Proof.
  induction a as [|c a IH]; simpl; intros H; [reflexivity|].
  injection H as Hc Ht. rewrite Hc, (IH Ht). reflexivity.
Qed.

Variable p : ascii -> bool.

Lemma splitBy_nonempty (s : string) : splitBy p s <> [].
Proof.
  destruct s as [|c s]; simpl; [discriminate|].
  destruct (p c); [discriminate|]. destruct (splitBy p s); discriminate.
Qed.

Lemma splitBy_free (s : string) :
  Forall (fun piece => freeOf p piece = true) (splitBy p s).
Proof.
  induction s as [|c s IH]; simpl.
  - repeat constructor.
  - destruct (p c) eqn:Hc.
    + constructor; [reflexivity | exact IH].
    + destruct (splitBy p s) as [|piece pieces].
      * repeat constructor. simpl. now rewrite Hc.
      * inversion IH; subst. constructor; [|assumption].
        simpl. rewrite Hc. assumption.
Qed.

Lemma splitBy_of_free (s : string) : freeOf p s = true -> splitBy p s = [s].
Proof.
  induction s as [|c s IH]; simpl; intros H; [reflexivity|].
  apply andb_true_iff in H. destruct H as [Hc Hs].
  apply negb_true_iff in Hc. rewrite Hc, (IH Hs). reflexivity.
Qed.

Lemma splitBy_app_sep (x rest : string) (c : ascii) :
  freeOf p x = true -> p c = true ->
  splitBy p (x ++ String c rest) = x :: splitBy p rest.
Proof.
  intros Hx Hc. induction x as [|d x IH]; simpl.
  - now rewrite Hc.
  - simpl in Hx. apply andb_true_iff in Hx. destruct Hx as [Hd Hx].
    apply negb_true_iff in Hd. rewrite Hd, (IH Hx). reflexivity.
Qed.

Lemma splitBy_join (c : ascii) (pieces : list string) :
  pieces <> [] -> p c = true ->
  Forall (fun piece => freeOf p piece = true) pieces ->
  splitBy p (join (String c EmptyString) pieces) = pieces.
Proof.
  intros Hne Hc Hfree. induction pieces as [|x rest IH]; [congruence|].
  inversion Hfree as [|? ? Hx Hrest]; subst.
  destruct rest as [|y rest].
  - simpl. now apply splitBy_of_free.
  - change (join (String c EmptyString) (x :: y :: rest))
      with (x ++ String c (join (String c EmptyString) (y :: rest)))%string.
    rewrite splitBy_app_sep by assumption.
    rewrite IH; [reflexivity | discriminate | assumption].
Qed.

Lemma join_cons (sep x : string) (rest : list string) :
  join sep (x :: rest) =
  match rest with
  | [] => x
  | _ :: _ => (x ++ sep ++ join sep rest)%string
  end.
Proof. destruct rest; reflexivity. Qed.

End Strings.

(** The first [n] pieces, joined again, are a prefix of the text. *)
Lemma join_firstn_split_prefix (c : ascii) (n : nat) (s : string) :
  exists rest,
    s = (join (String c EmptyString) (firstn n (split c s)) ++ rest)%string.
Proof.
  unfold split. revert n. induction s as [|a s IH]; intros n.
  - exists EmptyString. destruct n as [|n]; [reflexivity|].
    simpl. now rewrite firstn_nil.
  - destruct n as [|n]; [eexists; reflexivity|].
    cbn [splitBy]. destruct (Ascii.eqb a c) eqn:Ha.
    + apply Ascii.eqb_eq in Ha. subst a.
      destruct (IH n) as [rest Hrest].
      rewrite firstn_cons, join_cons.
      destruct (firstn n (splitBy _ s)) as [|y ys] eqn:Hf.
      * eexists. reflexivity.
      * exists rest. simpl. simpl in Hrest. now rewrite <- Hrest.
    + destruct (IH (S n)) as [rest Hrest].
      destruct (splitBy _ s) as [|piece pieces] eqn:Hs.
      * now apply splitBy_nonempty in Hs.
      * exists rest. rewrite firstn_cons, join_cons in *.
        destruct (firstn n pieces); simpl; now rewrite Hrest at 1.
Qed.

Lemma hd_split_prefix (c : ascii) (s : string) :
  exists rest, s = (hd EmptyString (split c s) ++ rest)%string.
Proof.
  destruct (join_firstn_split_prefix c 1 s) as [rest Hrest].
  exists rest. destruct (split c s) as [|x xs] eqn:Hs.
  - now apply splitBy_nonempty in Hs.
  - exact Hrest.
Qed.

Lemma freeOf_app (p : ascii -> bool) (a b : string) :
  freeOf p (a ++ b) = freeOf p a && freeOf p b.
Proof.
  induction a as [|c a IH]; simpl; [reflexivity|].
  now rewrite IH, andb_assoc.
Qed.

Lemma join_free (p : ascii -> bool) (c : ascii) (pieces : list string) :
  p c = false ->
  Forall (fun piece => freeOf p piece = true) pieces ->
  freeOf p (join (String c EmptyString) pieces) = true.
Proof.
  intros Hc. induction 1 as [|x rest Hx Hrest IH]; [reflexivity|].
  rewrite join_cons. destruct rest; [assumption|].
  rewrite freeOf_app, Hx. simpl. rewrite Hc. exact IH.
Qed.

(** Splitting at one character keeps the pieces free of another. *)
Lemma splitBy_keeps_free (p q : ascii -> bool) (s : string) :
  freeOf q s = true ->
  Forall (fun piece => freeOf q piece = true) (splitBy p s).
Proof.
  induction s as [|c s IH]; simpl; intros H.
  - repeat constructor.
  - apply andb_true_iff in H. destruct H as [Hc Hs]. specialize (IH Hs).
    destruct (p c).
    + constructor; [reflexivity | exact IH].
    + destruct (splitBy p s) as [|piece pieces].
      * repeat constructor. simpl. now rewrite Hc.
      * inversion IH; subst. constructor; [|assumption].
        simpl. now rewrite Hc.
Qed.

Lemma Forall_firstn {A : Type} (P : A -> Prop) (n : nat) (l : list A) :
  Forall P l -> Forall P (firstn n l).
Proof.
  intros H. revert n. induction H; intros [|n]; simpl; constructor; auto.
Qed.

Lemma fallbackName_fixed (lowerModel : string) :
  fallbackName (fallbackName lowerModel) = fallbackName lowerModel.
Proof.
  unfold fallbackName.
  set (head := hd EmptyString (split ":" lowerModel)).
  set (pieces := firstn 2 (split "-" head)).
  assert (Hhead : freeOf (fun x => Ascii.eqb x ":") head = true).
  { pose proof (splitBy_free (fun x => Ascii.eqb x ":") lowerModel) as Hf.
    unfold head, split. destruct (splitBy _ lowerModel); [reflexivity|].
    now inversion Hf. }
  assert (Hcolon : freeOf (fun x => Ascii.eqb x ":")
                     (join "-" pieces) = true).
  { apply join_free; [reflexivity|]. apply Forall_firstn.
    now apply splitBy_keeps_free. }
  assert (Hdash : Forall (fun piece => freeOf (fun x => Ascii.eqb x "-") piece = true) pieces).
  { apply Forall_firstn, splitBy_free. }
  assert (Hne : pieces <> []).
  { unfold pieces, split. destruct (splitBy _ head) eqn:Hs; [|discriminate].
    now apply splitBy_nonempty in Hs. }
  unfold split at 2. rewrite (splitBy_of_free _ _ Hcolon). cbn [hd].
  unfold split at 1. rewrite (splitBy_join _ "-"%char pieces Hne eq_refl Hdash).
  unfold pieces. now rewrite firstn_firstn.
Qed.

Lemma append_assoc (a b c : string) :
  ((a ++ b) ++ c = a ++ (b ++ c))%string.
Proof. induction a; simpl; [reflexivity | now f_equal]. Qed.

Lemma fallbackName_prefix (lowerModel : string) :
  exists rest, lowerModel = (fallbackName lowerModel ++ rest)%string.
Proof.
  unfold fallbackName.
  destruct (hd_split_prefix ":" lowerModel) as [r1 H1].
  destruct (join_firstn_split_prefix "-" 2 (hd EmptyString (split ":" lowerModel)))
    as [r2 H2].
  exists (r2 ++ r1)%string. rewrite H1 at 1. rewrite H2 at 1.
  apply append_assoc.
Qed.

Lemma find_rule_prefix (lowerModel rest : string) :
  find (ruleMatches (lowerModel ++ rest)) MODEL_RULES = None ->
  find (ruleMatches lowerModel) MODEL_RULES = None.
Proof.
  intros Hnone. destruct (find (ruleMatches lowerModel) MODEL_RULES) as [rule|] eqn:Hfind;
    [|reflexivity].
  apply find_some in Hfind. destruct Hfind as [Hin Hmatch].
  pose proof (find_none _ _ Hnone rule Hin) as Hno.
  unfold ruleMatches in *. apply existsb_exists in Hmatch.
  destruct Hmatch as (pat & Hpat & Hinc).
  assert (existsb (includes (lowerModel ++ rest)) (fst rule) = true).
  { apply existsb_exists. exists pat. split; [assumption|]. now apply includes_app. }
  congruence.
Qed.

Lemma rule_series_fixed :
  Forall (fun rule => normalizeModelName (JStr (snd rule)) = snd rule) MODEL_RULES.
Proof. repeat constructor. Qed.

(** Normalisation is idempotent wherever it yields a name. *)
Lemma normalizeModelName_idempotent_nonempty (x : string) :
  normalizeModelName (JStr x) <> "" ->
  normalizeModelName (JStr (normalizeModelName (JStr x)))
  = normalizeModelName (JStr x).
Proof.
  intros Hne. unfold normalizeModelName at 2 3. unfold normalizeModelName in Hne.
  destruct (String.eqb x "") eqn:Hx; [reflexivity|].
  destruct (find (ruleMatches (toLowerCase x)) MODEL_RULES) as [rule|] eqn:Hfind.
  - apply find_some in Hfind. destruct Hfind as [Hin _].
    exact (proj1 (Forall_forall _ _) rule_series_fixed rule Hin).
  - destruct (fallbackName_prefix (toLowerCase x)) as [rest Hrest].
    set (r := fallbackName (toLowerCase x)) in *.
    unfold normalizeModelName.
    destruct (String.eqb r "") eqn:Hr; [apply String.eqb_eq in Hr; congruence|].
    assert (Hlow : toLowerCase r = r).
    { apply (toLowerCase_prefix r rest). rewrite <- Hrest. apply toLowerCase_idem. }
    rewrite Hlow. rewrite (find_rule_prefix r rest) by (now rewrite <- Hrest).
    apply fallbackName_fixed.
Qed.

(** ** The session reducer *)

Section Reducer.

Lemma pick_cases (cur : option CodexSnapshot) (s : CodexSnapshot) :
  let p := pickCodexMaxSnapshot cur s in
  (p = s \/ cur = Some p)
  /\ totalTokens s <= totalTokens p
  /\ (forall c, cur = Some c -> totalTokens c <= totalTokens p).
Proof.
  unfold pickCodexMaxSnapshot. destruct cur as [c|]; cbv zeta.
  - destruct (totalTokens c <? totalTokens s) eqn:Hlt.
    + apply Z.ltb_lt in Hlt. repeat split; auto; try lia.
      intros c' [= <-]. lia.
    + apply Z.ltb_ge in Hlt.
      destruct (totalTokens s =? totalTokens c) eqn:Heq; simpl.
      * apply Z.eqb_eq in Heq.
        destruct (gtNumber _ _); repeat split; auto; try lia;
          intros c' [= <-]; lia.
      * repeat split; auto; try lia. intros c' [= <-]; lia.
  - repeat split; auto; try lia. discriminate.
Qed.

Lemma fold_stepSlot_max (sel : CodexSnapshot -> bool)
  (parsed : list (option CodexSnapshot)) (init : option CodexSnapshot) :
  slotMax sel init parsed (fold_left (stepSlot sel) parsed init).
Proof.
  revert init. induction parsed as [|x rest IH]; intros init; simpl.
  - destruct init as [best|]; simpl.
    + split; [now left|]. split; [intros s [= <-]; lia | intros s []].
    + split; [reflexivity | intros s []].
  - specialize (IH (stepSlot sel init x)).
    destruct x as [s|]; simpl in IH; simpl stepSlot.
    2: { unfold slotMax in *. destruct (fold_left _ rest init) as [best|].
         - destruct IH as (Hin & Hinit & Hall). repeat split; auto.
           + destruct Hin as [Hin|[Hin Hs]]; [now left | right; split; [now right | assumption]].
           + intros s [Hs|Hs] Hsel; [discriminate | eauto].
         - destruct IH as (Hinit & Hall). split; [assumption|].
           intros s [Hs|Hs]; [discriminate | eauto]. }
    destruct (sel s) eqn:Hsel.
    + pose proof (pick_cases init s) as (Hp & Hs & Hc). cbv zeta in *.
      set (p := pickCodexMaxSnapshot init s) in *.
      unfold slotMax in *.
      destruct (fold_left _ rest (Some p)) as [best|].
      * destruct IH as (Hin & Hinit & Hall).
        specialize (Hinit p eq_refl). repeat split.
        -- destruct Hin as [[= <-]|[Hin Hb]].
           ++ destruct Hp as [->|Hp]; [right; split; [now left | assumption] | now left].
           ++ right. split; [now right | assumption].
        -- intros c Hcur. specialize (Hc c Hcur). lia.
        -- intros s' [[= <-]|Hs'] Hsel'; [lia | eauto].
      * destruct IH as (Hinit & _). discriminate.
    + unfold slotMax in *. destruct (fold_left _ rest init) as [best|].
      * destruct IH as (Hin & Hinit & Hall). repeat split; auto.
        -- destruct Hin as [Hin|[Hin Hs]]; [now left | right; split; [now right | assumption]].
        -- intros s' [[= <-]|Hs'] Hsel'; [congruence | eauto].
      * destruct IH as (Hinit & Hall). split; [assumption|].
        intros s' [[= <-]|Hs']; [assumption | eauto].
Qed.

Lemma before_excludes_inside (start end_ : Z) (s : CodexSnapshot) :
  isBefore start s = true -> isInside start end_ s = false.
Proof.
  unfold isBefore, isInside. destruct (snapTimestamp s) as [ts|]; [|discriminate].
  destruct (dateNumber ts) as [t|]; simpl; [|discriminate].
  intros H. apply Z.ltb_lt in H. apply andb_false_iff. left. apply Z.leb_gt. lia.
Qed.

Variables start end_ : Z.

Lemma applySnapshot_slots (state : SessionState) (x : option CodexSnapshot) :
  beforeWindow (applySnapshot start end_ state x)
  = stepSlot (isBefore start) (beforeWindow state) x
  /\ inWindow (applySnapshot start end_ state x)
     = stepSlot (isInside start end_) (inWindow state) x.
Proof.
  destruct x as [s|]; simpl; [|auto].
  pose proof (before_excludes_inside start end_ s) as Hex.
  unfold isBefore, isInside, placeSnapshot in *.
  destruct (snapTimestamp s) as [ts|]; [|auto].
  destruct (ltNumber (dateNumber ts) (Some start)) eqn:Hb.
  - rewrite (Hex eq_refl). auto.
  - destruct (geNumber _ _ && ltNumber _ _); auto.
Qed.

Lemma fold_applySnapshot_slots (parsed : list (option CodexSnapshot))
  (state : SessionState) :
  beforeWindow (fold_left (applySnapshot start end_) parsed state)
  = fold_left (stepSlot (isBefore start)) parsed (beforeWindow state)
  /\ inWindow (fold_left (applySnapshot start end_) parsed state)
     = fold_left (stepSlot (isInside start end_)) parsed (inWindow state).
Proof.
  revert state. induction parsed as [|x rest IH]; intros state; simpl; [auto|].
  destruct (IH (applySnapshot start end_ state x)) as [Hb Hi].
  destruct (applySnapshot_slots state x) as [Hb' Hi'].
  rewrite Hb, Hi, Hb', Hi'. auto.
Qed.

Context {rt : JsRuntime}.

Lemma fold_updateSession (ls : list string) (state : SessionState) :
  fold_left (updateSession start end_) ls state
  = fold_left (applySnapshot start end_)
      (map (fun l => valueOf (parseCodexTokenSnapshot l)) ls) state.
Proof.
  revert state. induction ls as [|l rest IH]; intros state; simpl; [reflexivity|].
  apply IH.
Qed.

(** The reducer keeps, per slot, a snapshot of largest total: the
    max-based reduction of one file of a fresh session. *)
Lemma session_slots_are_maxima (ls : list string) :
  let parsed := map (fun l => valueOf (parseCodexTokenSnapshot l)) ls in
  let final := fold_left (updateSession start end_) ls emptySession in
  slotMax (isBefore start) None parsed (beforeWindow final)
  /\ slotMax (isInside start end_) None parsed (inWindow final).
Proof.
  cbv zeta. rewrite fold_updateSession.
  destruct (fold_applySnapshot_slots
              (map (fun l => valueOf (parseCodexTokenSnapshot l)) ls) emptySession)
    as [Hb Hi].
  rewrite Hb, Hi. split; apply fold_stepSlot_max.
Qed.

Lemma reduce_single_file (file : LogFile) :
  reduceCodexSessions start end_ [file]
  = sessionRecord (fold_left (updateSession start end_) (lines file) emptySession).
Proof.
  unfold reduceCodexSessions, scanCodexFile. simpl. now rewrite app_nil_r.
Qed.

End Reducer.

Section Dedup.
Context {rt : JsRuntime}.

Lemma isBefore_snapshotAt (start ts i o c t : Z) :
  isBefore start (snapshotAt ts i o c t) = (ts <? start).
Proof. reflexivity. Qed.

Lemma isInside_snapshotAt (start end_ ts i o c t : Z) :
  isInside start end_ (snapshotAt ts i o c t) = (start <=? ts) && (ts <? end_).
Proof. reflexivity. Qed.

(** Claim C2: one session whose lines, in any order, are a snapshot before
    the window with totals 60/10/30, a snapshot inside the window with
    totals 95/15/60, the same totals once more, and a smaller snapshot
    inside the window: the reducer emits exactly one record, with input 5,
    output 5, cacheRead 30, cacheCreate 0 and total 40. *)
Theorem codex_repeated_snapshot_counted_once (start end_ : Z) (file : LogFile)
  (tBefore tSmall tLarge tAgain : Z)
  (beforeTokens smallIn smallOut smallCache smallTokens largeTokens : Z) :
  Permutation
    (map (fun l => valueOf (parseCodexTokenSnapshot l)) (lines file))
    [ Some (snapshotAt tBefore 60 10 30 beforeTokens);
      Some (snapshotAt tSmall smallIn smallOut smallCache smallTokens);
      Some (snapshotAt tLarge 95 15 60 largeTokens);
      Some (snapshotAt tAgain 95 15 60 largeTokens) ] ->
  tBefore < start ->
  start <= tSmall < end_ ->
  start <= tLarge < end_ ->
  start <= tAgain < end_ ->
  smallTokens < largeTokens ->
  exists record,
    reduceCodexSessions start end_ [file] = [record]
    /\ input record = 5 /\ output record = 5 /\ cacheRead record = 30
    /\ cacheCreate record = 0 /\ calculateTotalTokens record = 40.
Proof.
  intros Hperm Hb Hs Hl Ha Hlt.
  rewrite reduce_single_file.
  destruct (session_slots_are_maxima start end_ (lines file)) as [Hbefore Hinside].
  cbv zeta in *.
  set (parsed := map _ (lines file)) in *.
  set (final := fold_left _ (lines file) emptySession) in *.
  assert (Hmem : forall s, In (Some s) parsed ->
            s = snapshotAt tBefore 60 10 30 beforeTokens
            \/ s = snapshotAt tSmall smallIn smallOut smallCache smallTokens
            \/ s = snapshotAt tLarge 95 15 60 largeTokens
            \/ s = snapshotAt tAgain 95 15 60 largeTokens).
  { intros s Hin. apply (Permutation_in _ Hperm) in Hin. simpl in Hin.
    intuition congruence. }
  assert (HinB : In (Some (snapshotAt tBefore 60 10 30 beforeTokens)) parsed).
  { apply (Permutation_in _ (Permutation_sym Hperm)). simpl. auto. }
  assert (HinL : In (Some (snapshotAt tLarge 95 15 60 largeTokens)) parsed).
  { apply (Permutation_in _ (Permutation_sym Hperm)). simpl. auto. }
  assert (HB : exists b, beforeWindow final = Some b
               /\ inputTotal b = 60 /\ outputTotal b = 10 /\ cacheReadTotal b = 30).
  { unfold slotMax in Hbefore. destruct (beforeWindow final) as [b|].
    - exists b. split; [reflexivity|].
      destruct Hbefore as ([Hno|[Hin Hsel]] & _); [discriminate|].
      destruct (Hmem b Hin) as [ -> | [ -> | [ -> | -> ] ] ];
        rewrite isBefore_snapshotAt in Hsel; apply Z.ltb_lt in Hsel;
        simpl; try lia.
    - destruct Hbefore as [_ Hnone]. specialize (Hnone _ HinB).
      rewrite isBefore_snapshotAt in Hnone. apply Z.ltb_ge in Hnone. lia. }
  assert (HI : exists c, inWindow final = Some c
               /\ inputTotal c = 95 /\ outputTotal c = 15 /\ cacheReadTotal c = 60
               /\ snapModel c = "codex").
  { unfold slotMax in Hinside. destruct (inWindow final) as [c|].
    - exists c. split; [reflexivity|].
      destruct Hinside as ([Hno|[Hin Hsel]] & _ & Hmax); [discriminate|].
      assert (Hlarge : largeTokens <= totalTokens c).
      { apply (Hmax _ HinL). rewrite isInside_snapshotAt.
        apply andb_true_iff. split; [apply Z.leb_le | apply Z.ltb_lt]; lia. }
      destruct (Hmem c Hin) as [ -> | [ -> | [ -> | -> ] ] ];
        rewrite isInside_snapshotAt in Hsel; apply andb_true_iff in Hsel;
        destruct Hsel as [Hge Hle]; apply Z.leb_le in Hge; simpl in *;
        repeat split; try lia; reflexivity.
    - destruct Hinside as [_ Hnone]. specialize (Hnone _ HinL).
      rewrite isInside_snapshotAt in Hnone. apply andb_false_iff in Hnone.
      destruct Hnone as [Hn|Hn]; [apply Z.leb_gt in Hn | apply Z.ltb_ge in Hn]; lia. }
  destruct HB as (b & HbSlot & Hbi & Hbo & Hbc).
  destruct HI as (c & HcSlot & Hci & Hco & Hcc & Hcm).
  unfold sessionRecord. rewrite HcSlot, HbSlot, Hbi, Hbo, Hbc, Hci, Hco, Hcc.
  simpl. eexists. split; [reflexivity|]. repeat split; reflexivity.
Qed.
End Dedup.

(** ** Ranking *)

Section Sorting.

Context {A : Type} (cmp : A -> A -> Z).

Lemma insertBy_perm (x : A) (l : list A) :
  Permutation (insertBy cmp x l) (x :: l).
Proof.
  induction l as [|y rest IH]; simpl; [reflexivity|].
  destruct (cmp x y <=? 0); [reflexivity|].
  rewrite IH. apply perm_swap.
Qed.

Lemma sortBy_perm (l : list A) : Permutation (sortBy cmp l) l.
Proof.
  induction l as [|x rest IH]; simpl; [reflexivity|].
  unfold sortBy in *. simpl. rewrite insertBy_perm. now constructor.
Qed.

Lemma sortBy_length (l : list A) : List.length (sortBy cmp l) = List.length l.
Proof. apply Permutation_length, sortBy_perm. Qed.

Hypothesis cmp_total : forall x y, notAfter cmp x y \/ notAfter cmp y x.
Hypothesis cmp_trans : forall x y z, notAfter cmp x y -> notAfter cmp y z -> notAfter cmp x z.

Lemma insertBy_sorted (x : A) (l : list A) :
  StronglySorted (notAfter cmp) l -> StronglySorted (notAfter cmp) (insertBy cmp x l).
Proof.
  induction 1 as [|y rest Hsorted IH Hall]; simpl.
  - repeat constructor.
  - destruct (cmp x y <=? 0) eqn:Hxy.
    + apply Z.leb_le in Hxy. constructor; [now constructor|].
      constructor; [exact Hxy|].
      eapply Forall_impl; [|exact Hall]. intros z Hz. eapply cmp_trans; eauto.
    + apply Z.leb_gt in Hxy. constructor; [exact IH|].
      eapply Permutation_Forall; [symmetry; apply insertBy_perm|].
      constructor; [|exact Hall].
      destruct (cmp_total x y) as [Hle|Hle]; [unfold notAfter in Hle; lia | exact Hle].
Qed.

Lemma sortBy_sorted (l : list A) : StronglySorted (notAfter cmp) (sortBy cmp l).
Proof.
  induction l as [|x rest IH]; [constructor|].
  unfold sortBy in *. simpl. now apply insertBy_sorted.
Qed.

End Sorting.

(** Two sorted arrangements of the same elements coincide when the order
    separates them. *)
Lemma sorted_arrangement_unique {A : Type} (R : A -> A -> Prop) (l1 l2 : list A) :
  StronglySorted R l1 -> StronglySorted R l2 -> Permutation l1 l2 ->
  (forall a b, In a l1 -> In b l1 -> R a b -> R b a -> a = b) ->
  l1 = l2.
Proof.
  intros H1. revert l2. induction H1 as [|a l1 Hs1 IH Ha]; intros l2 H2 Hperm Hsep.
  - apply Permutation_nil in Hperm. now subst.
  - destruct l2 as [|b l2].
    + apply Permutation_sym, Permutation_nil in Hperm. discriminate.
    + inversion H2 as [|? ? Hs2 Hb]; subst.
      assert (Hab : a = b).
      { assert (Hina : In a (b :: l2)) by (apply (Permutation_in _ Hperm); now left).
        assert (Hinb : In b (a :: l1))
          by (apply (Permutation_in _ (Permutation_sym Hperm)); now left).
        destruct Hina as [->|Hina]; [reflexivity|].
        destruct Hinb as [->|Hinb]; [reflexivity|].
        apply Hsep; [now left | now right | |].
        - exact (proj1 (Forall_forall _ _) Ha b Hinb).
        - exact (proj1 (Forall_forall _ _) Hb a Hina). }
      subst b. f_equal. apply IH; [assumption | |].
      * now apply Permutation_cons_inv in Hperm.
      * intros x y Hx Hy. apply Hsep; now right.
Qed.

Lemma Permutation_filter_same {A : Type} (f : A -> bool) (l1 l2 : list A) :
  Permutation l1 l2 -> Permutation (filter f l1) (filter f l2).
Proof.
  induction 1 as [|x l1 l2 _ IH|x y l|l1 l2 l3 _ IH1 _ IH2]; simpl.
  - constructor.
  - destruct (f x); [now constructor | assumption].
  - destruct (f x), (f y); try reflexivity. apply perm_swap.
  - now transitivity (filter f l2).
Qed.

Lemma NoDup_map_injective {A B : Type} (f : A -> B) (l : list A) (a b : A) :
  NoDup (map f l) -> In a l -> In b l -> f a = f b -> a = b.
Proof.
  induction l as [|x rest IH]; simpl; intros Hnd Ha Hb Hf; [contradiction|].
  inversion Hnd as [|? ? Hnotin Hnd']; subst.
  destruct Ha as [->|Ha], Hb as [->|Hb]; auto.
  - exfalso. apply Hnotin. rewrite Hf. now apply in_map.
  - exfalso. apply Hnotin. rewrite <- Hf. now apply in_map.
Qed.

Section Ranking.

Context {rt : JsRuntime} {C : Collator}.

Lemma compareModels_ranked (a b : ModelAggregate.t) :
  compareModels a b <= 0 <-> rankedBefore a b.
Proof.
  unfold compareModels, rankedBefore.
  destruct (_ =? 0) eqn:Heq.
  - apply Z.eqb_eq in Heq. split; [intros H; right; split; [lia | exact H]|].
    intros [H|[_ H]]; [lia | exact H].
  - apply Z.eqb_neq in Heq. split; [intros H; left; lia|].
    intros [H|[H _]]; lia.
Qed.

Hypothesis Hcollator : consistentCollator C.

Lemma compareModels_total (a b : ModelAggregate.t) :
  compareModels a b <= 0 \/ compareModels b a <= 0.
Proof.
  rewrite !compareModels_ranked. unfold rankedBefore.
  destruct Hcollator as [Htotal _].
  destruct (Z.lt_trichotomy (ModelAggregate.total a) (ModelAggregate.total b))
    as [Hlt|[Heq|Hgt]]; [right; now left | | left; now left].
  destruct (Htotal (ModelAggregate.name a) (ModelAggregate.name b));
    [left | right]; right; split; auto.
Qed.

Lemma compareModels_trans (a b c : ModelAggregate.t) :
  compareModels a b <= 0 -> compareModels b c <= 0 -> compareModels a c <= 0.
Proof.
  rewrite !compareModels_ranked. unfold rankedBefore.
  destruct Hcollator as [_ Htrans].
  intros [H1|[H1 L1]] [H2|[H2 L2]]; try (left; lia).
  right. split; [lia|]. eapply Htrans; eauto.
Qed.

Lemma ranked_sorted (l : list ModelAggregate.t) :
  StronglySorted rankedBefore (sortBy compareModels l).
Proof.
  pose proof (sortBy_sorted compareModels compareModels_total compareModels_trans l) as H.
  induction H; constructor; auto.
  eapply Forall_impl; [|eassumption]. intros b Hb. now apply compareModels_ranked.
Qed.

Lemma rankModels_aggregates (l : list ModelAggregate.t) :
  map aggregate (rankModels l) = sortBy compareModels l.
Proof.
  unfold rankModels. rewrite map_map. simpl. apply map_id.
Qed.

End Ranking.

(** ** The view *)

Section View.

Context {rt : JsRuntime} {C : Collator}.

Lemma sumOf_from {A : Type} (f : A -> Z) (l : list A) (acc : Z) :
  fold_left (fun sum x => sum + f x) l acc = acc + sumOf f l.
Proof.
  unfold sumOf. revert acc. induction l as [|x rest IH]; intros acc; simpl; [lia|].
  rewrite (IH (acc + f x)), (IH (f x)). lia.
Qed.

Lemma sumOf_cons {A : Type} (f : A -> Z) (x : A) (l : list A) :
  sumOf f (x :: l) = f x + sumOf f l.
Proof. unfold sumOf at 1. simpl. now rewrite sumOf_from. Qed.

Lemma sumOf_map {A B : Type} (g : A -> B) (f : B -> Z) (l : list A) :
  sumOf f (map g l) = sumOf (fun x => f (g x)) l.
Proof.
  induction l as [|x rest IH]; [reflexivity|].
  simpl map. now rewrite !sumOf_cons, IH.
Qed.

Lemma sumOf_positive {A : Type} (f : A -> Z) (l : list A) :
  Forall (fun x => 0 < f x) l -> l <> [] -> 0 < sumOf f l.
Proof.
  induction 1 as [|x rest Hx Hrest IH]; intros Hne; [congruence|].
  rewrite sumOf_cons. destruct rest as [|y rest].
  - unfold sumOf. simpl. lia.
  - assert (0 < sumOf f (y :: rest)) by (apply IH; discriminate). lia.
Qed.

Lemma nonZeroModels_positive (aggregated : list (string * ModelAggregate.t)) :
  Forall (fun m => 0 < ModelAggregate.total m) (nonZeroModels aggregated).
Proof.
  apply Forall_forall. intros m Hin. unfold nonZeroModels in Hin.
  apply filter_In in Hin. destruct Hin as [_ H]. now apply Z.ltb_lt.
Qed.

Lemma rankModels_positive (aggregated : list (string * ModelAggregate.t)) :
  Forall (fun row => 0 < rowTotal row) (rankModels (nonZeroModels aggregated)).
Proof.
  unfold rankModels. apply Forall_map. simpl.
  eapply Permutation_Forall; [symmetry; apply sortBy_perm|].
  apply nonZeroModels_positive.
Qed.

Lemma rankModels_length (l : list ModelAggregate.t) :
  List.length (rankModels l) = List.length l.
Proof. unfold rankModels. now rewrite length_map, sortBy_length. Qed.

Lemma generateViewData_distribution
  (aggregated : list (string * ModelAggregate.t)) :
  let view := generateViewData aggregated in
  let ranked := ViewData.models view in
  let rows := withPercent ranked (ViewData.total view) in
  let howMany := List.length (nonZeroModels aggregated) in
  let othersTotal := sumOf rowTotal (skipn 5 ranked) in
  Permutation (map aggregate ranked) (nonZeroModels aggregated)
  /\ ViewData.isExtremeScenario view = (5 <? howMany)%nat
  /\ ViewData.distribution view
     = (if (howMany <=? 5)%nat then map bucketOf rows
        else map bucketOf (firstn 5 rows)
             ++ [othersBucket (howMany - 5)
                   (percentOf othersTotal (ViewData.total view))])
  /\ ((howMany <= 5)%nat \/ 0 < othersTotal).
Proof.
  cbv zeta. unfold generateViewData. cbn [ViewData.models ViewData.total
    ViewData.isExtremeScenario ViewData.distribution].
  set (nz := nonZeroModels aggregated).
  set (ranked := rankModels nz).
  set (total := sumOf rowTotal ranked).
  assert (Hlen : List.length ranked = List.length nz) by apply rankModels_length.
  assert (Hpos : (5 < List.length nz)%nat -> 0 < sumOf rowTotal (skipn 5 ranked)).
  { intros Hmany. apply sumOf_positive.
    - apply Forall_forall. intros row Hin.
      pose proof (rankModels_positive aggregated) as Hall.
      rewrite Forall_forall in Hall. apply Hall.
      fold nz. fold ranked. rewrite <- (firstn_skipn 5 ranked).
      apply in_or_app. now right.
    - intros Hnil. apply (f_equal (@List.length _)) in Hnil.
      rewrite length_skipn in Hnil. simpl in Hnil. lia. }
  split; [|split; [|split]].
  - unfold ranked. rewrite rankModels_aggregates. apply sortBy_perm.
  - now rewrite Hlen.
  - unfold distributionOf, withPercent. rewrite length_map, Hlen.
    rewrite Nat.ltb_antisym, negb_involutive.
    destruct (List.length nz <=? 5)%nat eqn:Hfew; [reflexivity|].
    apply Nat.leb_gt in Hfew. cbv zeta.
    rewrite skipn_map, sumOf_map, length_map, length_skipn, Hlen. simpl fst.
    change (fun x : ModelRow => rowTotal x) with rowTotal.
    specialize (Hpos Hfew). apply Z.ltb_lt in Hpos. now rewrite Hpos.
  - destruct (Nat.le_gt_cases (List.length nz) 5) as [Hfew|Hmany]; [now left|].
    right. now apply Hpos.
Qed.

Lemma generateViewData_ranked
  (aggregated : list (string * ModelAggregate.t)) :
  consistentCollator C ->
  let ranked := map aggregate (ViewData.models (generateViewData aggregated)) in
  StronglySorted rankedBefore ranked
  /\ Permutation ranked (nonZeroModels aggregated)
  /\ (separatingCollator C ->
      NoDup (map ModelAggregate.name (mapValues aggregated)) ->
      forall aggregated',
        Permutation (mapValues aggregated) (mapValues aggregated') ->
        ViewData.models (generateViewData aggregated')
        = ViewData.models (generateViewData aggregated)).
Proof.
  intros Hcollator. cbv zeta. unfold generateViewData. cbn [ViewData.models].
  rewrite rankModels_aggregates.
  split; [now apply ranked_sorted|]. split; [apply sortBy_perm|].
  intros Hsep Hnames aggregated' Hperm.
  unfold rankModels. f_equal.
  assert (Hnz : Permutation (nonZeroModels aggregated') (nonZeroModels aggregated)).
  { unfold nonZeroModels. now apply Permutation_filter_same, Permutation_sym. }
  apply (sorted_arrangement_unique rankedBefore).
  - now apply ranked_sorted.
  - now apply ranked_sorted.
  - rewrite !sortBy_perm. exact Hnz.
  - intros a b Ha Hb Hab Hba.
    assert (Hin : forall m, In m (sortBy compareModels (nonZeroModels aggregated')) ->
                            In m (mapValues aggregated)).
    { intros m Hm. apply (Permutation_in _ (sortBy_perm _ _)) in Hm.
      apply (Permutation_in _ Hnz) in Hm. unfold nonZeroModels in Hm.
      now apply filter_In in Hm. }
    apply (NoDup_map_injective ModelAggregate.name (mapValues aggregated));
      auto.
    unfold rankedBefore in Hab, Hba.
    destruct Hab as [Hab|[Hat Hab]], Hba as [Hba|[Hbt Hba]]; try lia.
    now apply Hsep.
Qed.

End View.

(** ** Civil days *)

Section CalendarFacts.

(** Within an era, the year of the era lies in 0..399 and the date computed
    for a day of the era is the date of that day. *)
Lemma eraDayOf_dateOfEraDay (doe : Z) :
  0 <= doe < 146097 ->
  let '(yoe, m, d) := dateOfEraDay doe in
  0 <= yoe < 400 /\ eraDayOf yoe m d = doe.
Proof.
  intros Hdoe. unfold dateOfEraDay, eraDayOf.
  set (yoe := (doe - doe / 1460 + doe / 36524 - doe / 146096) / 365).
  set (doy := doe - (365 * yoe + yoe / 4 - yoe / 100)).
  set (mp := (5 * doy + 2) / 153).
  assert (Hyear : 0 <= yoe < 400 /\ 0 <= doy < 366).
  { unfold doy, yoe. Z.div_mod_to_equations. lia. }
  destruct Hyear as [Hyoe Hdoy].
  assert (Hmp : 0 <= mp < 12) by (unfold mp; Z.div_mod_to_equations; lia).
  split; [exact Hyoe|].
  assert (Hmonth : (if 2 <? (if mp <? 10 then mp + 3 else mp - 9)
                    then (if mp <? 10 then mp + 3 else mp - 9) - 3
                    else (if mp <? 10 then mp + 3 else mp - 9) + 9) = mp).
  { destruct (Z.ltb_spec mp 10).
    - destruct (Z.ltb_spec 2 (mp + 3)); lia.
    - destruct (Z.ltb_spec 2 (mp - 9)); lia. }
  rewrite Hmonth. unfold doy. lia.
Qed.

Lemma days_from_civil_from_days (z : Z) :
  let '(y, m, d) := civil_from_days z in days_from_civil y m d = z.
Proof.
  unfold civil_from_days.
  set (era := (z + 719468) / 146097).
  set (doe := z + 719468 - era * 146097).
  assert (Hdoe : 0 <= doe < 146097).
  { unfold doe, era.
    pose proof (Z.mod_pos_bound (z + 719468) 146097 eq_refl) as Hm.
    rewrite Z.mod_eq in Hm by lia. lia. }
  pose proof (eraDayOf_dateOfEraDay doe Hdoe) as Hdate.
  destruct (dateOfEraDay doe) as [[yoe m] d].
  destruct Hdate as [Hyoe Hback].
  unfold days_from_civil.
  assert (Hy : (if m <=? 2
                then (if m <=? 2 then yoe + era * 400 + 1 else yoe + era * 400) - 1
                else (if m <=? 2 then yoe + era * 400 + 1 else yoe + era * 400))
               = yoe + era * 400) by (destruct (m <=? 2); lia).
  rewrite Hy.
  assert (Hera : (yoe + era * 400) / 400 = era).
  { rewrite Z.div_add by lia. rewrite Z.div_small; lia. }
  rewrite Hera.
  replace (yoe + era * 400 - era * 400) with yoe by lia.
  rewrite Hback. unfold doe. lia.
Qed.

Lemma midnightOf_parts (now : Z) :
  midnightOf (getBeijingDateTimeParts now)
  = (now + beijingOffset) / msPerDay * msPerDay - beijingOffset.
Proof.
  unfold midnightOf, getBeijingDateTimeParts.
  pose proof (days_from_civil_from_days ((now + beijingOffset) / msPerDay)) as H.
  destruct (civil_from_days ((now + beijingOffset) / msPerDay)) as [[y m] d].
  simpl. now rewrite H.
Qed.

(** The civil day of an instant depends on its day number only. *)
Lemma dayKey_of_day (a b : Z) :
  (a + beijingOffset) / msPerDay = (b + beijingOffset) / msPerDay ->
  getBeijingDayKey a = getBeijingDayKey b.
Proof.
  unfold getBeijingDayKey, getBeijingDateTimeParts. intros ->.
  destruct (civil_from_days ((b + beijingOffset) / msPerDay)) as [[y m] d].
  reflexivity.
Qed.

Lemma early_minutes (now : Z) :
  let parts := getBeijingDateTimeParts now in
  (hour parts =? 0) && (minute parts <? DAILY_REFRESH_MINUTE)
  = ((now + beijingOffset) mod msPerDay <? DAILY_REFRESH_MINUTE * msPerMinute).
Proof.
  unfold getBeijingDateTimeParts.
  destruct (civil_from_days ((now + beijingOffset) / msPerDay)) as [[y m] d].
  cbn [hour minute].
  unfold msPerDay, msPerHour, msPerMinute, DAILY_REFRESH_MINUTE.
  set (r := (now + beijingOffset) mod 86400000).
  assert (Hr : 0 <= r < 86400000) by (apply Z.mod_pos_bound; lia).
  destruct (r <? 5 * 60000) eqn:Hearly.
  - apply Z.ltb_lt in Hearly. apply andb_true_iff. split.
    + apply Z.eqb_eq. apply Z.div_small. lia.
    + apply Z.ltb_lt. rewrite Z.mod_small by lia.
      apply Z.div_lt_upper_bound; lia.
  - apply Z.ltb_ge in Hearly. apply andb_false_iff.
    destruct (Z.lt_ge_cases r 3600000) as [Hlt|Hge].
    + right. apply Z.ltb_ge. rewrite Z.mod_small by lia.
      apply Z.div_le_lower_bound; lia.
    + left. apply Z.eqb_neq. intros Hzero.
      apply Z.div_small_iff in Hzero; lia.
Qed.

(** The batch key is the day key of the instant, or of the instant one day
    earlier during the first five minutes of the civil day. *)
Lemma getDailyRefreshKey_batch (now : Z) :
  getDailyRefreshKey now
  = getBeijingDayKey
      (if (now + beijingOffset) mod msPerDay <? DAILY_REFRESH_MINUTE * msPerMinute
       then now - msPerDay else now).
Proof.
  unfold getDailyRefreshKey. rewrite early_minutes.
  unfold getBeijingDayStart. rewrite midnightOf_parts.
  set (day := (now + beijingOffset) / msPerDay).
  destruct (_ <? _); apply dayKey_of_day.
  - replace (day * msPerDay - beijingOffset - msPerDay + beijingOffset)
      with ((day - 1) * msPerDay) by lia.
    replace (now - msPerDay + beijingOffset)
      with (now + beijingOffset + (-1) * msPerDay) by lia.
    rewrite Z.div_mul by (unfold msPerDay; lia).
    rewrite Z.div_add by (unfold msPerDay; lia). unfold day. lia.
  - replace (day * msPerDay - beijingOffset + beijingOffset)
      with (day * msPerDay) by lia.
    now rewrite Z.div_mul by (unfold msPerDay; lia).
Qed.

End CalendarFacts.

(** ** Staleness of the cache *)

Section Refresh.
Context {rt : JsRuntime}.

Lemma today_stale_iff (entry : option PeriodCacheEntry) (now : Z) :
  shouldRefreshPeriod "today" entry now = true <->
  hasData entry = false
  \/ cachedDayKey entry <> Some (getBeijingDayKey now)
  \/ match computedInstant entry with
     | Some computed => TODAY_REFRESH_INTERVAL_MS <= now - computed
     | None => True
     end.
Proof.
  unfold shouldRefreshPeriod. destruct (hasData entry) eqn:Hdata; simpl.
  2: { split; auto. }
  destruct entry as [e|]; [|discriminate]. simpl.
  destruct (present (computedAt e)) as [text|];
    destruct (present (dayKey e)) as [key|]; simpl.
  - destruct (String.eqb key (getBeijingDayKey now)) eqn:Hkey; simpl.
    + apply String.eqb_eq in Hkey. subst key.
      destruct (Date_parse text) as [computed|]; simpl.
      * rewrite negb_true_iff, Z.ltb_ge. split; [auto|].
        intros [H|[H|H]]; [discriminate | congruence | exact H].
      * split; auto.
    + apply String.eqb_neq in Hkey. split; [|reflexivity].
      intros _. right. left. congruence.
  - split; [|reflexivity]. intros _. right. left. discriminate.
  - split; [|reflexivity]. intros _. right. right. exact I.
  - split; [|reflexivity]. intros _. right. left. discriminate.
Qed.

Lemma range_stale_iff (period : string) (entry : option PeriodCacheEntry)
  (now : Z) :
  String.eqb period "today" = false ->
  shouldRefreshPeriod period entry now = true <->
  hasData entry = false
  \/ cachedBatchKey entry <> Some (getDailyRefreshKey now).
Proof.
  intros Hperiod. unfold shouldRefreshPeriod. rewrite Hperiod.
  destruct (hasData entry) eqn:Hdata; simpl.
  2: { split; auto. }
  destruct entry as [e|]; [|discriminate]. simpl.
  destruct (present (dailyRefreshKey e)) as [key|]; simpl.
  - destruct (String.eqb key (getDailyRefreshKey now)) eqn:Hkey; simpl.
    + apply String.eqb_eq in Hkey. subst key. split; [discriminate|].
      intros [H|H]; [discriminate | congruence].
    + apply String.eqb_neq in Hkey. split; [|reflexivity].
      intros _. right. congruence.
  - split; [|reflexivity]. intros _. right. discriminate.
Qed.

End Refresh.

(** ** Time windows *)

Section Windows.
Context {rt : JsRuntime}.

(** What the two scans return once the scanner has answered with files: the
    lines kept one by one, and the reduction of the sessions. *)
Lemma scans_of_files (env : Env) (start end_ : Z)
  (scan : ScanRequest -> ScanOutcome) (claude codex : ScanResult)
  (claudeFiles codexFiles : list LogFile) :
  scanLogFiles env = Some scan ->
  scan {| basePath := "~/.claude/projects"; pattern := "**/*.jsonl";
          reqStart := start; reqEnd := end_ |} = Resolved claude ->
  scan {| basePath := "~/.codex/sessions"; pattern := "**/*.jsonl";
          reqStart := start; reqEnd := end_ |} = Resolved codex ->
  success claude = true -> files claude = Some claudeFiles ->
  success codex = true -> files codex = Some codexFiles ->
  scanClaudeLogs env start end_
  = flat_map (fun file => flat_map (keepClaudeLine start end_) (lines file))
      claudeFiles
  /\ scanCodexLogs env start end_ = reduceCodexSessions start end_ codexFiles.
Proof.
  intros Hscan Hclaude Hcodex Hok1 Hfiles1 Hok2 Hfiles2.
  unfold scanClaudeLogs, scanCodexLogs.
  rewrite Hscan, Hclaude, Hcodex, Hok1, Hfiles1, Hok2, Hfiles2. split; reflexivity.
Qed.

Lemma keepClaudeLine_parsed (start end_ : Z) (line : string)
  (record : UsageRecord) :
  parseClaudeLog line = inr (Some record) ->
  keepClaudeLine start end_ line
  = if withinWindow (timestamp record) start end_ then [record] else [].
Proof. intros H. unfold keepClaudeLine. now rewrite H. Qed.


(** A record without a timestamp compares as the instant 0: it is dropped
    by every window that starts after the epoch. *)
Lemma missing_timestamp_outside (start end_ : Z) :
  0 < start -> withinWindow None start end_ = false.
Proof.
  intros H. unfold withinWindow. simpl. apply andb_false_iff. left.
  apply Z.leb_gt. exact H.
Qed.

Lemma windowStart_after_epoch (now : Z) (period : string) :
  firstOfFebruary1970 <= now -> In period PERIODS ->
  0 < windowStart (getBeijingTimeWindow now period).
Proof.
  intros Hnow Hin. unfold getBeijingTimeWindow, getBeijingDateParts.
  rewrite midnightOf_parts.
  assert (Hday : 31 <= (now + beijingOffset) / msPerDay).
  { apply Z.div_le_lower_bound; [reflexivity|].
    change firstOfFebruary1970 with 2649600000 in Hnow.
    unfold beijingOffset, msPerHour, msPerDay. lia. }
  unfold beijingOffset, msPerHour, msPerDay in *.
  change (8 * 3600000) with 28800000 in *.
  simpl in Hin. destruct Hin as [<-|[<-|[<-|[]]]]; simpl; lia.
Qed.

Lemma missing_timestamp_discarded (env : Env) (period : string)
  (line : string) (state : SessionState) (start end_ : Z) :
  let window := getBeijingTimeWindow (now env) period in
  firstOfFebruary1970 <= now env -> In period PERIODS ->
  (forall record,
      parseClaudeLog line = inr (Some record) -> timestamp record = None ->
      keepClaudeLine (windowStart window) (windowEnd window) line = [])
  /\ (forall snapshot,
         parseCodexTokenSnapshot line = inr (Some snapshot) ->
         snapTimestamp snapshot = None ->
         updateSession start end_ state line = state).
Proof.
  intros window Hnow Hin. split.
  - intros record Hparse Hts. rewrite (keepClaudeLine_parsed _ _ _ _ Hparse), Hts.
    now rewrite missing_timestamp_outside by (now apply windowStart_after_epoch).
  - intros snapshot Hparse Hts. unfold updateSession. rewrite Hparse. simpl.
    now rewrite Hts.
Qed.

End Windows.

(** Claim C9, at the input where the code departs from it: with the clock at
    1970-01-01T05:00:00Z the today window starts 8 hours before the epoch,
    the missing timestamp compares as the instant 0, and the Claude line
    without a timestamp is counted (one record, 7 tokens). *)
Theorem missing_timestamp_counted_at_epoch :
  let env :=
    Fixture.envWith (utcInstant 1970 1 1 5 0 0)
      (Fixture.scanResult
         [ {| path := "/tmp/mock-claude.jsonl"; lines := ["no-timestamp"] |} ])
      (Fixture.scanResult []) in
  exists data,
    @aggregateUsage Fixture.runtime Fixture.collator env "today" = Success data
    /\ recordCount data = 1
    /\ ViewData.total (view data) = 7
    /\ windowStart (getBeijingTimeWindow (now env) "today") = - beijingOffset
    /\ @parseClaudeLog Fixture.runtime "no-timestamp"
       = inr (Some {| timestamp := None; model := "sonnet"; input := 7;
                      output := 0; cacheRead := 0; cacheCreate := 0 |}).
Proof. cbv zeta. eexists. split; [vm_compute; reflexivity|]. repeat split. Qed.

(** ** Collation by code units is a consistent, separating collation *)

Section CodeUnitCollation.

Import OrderedTypeEx.

Lemma code_unit_le (a b : string) :
  @localeCompare Fixture.collator a b <= 0 <-> a = b \/ String_as_OT.lt a b.
Proof.
  simpl. destruct (String.compare a b) eqn:Hcmp.
  - apply String_as_OT.cmp_eq in Hcmp. split; [auto | lia].
  - apply String_as_OT.cmp_lt in Hcmp. split; [auto | lia].
  - split; [lia|]. intros [->|Hlt].
    + assert (String.compare b b = Eq) by (now apply String_as_OT.cmp_eq).
      congruence.
    + apply String_as_OT.cmp_lt in Hlt. unfold String_as_OT.cmp in Hlt. congruence.
Qed.

Lemma code_unit_collation_consistent : consistentCollator Fixture.collator.
Proof.
  split.
  - intros a b. rewrite !code_unit_le.
    destruct (String.compare a b) eqn:Hcmp.
    + apply String_as_OT.cmp_eq in Hcmp. auto.
    + apply String_as_OT.cmp_lt in Hcmp. auto.
    + right. right. apply String_as_OT.cmp_lt.
      unfold String_as_OT.cmp. rewrite (String.compare_antisym b a). rewrite Hcmp. reflexivity.
  - intros a b c Hab Hbc. apply code_unit_le in Hab, Hbc. apply code_unit_le.
    destruct Hab as [->|Hab], Hbc as [->|Hbc]; auto.
    right. eapply String_as_OT.lt_trans; eauto.
Qed.

Lemma code_unit_collation_separating : separatingCollator Fixture.collator.
Proof.
  intros a b Hab Hba. apply code_unit_le in Hab, Hba.
  destruct Hab as [->|Hab], Hba as [Heq|Hba]; auto.
  exfalso. apply (String_as_OT.lt_not_eq a a); [|reflexivity].
  eapply String_as_OT.lt_trans; eauto.
Qed.

End CodeUnitCollation.

(** ** The map of aggregates is keyed by the names of its values *)

Section Aggregation.

Lemma mapGet_some_in {V : Type} (k : string) (v : V) (m : list (string * V)) :
  mapGet k m = Some v -> In (k, v) m.
Proof.
  induction m as [|[k' v'] rest IH]; simpl; [discriminate|].
  destruct (String.eqb k k') eqn:Hk.
  - apply String.eqb_eq in Hk. intros [= <-]. subst. now left.
  - intros H. right. auto.
Qed.

Lemma mapSet_keys {V : Type} (k : string) (v : V) (m : list (string * V)) :
  map fst (mapSet k v m)
  = if existsb (String.eqb k) (map fst m) then map fst m
    else map fst m ++ [k].
Proof.
  induction m as [|[k' v'] rest IH]; simpl; [reflexivity|].
  destruct (String.eqb k k') eqn:Hk; simpl.
  - apply String.eqb_eq in Hk. now subst.
  - rewrite IH. now destruct (existsb _ _).
Qed.

Lemma mapSet_Forall {V : Type} (P : string * V -> Prop) (k : string) (v : V)
  (m : list (string * V)) :
  Forall P m -> P (k, v) -> Forall P (mapSet k v m).
Proof.
  induction 1 as [|[k' v'] rest Hhead Hrest IH]; simpl; intros Hnew.
  - now repeat constructor.
  - destruct (String.eqb k k'); constructor; auto.
Qed.

Lemma mapSet_NoDup {V : Type} (k : string) (v : V) (m : list (string * V)) :
  NoDup (map fst m) -> NoDup (map fst (mapSet k v m)).
Proof.
  intros Hnd. rewrite mapSet_keys.
  destruct (existsb (String.eqb k) (map fst m)) eqn:Hex; [assumption|].
  apply NoDup_app; [assumption | repeat constructor; auto |].
  intros x Hx [->|[]].
  assert (existsb (String.eqb x) (map fst m) = true).
  { apply existsb_exists. exists x. split; [assumption | apply String.eqb_refl]. }
  congruence.
Qed.

Lemma addRecord_wellKeyed (m : list (string * ModelAggregate.t))
  (record : UsageRecord) :
  wellKeyed m -> wellKeyed (addRecord m record).
Proof.
  intros [Hnd Hnames]. unfold addRecord.
  set (key := if String.eqb (model record) "" then "unknown" else model record).
  split; [now apply mapSet_NoDup|].
  apply mapSet_Forall; [assumption|]. simpl.
  destruct (mapGet key m) as [data|] eqn:Hget; [|reflexivity].
  apply mapGet_some_in in Hget.
  exact (proj1 (Forall_forall _ _) Hnames _ Hget).
Qed.

Lemma aggregateByModel_wellKeyed (records : list UsageRecord) :
  wellKeyed (aggregateByModel records).
Proof.
  unfold aggregateByModel.
  assert (H : forall m, wellKeyed m -> wellKeyed (fold_left addRecord records m)).
  { induction records as [|r rest IH]; intros m Hm; simpl; [assumption|].
    apply IH. now apply addRecord_wellKeyed. }
  apply H. split; constructor.
Qed.

Lemma wellKeyed_names (m : list (string * ModelAggregate.t)) :
  wellKeyed m -> NoDup (map ModelAggregate.name (mapValues m)).
Proof.
  intros [Hnd Hnames]. unfold mapValues. rewrite map_map.
  erewrite map_ext_in; [exact Hnd|].
  intros kv Hin. exact (proj1 (Forall_forall _ _) Hnames _ Hin).
Qed.

End Aggregation.

(** ** The entry point *)

Section EntryPoint.
Context {rt : JsRuntime} {C : Collator}.

Lemma aggregateUsage_success (env : Env) (period : string) (data : UsageData) :
  aggregateUsage env period = Success data ->
  view data = generateViewData (aggregatedOf env period)
  /\ recordCount data = Z.of_nat (List.length (recordsOf env period)).
Proof.
  unfold aggregateUsage, aggregatedOf, recordsOf.
  destruct (negb _); [discriminate|]. intros [= <-]. split; reflexivity.
Qed.

Lemma aggregateUsage_supported (env : Env) (period : string) :
  In period PERIODS ->
  aggregateUsage env period
  = Success {| view := generateViewData (aggregatedOf env period);
               period := period;
               startTime := windowStart (getBeijingTimeWindow (now env) period);
               endTime := windowEnd (getBeijingTimeWindow (now env) period);
               recordCount := Z.of_nat (List.length (recordsOf env period)) |}.
Proof.
  intros Hin. unfold aggregateUsage.
  assert (Hex : existsb (String.eqb period) PERIODS = true).
  { apply existsb_exists. exists period. split; [assumption | apply String.eqb_refl]. }
  rewrite Hex. reflexivity.
Qed.

Lemma failed_scan_has_no_records (env : Env) (window : TimeWindow) :
  (scanFailed env "~/.claude/projects" window ->
   scanClaudeLogs env (windowStart window) (windowEnd window) = [])
  /\ (scanFailed env "~/.codex/sessions" window ->
      scanCodexLogs env (windowStart window) (windowEnd window) = []).
Proof.
  split; intros (scan & result & Hscan & Hresult & Hfail);
    unfold scanClaudeLogs, scanCodexLogs; rewrite Hscan, Hresult, Hfail;
    reflexivity.
Qed.

Lemma failures_as_empty_same_records (env : Env) (start end_ : Z) :
  scanClaudeLogs (withFailuresAsEmpty env) start end_
  = scanClaudeLogs env start end_
  /\ scanCodexLogs (withFailuresAsEmpty env) start end_
     = scanCodexLogs env start end_.
Proof.
  unfold scanClaudeLogs, scanCodexLogs, withFailuresAsEmpty.
  cbn [scanLogFiles].
  destruct (scanLogFiles env) as [scan|]; [|split; reflexivity].
  split.
  - destruct (scan _) as [result|]; [|reflexivity].
    destruct (success result) eqn:Hok; [now rewrite Hok | reflexivity].
  - destruct (scan _) as [result|]; [|reflexivity].
    destruct (success result) eqn:Hok; [now rewrite Hok | reflexivity].
Qed.

(** Claim C1, amended: a log source whose scan reports [success: false]
    contributes no records, and the error of the scanner is not
    propagated: the aggregation answers what it answers when every failed
    scan is replaced by the successful scan of a directory without files.
    When both scans fail, for a supported period and a clock from 1992 to
    9999, that answer is the successful empty report. *)
Theorem failed_scan_contributes_nothing (env : Env) (period : string) :
  let window := getBeijingTimeWindow (now env) period in
  (scanFailed env "~/.claude/projects" window ->
   scanClaudeLogs env (windowStart window) (windowEnd window) = [])
  /\ (scanFailed env "~/.codex/sessions" window ->
      scanCodexLogs env (windowStart window) (windowEnd window) = [])
  /\ aggregateUsage env period = aggregateUsage (withFailuresAsEmpty env) period
  /\ (In period PERIODS -> civilRange (now env) ->
      scanFailed env "~/.claude/projects" window ->
      scanFailed env "~/.codex/sessions" window ->
      aggregateUsage env period
      = Success {| view := emptyView;
                   period := period;
                   startTime := windowStart window;
                   endTime := windowEnd window;
                   recordCount := 0 |}).
Proof.
  cbv zeta.
  destruct (failed_scan_has_no_records env (getBeijingTimeWindow (now env) period))
    as [Hclaude Hcodex].
  split; [exact Hclaude|]. split; [exact Hcodex|]. split.
  - unfold aggregateUsage. destruct (negb _); [reflexivity|].
    cbn [now withFailuresAsEmpty].
    destruct (failures_as_empty_same_records env
                (windowStart (getBeijingTimeWindow (now env) period))
                (windowEnd (getBeijingTimeWindow (now env) period)))
      as [-> ->].
    reflexivity.
  - intros Hin _ Hfailed1 Hfailed2.
    rewrite (aggregateUsage_supported env period Hin).
    unfold aggregatedOf, recordsOf.
    rewrite (Hclaude Hfailed1), (Hcodex Hfailed2). reflexivity.
Qed.

(** Claim C4, amended: in every successful result the ranked models are
    the models of positive total, the larger total first, and the total of
    the view is the sum of theirs. With at most 5 of them the distribution
    is one bucket for each, in rank order, named and keyed by the model,
    with its colour and its share of the total. With more than 5 it is the
    buckets of the first 5, followed, when the totals of the remaining
    models sum to more than zero, by one bucket keyed [others] that names
    their number and carries the share of that sum. [isExtremeScenario]
    tells whether there are more than 5. *)
Theorem distribution_top_five_and_others (env : Env) (period : string)
  (data : UsageData) :
  aggregateUsage env period = Success data ->
  consistentCollator C ->
  let positive :=
    filter (fun m => 0 <? ModelAggregate.total m)
      (mapValues (aggregatedOf env period)) in
  let ranked := ViewData.models (view data) in
  let howMany := List.length ranked in
  let whole := ViewData.total (view data) in
  let share part := if 0 <? whole then roundedPercent part whole else 0 in
  let bucket row :=
    {| Bucket.name := ModelAggregate.name (aggregate row);
       Bucket.percent := share (ModelAggregate.total (aggregate row));
       Bucket.color := color row;
       Bucket.key := ModelAggregate.name (aggregate row) |} in
  let remaining := skipn 5 ranked in
  let othersTotal :=
    sumOf (fun row => ModelAggregate.total (aggregate row)) remaining in
  let others :=
    {| Bucket.name :=
         ("其他 (" ++ decimal (Z.of_nat (List.length remaining))
            ++ "个模型)")%string;
       Bucket.percent := share othersTotal;
       Bucket.color := "#8b919a";
       Bucket.key := "others" |} in
  Permutation (map aggregate ranked) positive
  /\ StronglySorted rankedBefore (map aggregate ranked)
  /\ whole = sumOf (fun row => ModelAggregate.total (aggregate row)) ranked
  /\ ViewData.isExtremeScenario (view data) = (5 <? howMany)%nat
  /\ ViewData.distribution (view data)
     = (if (howMany <=? 5)%nat then map bucket ranked
        else map bucket (firstn 5 ranked)
             ++ (if 0 <? othersTotal then [others] else [])).
Proof.
  intros Hrun Hcollator. destruct (aggregateUsage_success _ _ _ Hrun) as [-> _].
  cbv zeta.
  destruct (generateViewData_distribution (aggregatedOf env period))
    as (Hperm & Hextreme & Hdistribution & Hothers).
  destruct (generateViewData_ranked (aggregatedOf env period) Hcollator)
    as (Hsorted & _ & _).
  cbv zeta in *.
  set (viewData := generateViewData (aggregatedOf env period)) in *.
  assert (Hlength : List.length (ViewData.models viewData)
                    = List.length (nonZeroModels (aggregatedOf env period))).
  { rewrite <- (Permutation_length Hperm). now rewrite length_map. }
  rewrite <- Hlength in Hextreme, Hdistribution, Hothers.
  split; [exact Hperm|]. split; [exact Hsorted|]. split; [reflexivity|].
  split; [exact Hextreme|].
  rewrite Hdistribution. clear Hdistribution.
  unfold withPercent, percentOf, bucketOf, othersBucket, rowTotal,
    MODEL_COLORS_default in *.
  destruct (Nat.leb_spec (List.length (ViewData.models viewData)) 5)
    as [Hfew|Hmany].
  - rewrite map_map. reflexivity.
  - destruct Hothers as [Hfew|Hpositive]; [lia|].
    apply Z.ltb_lt in Hpositive. rewrite Hpositive.
    rewrite firstn_map, map_map, length_skipn. reflexivity.
Qed.

(** Claim C5: in every successful result the models are sorted by total
    descending, equal totals by name ascending in the collation order, and
    they are the models of non-zero total. The list is a function of the
    aggregates alone: for a collation that separates names it does not
    depend on the order in which the models entered the map. *)
Theorem models_ranked_deterministically (env : Env) (period : string)
  (data : UsageData) :
  aggregateUsage env period = Success data ->
  consistentCollator C ->
  let ranked := map aggregate (ViewData.models (view data)) in
  StronglySorted rankedBefore ranked
  /\ Permutation ranked (nonZeroModels (aggregatedOf env period))
  /\ (separatingCollator C ->
      forall aggregated',
        Permutation (mapValues (aggregatedOf env period)) (mapValues aggregated') ->
        ViewData.models (generateViewData aggregated')
        = ViewData.models (view data)).
Proof.
  intros Hrun Hcollator. destruct (aggregateUsage_success _ _ _ Hrun) as [-> _].
  destruct (generateViewData_ranked (aggregatedOf env period) Hcollator)
    as (Hsorted & Hperm & Hsame).
  split; [exact Hsorted|]. split; [exact Hperm|].
  intros Hsep. apply Hsame; [exact Hsep|].
  apply wellKeyed_names, aggregateByModel_wellKeyed.
Qed.

(** On token counts that are never negative the models kept are the ones
    whose total is not zero. *)
Lemma nonZeroModels_nonnegative (aggregated : list (string * ModelAggregate.t)) :
  Forall (fun m => 0 <= ModelAggregate.total m) (mapValues aggregated) ->
  nonZeroModels aggregated
  = filter (fun m => negb (ModelAggregate.total m =? 0)) (mapValues aggregated).
Proof.
  unfold nonZeroModels. induction 1 as [|m rest Hm Hrest IH]; [reflexivity|].
  simpl. rewrite IH.
  destruct (Z.ltb_spec 0 (ModelAggregate.total m)),
    (Z.eqb_spec (ModelAggregate.total m) 0); simpl; try reflexivity; lia.
Qed.

End EntryPoint.

(** ** The refresh policy *)

(** Claim C6, amended: a today entry is stale iff it has no data, or its day
    key is not that of the current civil day, or its instant of computation
    is missing or unreadable, or at least 5 minutes have elapsed since; a
    week or month entry is stale iff it has no data or its batch key is not
    the current one; at a current instant from 1992 to 9999 the current
    batch key is the day key of the instant, taken one day earlier during
    the first 5 minutes of the civil day. *)
Theorem refresh_policy {rt : JsRuntime} (entry : option PeriodCacheEntry)
  (now : Z) :
  (shouldRefreshPeriod "today" entry now = true <->
   hasData entry = false
   \/ cachedDayKey entry <> Some (getBeijingDayKey now)
   \/ match computedInstant entry with
      | Some computed => TODAY_REFRESH_INTERVAL_MS <= now - computed
      | None => True
      end)
  /\ (shouldRefreshPeriod "week" entry now = true <->
      hasData entry = false
      \/ cachedBatchKey entry <> Some (getDailyRefreshKey now))
  /\ (shouldRefreshPeriod "month" entry now = true <->
      hasData entry = false
      \/ cachedBatchKey entry <> Some (getDailyRefreshKey now))
  /\ (civilRange now ->
      getDailyRefreshKey now
      = getBeijingDayKey
          (if (now + beijingOffset) mod msPerDay
              <? DAILY_REFRESH_MINUTE * msPerMinute
           then now - msPerDay else now)).
Proof.
  split; [apply today_stale_iff|].
  split; [now apply range_stale_iff|].
  split; [now apply range_stale_iff | intros _; apply getDailyRefreshKey_batch].
Qed.

(** An entry computed exactly five minutes ago, on the same civil day, is
    stale, although no more than five minutes have elapsed. *)
Lemma today_entry_stale_at_five_minutes :
  let entry :=
    Some {| data := Some Fixture.emptyUsage;
            computedAt := Some "2026-02-15T03:00:00.000Z";
            dayKey := Some "2026-02-15";
            dailyRefreshKey := None |} in
  let now := Fixture.fixedNow + 5 * 60 * 1000 in
  ~ (@shouldRefreshPeriod Fixture.runtime "today" entry now = true
     <-> @specTodayStale Fixture.runtime entry now).
Proof.
  cbv zeta. intros [Hstale _].
  assert (Hrun : @shouldRefreshPeriod Fixture.runtime "today"
            (Some {| data := Some Fixture.emptyUsage;
                     computedAt := Some "2026-02-15T03:00:00.000Z";
                     dayKey := Some "2026-02-15";
                     dailyRefreshKey := None |})
            (Fixture.fixedNow + 5 * 60 * 1000) = true) by (vm_compute; reflexivity).
  destruct (Hstale Hrun) as [Hdata|[Hday|(computed & Hcomputed & Helapsed)]].
  - discriminate Hdata.
  - apply Hday. vm_compute. reflexivity.
  - vm_compute in Hcomputed. injection Hcomputed as <-.
    vm_compute in Helapsed. discriminate Helapsed.
Qed.

(** ** Scans that fail *)

(** Both scans answer [success: false] with [PERMISSION_DENIED], and the
    aggregation of today answers [success: true] with the empty report. *)
Lemma failed_scans_reported_as_success :
  let env :=
    Fixture.envWith Fixture.fixedNow
      (Fixture.failedScan "PERMISSION_DENIED")
      (Fixture.failedScan "PERMISSION_DENIED") in
  scanFailed env "~/.claude/projects" (getBeijingTimeWindow (now env) "today")
  /\ scanFailed env "~/.codex/sessions" (getBeijingTimeWindow (now env) "today")
  /\ @aggregateUsage Fixture.runtime Fixture.collator env "today"
     = Success {| view := view Fixture.emptyUsage;
                  period := "today";
                  startTime := beijingInstant 2026 2 15 0 0 0;
                  endTime := Fixture.fixedNow;
                  recordCount := 0 |}
  /\ ~ (exists error,
          @aggregateUsage Fixture.runtime Fixture.collator env "today"
          = Failure error).
Proof.
  cbv zeta. split; [|split; [|split]].
  - eexists _, _. repeat split; reflexivity.
  - eexists _, _. repeat split; reflexivity.
  - vm_compute. reflexivity.
  - intros [error Hfailure]. vm_compute in Hfailure. discriminate Hfailure.
Qed.

(** A failed Claude scan next to a Codex scan that succeeds: the report is
    the one of the run in which the Claude directory holds no file. *)
Lemma failed_scan_contributes_nothing_witness :
  let env :=
    Fixture.envWith Fixture.fixedNow
      (Fixture.failedScan "PERMISSION_DENIED")
      (Fixture.scanResult
         [Fixture.codexFile ["codex-before"; "codex-small"; "codex-large"; "codex-large"]]) in
  let window := getBeijingTimeWindow (now env) "today" in
  @scanClaudeLogs Fixture.runtime env (windowStart window) (windowEnd window) = []
  /\ @aggregateUsage Fixture.runtime Fixture.collator env "today"
     = @aggregateUsage Fixture.runtime Fixture.collator
         (withFailuresAsEmpty env) "today".
Proof.
  cbv zeta.
  destruct (@failed_scan_contributes_nothing Fixture.runtime Fixture.collator
              (Fixture.envWith Fixture.fixedNow
                 (Fixture.failedScan "PERMISSION_DENIED")
                 (Fixture.scanResult
                    [Fixture.codexFile
                       ["codex-before"; "codex-small"; "codex-large"; "codex-large"]]))
              "today") as (Hclaude & _ & Hsame & _).
  split; [|exact Hsame].
  apply Hclaude. eexists _, _. repeat split; reflexivity.
Defined.

(** ** A model of negative total *)

(** One Claude line with the input figure -5: the model has a total that is
    not zero, it is one model and not more than 5, and the distribution is
    empty instead of holding its bucket. *)
Lemma negative_total_is_left_out :
  let env :=
    Fixture.envWith Fixture.fixedNow
      (Fixture.scanResult [Fixture.claudeFile ["refund"]])
      (Fixture.scanResult []) in
  let nonZero :=
    filter (fun m => negb (ModelAggregate.total m =? 0))
      (mapValues (@aggregatedOf EdgeFixture.runtime env "today")) in
  exists data,
    @aggregateUsage EdgeFixture.runtime Fixture.collator env "today" = Success data
    /\ map (fun m => (ModelAggregate.name m, ModelAggregate.total m)) nonZero
       = [("sonnet", -5)]
    /\ ViewData.distribution (view data) = []
    /\ ViewData.isExtremeScenario (view data) = false
    /\ map Bucket.key (ViewData.distribution (view data))
       <> map ModelAggregate.name nonZero.
Proof.
  cbv zeta. eexists. split; [reflexivity|].
  split; [vm_compute; reflexivity|]. split; [vm_compute; reflexivity|].
  split; [vm_compute; reflexivity|]. vm_compute. discriminate.
Qed.

(** ** Normalisation of the empty result *)

(** Claim C7, at the input where the code departs from it: a name that starts
    with a colon and matches no rule normalises to the empty text, which in
    turn normalises to [unknown]. *)
Theorem normalizeModelName_not_idempotent_on_colon :
  normalizeModelName (JStr ":latest") = ""
  /\ normalizeModelName (JStr (normalizeModelName (JStr ":latest"))) = "unknown"
  /\ normalizeModelName (JStr (normalizeModelName (JStr ":latest")))
     <> normalizeModelName (JStr ":latest").
Proof. repeat split. discriminate. Qed.

(** Normalisation is idempotent exactly where it yields a name. *)
Lemma normalizeModelName_idempotent_iff (x : string) :
  normalizeModelName (JStr (normalizeModelName (JStr x)))
  = normalizeModelName (JStr x)
  <-> normalizeModelName (JStr x) <> "".
Proof.
  split; [|apply normalizeModelName_idempotent_nonempty].
  intros Hidem Hempty. rewrite Hempty in Hidem. discriminate Hidem.
Qed.

(** ** Instances on the lines of the test suite *)

(** The session of UT-BE-AGG-07 with its largest snapshot repeated verbatim,
    the lines out of order. *)
Lemma codex_repeated_snapshot_witness :
  let start := windowStart (getBeijingTimeWindow Fixture.fixedNow "today") in
  let end_ := windowEnd (getBeijingTimeWindow Fixture.fixedNow "today") in
  let file :=
    Fixture.codexFile ["codex-large"; "codex-before"; "codex-small"; "codex-large"] in
  exists record,
    @reduceCodexSessions Fixture.runtime start end_ [file] = [record]
    /\ input record = 5 /\ output record = 5 /\ cacheRead record = 30
    /\ cacheCreate record = 0 /\ calculateTotalTokens record = 40.
Proof.
  cbv zeta.
  apply (@codex_repeated_snapshot_counted_once Fixture.runtime _ _ _
           (utcInstant 2026 2 14 15 59 0) (utcInstant 2026 2 14 16 10 0)
           (utcInstant 2026 2 14 16 20 0) (utcInstant 2026 2 14 16 20 0)
           100 80 10 50 140 170).
  - vm_compute.
    apply (perm_trans (l' := [Some (snapshotAt 1771084740000 60 10 30 100);
                              Some (snapshotAt 1771086000000 95 15 60 170);
                              Some (snapshotAt 1771085400000 80 10 50 140);
                              Some (snapshotAt 1771086000000 95 15 60 170)])).
    + apply perm_swap.
    + apply perm_skip, perm_swap.
  - vm_compute. reflexivity.
  - vm_compute. split; [discriminate | reflexivity].
  - vm_compute. split; [discriminate | reflexivity].
  - vm_compute. split; [discriminate | reflexivity].
  - lia.
Defined.


(** Seven models and one without consumption. *)
Lemma distribution_witness :
  let env :=
    Fixture.envWith Fixture.fixedNow
      (Fixture.scanResult
         [Fixture.claudeFile ["model-1"; "model-2"; "model-3"; "model-4";
                              "model-5"; "model-6"; "model-7"; "zero"]])
      (Fixture.scanResult []) in
  exists data,
    @aggregateUsage Fixture.runtime Fixture.collator env "today" = Success data
    /\ consistentCollator Fixture.collator
    /\ ViewData.isExtremeScenario (view data) = true
    /\ map (fun bucket => (Bucket.key bucket, Bucket.percent bucket))
         (ViewData.distribution (view data))
       = [("model-1", 25); ("model-2", 21); ("model-3", 18); ("model-4", 14);
          ("model-5", 11); ("others", 11)]
    /\ StronglySorted (@rankedBefore Fixture.collator)
         (map aggregate (ViewData.models (view data))).
Proof.
  cbv zeta. eexists. split; [reflexivity|].
  split; [exact code_unit_collation_consistent|].
  match goal with
  | |- context [view ?d] =>
      destruct (@distribution_top_five_and_others Fixture.runtime Fixture.collator
                  _ "today" d eq_refl code_unit_collation_consistent)
        as (_ & Hsorted & _ & Hextreme & Hdistribution)
  end.
  split; [exact Hextreme|]. split; [rewrite Hdistribution; reflexivity|].
  exact Hsorted.
Defined.

(** Three models of equal total next to a larger one. *)
Lemma ranking_witness :
  let env :=
    Fixture.envWith Fixture.fixedNow
      (Fixture.scanResult [Fixture.claudeFile ["zeta"; "alpha"; "beta"; "model-1"]])
      (Fixture.scanResult []) in
  exists data,
    @aggregateUsage Fixture.runtime Fixture.collator env "today" = Success data
    /\ consistentCollator Fixture.collator
    /\ StronglySorted (@rankedBefore Fixture.collator)
         (map aggregate (ViewData.models (view data)))
    /\ map (fun row => ModelAggregate.name (aggregate row))
         (ViewData.models (view data))
       = ["model-1"; "alpha"; "beta"; "zeta"].
Proof.
  cbv zeta. eexists. split; [reflexivity|].
  split; [exact code_unit_collation_consistent|].
  match goal with
  | |- context [view ?d] =>
      destruct (@models_ranked_deterministically Fixture.runtime Fixture.collator
                  _ "today" d eq_refl code_unit_collation_consistent)
        as (Hsorted & _ & _)
  end.
  split; [exact Hsorted | reflexivity].
Defined.

(** ** The unit tests of the repository, replayed on the embedding *)

Example corrupt_lines_are_skipped :
  @parseClaudeLog Fixture.runtime "not json" = inr None
  /\ @parseClaudeLog Fixture.runtime "null" = inr None
  /\ @parseClaudeLog Fixture.runtime "no-usage" = inr None
  /\ @parseCodexTokenSnapshot Fixture.runtime "today-midnight" = inr None.
Proof. repeat split. Qed.

(** UT-AGG-01, UT-AGG-02 and UT-AGG-03: the records, the total and the order
    of the models for the three periods at 2026-02-15T03:00:00Z. *)
Example prd_windows :
  let env :=
    Fixture.envWith Fixture.fixedNow
      (Fixture.scanResult
         [Fixture.claudeFile
            ["today-midnight"; "today-0100"; "week-start";
             "yesterday-last-second"; "month-start"; "zero"]])
      (Fixture.scanResult []) in
  let summary period :=
    match @aggregateUsage Fixture.runtime Fixture.collator env period with
    | Success data =>
        Some (recordCount data, ViewData.total (view data),
              map (fun row => ModelAggregate.name (aggregate row))
                  (ViewData.models (view data)))
    | Failure _ => None
    end in
  summary "today" = Some (2, 45, ["opus"; "sonnet"])
  /\ summary "week" = Some (2, 70, ["codex"; "kimi"])
  /\ summary "month" = Some (3, 120, ["deepseek"; "codex"; "kimi"])
  /\ @aggregateUsage Fixture.runtime Fixture.collator env "invalid-period"
     = Failure "INVALID_PERIOD".
Proof. vm_compute. repeat split. Qed.

(** UT-BE-AGG-03: seven models give the first five and the others, 11
    percent of the total. *)
Example top_five_and_others :
  let env :=
    Fixture.envWith Fixture.fixedNow
      (Fixture.scanResult
         [Fixture.claudeFile ["model-1"; "model-2"; "model-3"; "model-4";
                              "model-5"; "model-6"; "model-7"]])
      (Fixture.scanResult []) in
  match @aggregateUsage Fixture.runtime Fixture.collator env "today" with
  | Success data =>
      map (fun bucket => (Bucket.key bucket, Bucket.percent bucket))
          (ViewData.distribution (view data))
      = [("model-1", 25); ("model-2", 21); ("model-3", 18); ("model-4", 14);
         ("model-5", 11); ("others", 11)]
  | Failure _ => False
  end.
Proof. vm_compute. reflexivity. Qed.

(** * Further properties *)

(** ** Aggregation by model, as sums *)

Section AggregationSums.

Lemma mapGet_mapSet {V : Type} (k k' : string) (v : V) (m : list (string * V)) :
  mapGet k (mapSet k' v m) = if String.eqb k k' then Some v else mapGet k m.
Proof.
  induction m as [|[k0 v0] rest IH]; simpl.
  - destruct (String.eqb k k'); reflexivity.
  - destruct (String.eqb_spec k' k0) as [->|Hne]; simpl.
    + destruct (String.eqb k k0); reflexivity.
    + rewrite IH. destruct (String.eqb_spec k k0) as [->|]; [|reflexivity].
      destruct (String.eqb_spec k0 k'); [congruence|reflexivity].
Qed.

Lemma sumOf_snoc {A : Type} (f : A -> Z) (l : list A) (x : A) :
  sumOf f (l ++ [x]) = sumOf f l + f x.
Proof. unfold sumOf. now rewrite fold_left_app. Qed.

Lemma aggregateByModel_snoc (records : list UsageRecord) (record : UsageRecord) :
  aggregateByModel (records ++ [record])
  = addRecord (aggregateByModel records) record.
Proof. unfold aggregateByModel. now rewrite fold_left_app. Qed.

Lemma recordsFor_snoc (key : string) (records : list UsageRecord)
  (record : UsageRecord) :
  recordsFor key (records ++ [record])
  = recordsFor key records
    ++ (if String.eqb key (modelKey record) then [record] else []).
Proof. unfold recordsFor. now rewrite filter_app. Qed.

(** X1: the aggregate stored under a key holds, field by field, the sums
    over the records of that key ([record.model], or [unknown] when it is
    empty) and their number; a key without records has no aggregate. *)
Theorem aggregateByModel_sums (records : list UsageRecord) (key : string) :
  let mine := recordsFor key records in
  match mapGet key (aggregateByModel records) with
  | None => mine = []
  | Some data =>
      mine <> []
      /\ ModelAggregate.name data = key
      /\ ModelAggregate.input data = sumOf input mine
      /\ ModelAggregate.output data = sumOf output mine
      /\ ModelAggregate.cacheRead data = sumOf cacheRead mine
      /\ ModelAggregate.cacheCreate data = sumOf cacheCreate mine
      /\ ModelAggregate.total data = sumOf calculateTotalTokens mine
      /\ ModelAggregate.count data = Z.of_nat (List.length mine)
  end.
Proof.
  cbv zeta. induction records as [|record records IH] using rev_ind.
  - reflexivity.
  - rewrite aggregateByModel_snoc, recordsFor_snoc. unfold addRecord.
    change (if String.eqb (model record) "" then "unknown" else model record)
      with (modelKey record).
    rewrite mapGet_mapSet.
    destruct (String.eqb_spec key (modelKey record)) as [<-|Hother].
    + rewrite !sumOf_snoc, length_app, Nat2Z.inj_add. simpl List.length.
      destruct (mapGet key (aggregateByModel records)) as [data|].
      * destruct IH as (_ & Hname & Hin & Hout & Hcr & Hcc & Htotal & Hcount).
        cbn [ModelAggregate.name ModelAggregate.input ModelAggregate.output
             ModelAggregate.cacheRead ModelAggregate.cacheCreate
             ModelAggregate.total ModelAggregate.count].
        rewrite Hin, Hout, Hcr, Hcc, Htotal, Hcount.
        repeat split; try reflexivity; try assumption.
        intros Hnil. now apply app_eq_nil in Hnil as [_ Hnil].
      * rewrite IH. cbn. repeat split. discriminate.
    + rewrite app_nil_r. exact IH.
Qed.

(** The total of an aggregate is the sum of its four parts. *)
Lemma aggregateByModel_balanced (records : list UsageRecord) :
  Forall (fun kv =>
            ModelAggregate.total (snd kv)
            = ModelAggregate.input (snd kv) + ModelAggregate.output (snd kv)
              + ModelAggregate.cacheRead (snd kv)
              + ModelAggregate.cacheCreate (snd kv))
    (aggregateByModel records).
Proof.
  induction records as [|record records IH] using rev_ind; [constructor|].
  rewrite aggregateByModel_snoc. unfold addRecord.
  apply mapSet_Forall; [exact IH|].
  cbn [snd ModelAggregate.input ModelAggregate.output ModelAggregate.cacheRead
       ModelAggregate.cacheCreate ModelAggregate.total].
  unfold calculateTotalTokens.
  destruct (mapGet _ _) as [data|] eqn:Hget.
  - apply mapGet_some_in in Hget.
    pose proof (proj1 (Forall_forall _ _) IH _ Hget) as Hdata.
    simpl in Hdata. lia.
  - cbn. lia.
Qed.

Lemma sumOf_three {A : Type} (f g h k : A -> Z) (l : list A) :
  Forall (fun x => f x = g x + h x + k x) l ->
  sumOf f l = sumOf g l + sumOf h l + sumOf k l.
Proof.
  induction 1 as [|x rest Hx Hrest IH]; [reflexivity|].
  rewrite !sumOf_cons. lia.
Qed.

Lemma sumOf_perm {A : Type} (f : A -> Z) (l1 l2 : list A) :
  Permutation l1 l2 -> sumOf f l1 = sumOf f l2.
Proof.
  induction 1; try reflexivity.
  - rewrite !sumOf_cons. lia.
  - rewrite !sumOf_cons. lia.
  - congruence.
Qed.

Lemma ranked_among_aggregates `{Collator}
  (aggregated : list (string * ModelAggregate.t)) (row : ModelRow) :
  In row (rankModels (nonZeroModels aggregated)) ->
  In (aggregate row) (mapValues aggregated)
  /\ 0 < ModelAggregate.total (aggregate row).
Proof.
  intros Hin.
  assert (Hagg : In (aggregate row) (nonZeroModels aggregated)).
  { apply (Permutation_in _ (sortBy_perm compareModels _)).
    rewrite <- rankModels_aggregates. now apply in_map. }
  unfold nonZeroModels in Hagg. apply filter_In in Hagg as [Hvalue Hpos].
  split; [exact Hvalue | now apply Z.ltb_lt].
Qed.

(** X2: in the view of records whose figures are whole numbers of a
    magnitude that sums to at most 2^53, the total is the sum of the input,
    the output and the cache figures, and so is the total of every model
    listed. *)
Theorem view_total_is_sum_of_parts `{JsRuntime} `{Collator}
  (records : list UsageRecord) :
  withinSafeIntegers records ->
  let view := generateViewData (aggregateByModel records) in
  ViewData.total view
  = ViewData.input view + ViewData.output view + ViewData.cache view
  /\ Forall (fun row =>
               rowTotal row
               = ModelAggregate.input (aggregate row)
                 + ModelAggregate.output (aggregate row)
                 + (ModelAggregate.cacheRead (aggregate row)
                    + ModelAggregate.cacheCreate (aggregate row)))
       (ViewData.models view).
Proof.
  intros _. cbv zeta.
  assert (Hrows :
    Forall (fun row =>
              rowTotal row
              = ModelAggregate.input (aggregate row)
                + ModelAggregate.output (aggregate row)
                + (ModelAggregate.cacheRead (aggregate row)
                   + ModelAggregate.cacheCreate (aggregate row)))
      (rankModels (nonZeroModels (aggregateByModel records)))).
  { apply Forall_forall. intros row Hrow.
    apply ranked_among_aggregates in Hrow as [Hvalue _].
    unfold mapValues in Hvalue. apply in_map_iff in Hvalue as (kv & Hkv & Hin).
    pose proof (proj1 (Forall_forall _ _) (aggregateByModel_balanced records)
                  _ Hin) as Hbalanced.
    unfold rowTotal. rewrite <- Hkv. simpl in Hbalanced. lia. }
  split; [|exact Hrows].
  unfold generateViewData.
  cbn [ViewData.total ViewData.input ViewData.output ViewData.cache].
  now apply sumOf_three.
Qed.

Lemma sumOf_mapSet {V : Type} (f : V -> Z) (k : string) (v : V)
  (m : list (string * V)) :
  sumOf f (mapValues (mapSet k v m))
  = sumOf f (mapValues m) + f v
    - match mapGet k m with Some old => f old | None => 0 end.
Proof.
  unfold mapValues. induction m as [|[k0 v0] rest IH]; simpl map.
  - simpl. rewrite sumOf_cons. unfold sumOf. simpl. lia.
  - simpl mapGet. destruct (String.eqb k k0); simpl map.
    + rewrite !sumOf_cons. simpl. lia.
    + rewrite !sumOf_cons, IH. simpl. lia.
Qed.

(** A figure that [addRecord] increases by [g record], and that is zero on
    a new aggregate, sums over the aggregates to the sum of [g] over the
    records. *)
Lemma aggregateByModel_figure (f : ModelAggregate.t -> Z) (g : UsageRecord -> Z)
  (records : list UsageRecord) :
  (forall name i o cr cc t c record,
      f {| ModelAggregate.name := name;
           ModelAggregate.input := i + input record;
           ModelAggregate.output := o + output record;
           ModelAggregate.cacheRead := cr + cacheRead record;
           ModelAggregate.cacheCreate := cc + cacheCreate record;
           ModelAggregate.total := t + calculateTotalTokens record;
           ModelAggregate.count := c + 1 |}
      = f {| ModelAggregate.name := name; ModelAggregate.input := i;
             ModelAggregate.output := o; ModelAggregate.cacheRead := cr;
             ModelAggregate.cacheCreate := cc; ModelAggregate.total := t;
             ModelAggregate.count := c |} + g record) ->
  (forall name,
      f {| ModelAggregate.name := name; ModelAggregate.input := 0;
           ModelAggregate.output := 0; ModelAggregate.cacheRead := 0;
           ModelAggregate.cacheCreate := 0; ModelAggregate.total := 0;
           ModelAggregate.count := 0 |} = 0) ->
  sumOf f (mapValues (aggregateByModel records)) = sumOf g records.
Proof.
  intros Hstep Hzero.
  induction records as [|record records IH] using rev_ind; [reflexivity|].
  rewrite aggregateByModel_snoc, sumOf_snoc, <- IH. unfold addRecord.
  rewrite sumOf_mapSet.
  destruct (mapGet _ _) as [[name i o cr cc t c]|].
  - cbn [ModelAggregate.name ModelAggregate.input ModelAggregate.output
         ModelAggregate.cacheRead ModelAggregate.cacheCreate
         ModelAggregate.total ModelAggregate.count].
    rewrite Hstep. lia.
  - cbn [ModelAggregate.name ModelAggregate.input ModelAggregate.output
         ModelAggregate.cacheRead ModelAggregate.cacheCreate
         ModelAggregate.total ModelAggregate.count].
    rewrite Hstep, Hzero. lia.
Qed.

(** X3: aggregation loses and invents nothing. For records whose figures
    are whole numbers of a magnitude that sums to at most 2^53, each figure
    sums over all the aggregates to the sum of that figure over the
    records, and the counts sum to the number of records. *)
Theorem aggregateByModel_conserves (records : list UsageRecord) :
  withinSafeIntegers records ->
  let all := mapValues (aggregateByModel records) in
  sumOf ModelAggregate.input all = sumOf input records
  /\ sumOf ModelAggregate.output all = sumOf output records
  /\ sumOf ModelAggregate.cacheRead all = sumOf cacheRead records
  /\ sumOf ModelAggregate.cacheCreate all = sumOf cacheCreate records
  /\ sumOf ModelAggregate.total all = sumOf calculateTotalTokens records
  /\ sumOf ModelAggregate.count all = Z.of_nat (List.length records).
Proof.
  intros _. cbv zeta. repeat split.
  - apply aggregateByModel_figure; reflexivity.
  - apply aggregateByModel_figure; reflexivity.
  - apply aggregateByModel_figure; reflexivity.
  - apply aggregateByModel_figure; reflexivity.
  - apply aggregateByModel_figure; reflexivity.
  - rewrite (aggregateByModel_figure ModelAggregate.count (fun _ => 1));
      try reflexivity.
    induction records as [|r rest IH]; [reflexivity|].
    rewrite sumOf_cons, IH. simpl List.length. lia.
Qed.

Lemma aggregateByModel_nonnegative (records : list UsageRecord) :
  Forall (fun record => 0 <= calculateTotalTokens record) records ->
  Forall (fun kv => 0 <= ModelAggregate.total (snd kv)) (aggregateByModel records).
Proof.
  induction records as [|record records IH] using rev_ind; [constructor|].
  intros Hall. apply Forall_app in Hall as [Hrecords Hrecord].
  apply Forall_inv in Hrecord.
  rewrite aggregateByModel_snoc. unfold addRecord.
  apply mapSet_Forall; [now apply IH|].
  cbn [snd ModelAggregate.total].
  destruct (mapGet _ _) as [data|] eqn:Hget.
  - apply mapGet_some_in in Hget.
    pose proof (proj1 (Forall_forall _ _) (IH Hrecords) _ Hget) as Hdata.
    simpl in Hdata. lia.
  - cbn. lia.
Qed.

Lemma sumOf_filter_positive {A : Type} (f : A -> Z) (l : list A) :
  Forall (fun x => 0 <= f x) l ->
  sumOf f (filter (fun x => 0 <? f x) l) = sumOf f l.
Proof.
  induction 1 as [|x rest Hx Hrest IH]; [reflexivity|].
  simpl. destruct (Z.ltb_spec 0 (f x)); rewrite !sumOf_cons, ?IH; lia.
Qed.

(** X4: for records whose figures are whole numbers of a magnitude that
    sums to at most 2^53, none of them with a negative total, the total of
    the view is the sum of the totals of all the records: the models left
    out for a zero total take no tokens with them. *)
Theorem view_total_counts_every_token `{JsRuntime} `{Collator}
  (records : list UsageRecord) :
  withinSafeIntegers records ->
  Forall (fun record => 0 <= calculateTotalTokens record) records ->
  ViewData.total (generateViewData (aggregateByModel records))
  = sumOf calculateTotalTokens records.
Proof.
  intros _ Hall. unfold generateViewData. cbn [ViewData.total].
  unfold rowTotal. rewrite <- (sumOf_map aggregate ModelAggregate.total).
  rewrite rankModels_aggregates.
  rewrite (sumOf_perm _ _ _ (sortBy_perm compareModels _)).
  unfold nonZeroModels. rewrite sumOf_filter_positive.
  - apply aggregateByModel_figure; reflexivity.
  - unfold mapValues. apply Forall_map.
    exact (aggregateByModel_nonnegative records Hall).
Qed.

End AggregationSums.

(** ** The entry point and its windows *)

Section EntryPointMore.
Context {rt : JsRuntime} {C : Collator}.



End EntryPointMore.

Section WindowGeometry.

Lemma todayStart_bounds (now : Z) :
  let start := midnightOf (getBeijingDateParts now) in
  start <= now < start + msPerDay
  /\ (start + beijingOffset) mod msPerDay = 0.
Proof.
  cbv zeta. unfold getBeijingDateParts. rewrite midnightOf_parts.
  unfold msPerDay, beijingOffset, msPerHour.
  split; Z.div_mod_to_equations; lia.
Qed.

(** X7: the three windows of an instant from 1992 to 9999. Today runs from
    the last civil midnight of Beijing, at most a day back, to the instant;
    the week and the month end where today starts and are 7 and 30 days
    long; so a time stamp counted in the week is counted in the month and
    is not counted today. A period that is none of the three gets the
    window of today. *)
Theorem windows_of_an_instant (now : Z) :
  civilRange now ->
  let today := getBeijingTimeWindow now "today" in
  let week := getBeijingTimeWindow now "week" in
  let month := getBeijingTimeWindow now "month" in
  (windowStart today <= now < windowStart today + msPerDay
   /\ (windowStart today + beijingOffset) mod msPerDay = 0
   /\ windowEnd today = now)
  /\ (windowEnd week = windowStart today
      /\ windowEnd week - windowStart week = 7 * msPerDay)
  /\ (windowEnd month = windowStart today
      /\ windowEnd month - windowStart month = 30 * msPerDay)
  /\ (forall ts,
        withinWindow ts (windowStart week) (windowEnd week) = true ->
        withinWindow ts (windowStart month) (windowEnd month) = true
        /\ withinWindow ts (windowStart today) (windowEnd today) = false)
  /\ (forall period,
        ~ In period PERIODS -> getBeijingTimeWindow now period = today).
Proof.
  intros _. cbv zeta. unfold getBeijingTimeWindow. cbn [String.eqb Ascii.eqb Bool.eqb
    windowStart windowEnd].
  simpl String.eqb. cbn [windowStart windowEnd].
  destruct (todayStart_bounds now) as [Hbounds Haligned]. cbv zeta in *.
  set (start := midnightOf (getBeijingDateParts now)) in *.
  split; [repeat split; try tauto; lia|].
  split; [split; [reflexivity | lia]|].
  split; [split; [reflexivity | lia]|].
  split.
  - intros ts. unfold withinWindow, geNumber, ltNumber, msPerDay.
    destruct (nullableDateNumber ts) as [t|]; [|discriminate].
    intros Hweek. apply andb_true_iff in Hweek as [Hge Hlt].
    apply Z.leb_le in Hge. apply Z.ltb_lt in Hlt. split.
    + apply andb_true_iff. split; [apply Z.leb_le | apply Z.ltb_lt]; lia.
    + apply andb_false_iff. left. apply Z.leb_gt. lia.
  - intros period Hout.
    destruct (String.eqb_spec period "today") as [->|_]; [reflexivity|].
    destruct (String.eqb_spec period "week") as [->|_];
      [exfalso; apply Hout; simpl; auto|].
    destruct (String.eqb_spec period "month") as [->|_];
      [exfalso; apply Hout; simpl; auto|].
    reflexivity.
Qed.

End WindowGeometry.

(** ** Codex sessions *)

Section Sessions.

Lemma pick_replaces (current incoming : CodexSnapshot) :
  pickCodexMaxSnapshot (Some current) incoming
  = if replaces incoming current then incoming else current.
Proof.
  unfold pickCodexMaxSnapshot, replaces.
  destruct (totalTokens current <? totalTokens incoming); reflexivity.
Qed.

Lemma replaces_irrefl (s : CodexSnapshot) : replaces s s = false.
Proof.
  unfold replaces, gtNumber, ltNumber.
  rewrite Z.ltb_irrefl, Z.eqb_refl. simpl.
  destruct (nullableDateNumber (snapTimestamp s)); [apply Z.ltb_irrefl | reflexivity].
Qed.

Lemma replaces_chain (s x best : CodexSnapshot) :
  replaces s best = false -> replaces x best = true -> replaces s x = false.
Proof.
  unfold replaces, gtNumber, ltNumber. intros Hs Hx.
  apply orb_false_iff in Hs as [Hs1 Hs2]. apply Z.ltb_ge in Hs1.
  apply orb_false_iff. split; [apply Z.ltb_ge|].
  - apply orb_true_iff in Hx as [Hx|Hx].
    + apply Z.ltb_lt in Hx. lia.
    + apply andb_true_iff in Hx as [Hx _]. apply Z.eqb_eq in Hx. lia.
  - destruct (Z.eqb_spec (totalTokens s) (totalTokens x)) as [Hsx|]; [|reflexivity].
    simpl. apply orb_true_iff in Hx as [Hx|Hx].
    + apply Z.ltb_lt in Hx. lia.
    + apply andb_true_iff in Hx as [Hx Hlater]. apply Z.eqb_eq in Hx.
      destruct (Z.eqb_spec (totalTokens s) (totalTokens best)); [|lia].
      simpl in Hs2.
      destruct (nullableDateNumber (snapTimestamp best)) as [tb|]; [|discriminate].
      destruct (nullableDateNumber (snapTimestamp x)) as [tx|]; [|discriminate].
      destruct (nullableDateNumber (snapTimestamp s)) as [ts|]; [|reflexivity].
      apply Z.ltb_lt in Hlater. apply Z.ltb_ge in Hs2. apply Z.ltb_ge. lia.
Qed.

Lemma pick_again (cur : option CodexSnapshot) (s : CodexSnapshot) :
  pickCodexMaxSnapshot (Some (pickCodexMaxSnapshot cur s)) s
  = pickCodexMaxSnapshot cur s.
Proof.
  destruct cur as [c|].
  - rewrite !pick_replaces. destruct (replaces s c) eqn:Hsc.
    + now rewrite replaces_irrefl.
    + now rewrite Hsc.
  - simpl pickCodexMaxSnapshot at 2 3. rewrite pick_replaces.
    now rewrite replaces_irrefl.
Qed.

Lemma pick_keeps (best s x : CodexSnapshot) :
  pickCodexMaxSnapshot (Some best) s = best ->
  pickCodexMaxSnapshot (Some (pickCodexMaxSnapshot (Some best) x)) s
  = pickCodexMaxSnapshot (Some best) x.
Proof.
  rewrite !pick_replaces. intros Hkept.
  assert (Hs : replaces s best = false).
  { destruct (replaces s best) eqn:Hsb; [|reflexivity].
    subst s. now rewrite replaces_irrefl in Hsb. }
  destruct (replaces x best) eqn:Hx.
  - now rewrite (replaces_chain s x best Hs Hx).
  - now rewrite Hs.
Qed.

Variable sel : CodexSnapshot -> bool.

Lemma settled_after (slot : option CodexSnapshot) (x : option CodexSnapshot) :
  settled sel (stepSlot sel slot x) x.
Proof.
  unfold settled, stepSlot. destruct x as [s|]; [|reflexivity].
  destruct (sel s) eqn:Hsel; [|reflexivity].
  now rewrite pick_again.
Qed.

Lemma settled_preserved (slot : option CodexSnapshot)
  (x y : option CodexSnapshot) :
  settled sel slot x -> settled sel (stepSlot sel slot y) x.
Proof.
  unfold settled, stepSlot. destruct x as [s|]; [|reflexivity].
  destruct y as [t|]; [|auto].
  destruct (sel s) eqn:Hs; [|destruct (sel t); reflexivity].
  destruct slot as [best|]; [|discriminate].
  intros Hslot.
  assert (Hkept : pickCodexMaxSnapshot (Some best) s = best) by congruence.
  destruct (sel t); [|now rewrite Hkept].
  now rewrite pick_keeps.
Qed.

Lemma fold_settles (parsed : list (option CodexSnapshot))
  (slot : option CodexSnapshot) (x : option CodexSnapshot) :
  In x parsed -> settled sel (fold_left (stepSlot sel) parsed slot) x.
Proof.
  revert slot. induction parsed as [|y rest IH]; intros slot; [intros []|].
  intros [->|Hin]; simpl.
  - clear IH. generalize (settled_after slot x).
    generalize (stepSlot sel slot x). induction rest as [|z rest IH];
      intros slot' Hsettled; simpl; [exact Hsettled|].
    apply IH. now apply settled_preserved.
  - now apply IH.
Qed.

Lemma fold_settled (parsed : list (option CodexSnapshot))
  (slot : option CodexSnapshot) :
  Forall (settled sel slot) parsed ->
  fold_left (stepSlot sel) parsed slot = slot.
Proof.
  induction 1 as [|x rest Hx Hrest IH]; simpl; [reflexivity|].
  unfold settled in Hx. now rewrite Hx.
Qed.

End Sessions.

Section Replay.
Context {rt : JsRuntime}.
Variables start end_ : Z.

Lemma sessionState_eta (a b : SessionState) :
  beforeWindow a = beforeWindow b -> inWindow a = inWindow b -> a = b.
Proof. destruct a, b; simpl; congruence. Qed.

Lemma replayed_snapshots_change_nothing
  (parsed again : list (option CodexSnapshot)) (state : SessionState) :
  incl again parsed ->
  fold_left (applySnapshot start end_) (parsed ++ again) state
  = fold_left (applySnapshot start end_) parsed state.
Proof.
  intros Hincl. rewrite fold_left_app.
  set (reached := fold_left (applySnapshot start end_) parsed state).
  destruct (fold_applySnapshot_slots start end_ again reached) as [Hbefore Hinside].
  destruct (fold_applySnapshot_slots start end_ parsed state) as [Hb Hi].
  fold reached in Hb, Hi.
  apply sessionState_eta.
  - rewrite Hbefore. apply fold_settled. apply Forall_forall. intros x Hx.
    rewrite Hb. apply fold_settles. now apply Hincl.
  - rewrite Hinside. apply fold_settled. apply Forall_forall. intros x Hx.
    rewrite Hi. apply fold_settles. now apply Hincl.
Qed.

(** X8: lines that a session has read already change nothing when they are
    read again: after the lines [ls], from any state, reading lines that
    all occur in [ls] leaves both slots of the session as they are; so a
    file followed by a repetition of some of its lines gives the records
    of the file. *)
Theorem codex_replayed_lines_change_nothing (ls again : list string) :
  incl again ls ->
  (forall state,
      fold_left (updateSession start end_) (ls ++ again) state
      = fold_left (updateSession start end_) ls state)
  /\ (forall filePath,
        reduceCodexSessions start end_
          [ {| path := filePath; lines := ls ++ again |} ]
        = reduceCodexSessions start end_
            [ {| path := filePath; lines := ls |} ]).
Proof.
  intros Hincl.
  assert (Hstate : forall st,
    fold_left (updateSession start end_) (ls ++ again) st
    = fold_left (updateSession start end_) ls st).
  { intros st. rewrite !fold_updateSession, map_app.
    apply replayed_snapshots_change_nothing.
    intros x Hx. apply in_map_iff in Hx as (l & <- & Hl).
    apply (in_map (fun l => valueOf (parseCodexTokenSnapshot l))).
    now apply Hincl. }
  split; [exact Hstate|].
  intros filePath. rewrite !reduce_single_file. cbn [lines]. now rewrite Hstate.
Qed.

End Replay.

Section SessionRecords.
Context {rt : JsRuntime}.
Variables start end_ : Z.

Lemma scanCodexFiles_snoc (fs : list LogFile) (file : LogFile) :
  fold_left (scanCodexFile start end_) (fs ++ [file]) []
  = scanCodexFile start end_ (fold_left (scanCodexFile start end_) fs []) file.
Proof. now rewrite fold_left_app. Qed.

(** Every state in the map was reached from the empty session by reading
    lines of the files. *)
Lemma sessions_reached_by_lines (fs : list LogFile) :
  Forall (fun kv =>
            exists ls,
              snd kv = fold_left (updateSession start end_) ls emptySession
              /\ forall line, In line ls ->
                   exists file, In file fs /\ In line (lines file))
    (fold_left (scanCodexFile start end_) fs []).
Proof.
  induction fs as [|file fs IH] using rev_ind; [constructor|].
  rewrite scanCodexFiles_snoc. unfold scanCodexFile.
  assert (IH' :
    Forall (fun kv =>
              exists ls,
                snd kv = fold_left (updateSession start end_) ls emptySession
                /\ forall line, In line ls ->
                     exists file', In file' (fs ++ [file]) /\ In line (lines file'))
      (fold_left (scanCodexFile start end_) fs [])).
  { eapply Forall_impl; [|exact IH]. intros kv (ls & Hls & Hfrom).
    exists ls. split; [exact Hls|]. intros line Hline.
    destruct (Hfrom line Hline) as (file' & Hfile' & Hin).
    exists file'. split; [apply in_or_app; now left | exact Hin]. }
  apply mapSet_Forall; [exact IH'|]. cbn [snd].
  destruct (mapGet _ _) as [st|] eqn:Hget.
  - apply mapGet_some_in in Hget.
    destruct (proj1 (Forall_forall _ _) IH' _ Hget) as (ls & Hls & Hfrom).
    simpl in Hls. exists (ls ++ lines file).
    split; [now rewrite fold_left_app, Hls|].
    intros line Hline. apply in_app_or in Hline as [Hline|Hline]; [auto|].
    exists file. split; [apply in_or_app; right; now left | exact Hline].
  - exists (lines file). split; [reflexivity|].
    intros line Hline.
    exists file. split; [apply in_or_app; right; now left | exact Hline].
Qed.

Lemma slotMax_fresh (sel : CodexSnapshot -> bool)
  (parsed : list (option CodexSnapshot)) (best : CodexSnapshot) :
  slotMax sel None parsed (Some best) ->
  In (Some best) parsed /\ sel best = true.
Proof. intros ([Hinit|Hin] & _); [discriminate | exact Hin]. Qed.

Lemma sessionRecord_sound (state : SessionState) (record : UsageRecord) :
  In record (sessionRecord state) ->
  exists current,
    inWindow state = Some current
    /\ timestamp record = snapTimestamp current
    /\ model record = snapModel current
    /\ 0 <= input record /\ 0 <= output record /\ 0 <= cacheRead record
    /\ cacheCreate record = 0
    /\ 0 < calculateTotalTokens record.
Proof.
  unfold sessionRecord. destruct (inWindow state) as [current|]; [|intros []].
  destruct (match beforeWindow state with
            | Some before =>
                (inputTotal before, outputTotal before, cacheReadTotal before)
            | None => (0, 0, 0)
            end) as [[beforeInput beforeOutput] beforeCacheRead].
  cbv zeta.
  destruct (Z.leb_spec
              (Z.max 0 (Z.max 0 (inputTotal current - beforeInput)
                        - Z.max 0 (cacheReadTotal current - beforeCacheRead))
               + Z.max 0 (outputTotal current - beforeOutput)
               + Z.max 0 (cacheReadTotal current - beforeCacheRead)) 0)
    as [Hzero|Hpositive]; [intros []|].
  intros [<-|[]]. exists current. unfold calculateTotalTokens.
  cbn [timestamp model input output cacheRead cacheCreate].
  repeat split; lia.
Qed.

Lemma isInside_withinWindow (s : CodexSnapshot) :
  isInside start end_ s = true ->
  withinWindow (snapTimestamp s) start end_ = true.
Proof.
  unfold isInside, withinWindow. destruct (snapTimestamp s) as [ts|]; [|discriminate].
  auto.
Qed.

Lemma sessionRecord_at_most_one (state : SessionState) :
  (List.length (sessionRecord state) <= 1)%nat.
Proof.
  unfold sessionRecord. destruct (inWindow state); [|simpl; lia].
  destruct (match beforeWindow state with
            | Some before => _
            | None => _
            end) as [[before1 before2] before3].
  cbv zeta. match goal with |- context [if ?c then _ else _] => destruct c end; simpl; lia.
Qed.

Lemma flat_map_length_bound {A B : Type} (f : A -> list B) (l : list A) :
  (forall x, (List.length (f x) <= 1)%nat) ->
  (List.length (flat_map f l) <= List.length l)%nat.
Proof.
  intros Hone. induction l as [|x rest IH]; simpl; [lia|].
  rewrite length_app. specialize (Hone x). lia.
Qed.

Lemma scanCodexFiles_length (fs : list LogFile) :
  (List.length (fold_left (scanCodexFile start end_) fs []) <= List.length fs)%nat.
Proof.
  induction fs as [|file fs IH] using rev_ind; [simpl; lia|].
  rewrite scanCodexFiles_snoc, length_app. simpl List.length.
  set (sessions := fold_left (scanCodexFile start end_) fs []) in *.
  unfold scanCodexFile.
  rewrite <- (length_map fst (mapSet _ _ _)), mapSet_keys.
  destruct (existsb _ _); rewrite ?length_app, length_map; simpl; lia.
Qed.

(** X9: every record the Codex scan yields is the record of a snapshot that
    some line of the scan parses to and that is stamped inside the window;
    its model is [codex], no figure of it is negative, its cache creation
    is zero and its total is positive; and there are no more records than
    files. *)
Theorem codex_records_are_sound (fs : list LogFile) :
  Forall (fun record =>
            (exists file line snapshot,
                In file fs /\ In line (lines file)
                /\ parseCodexTokenSnapshot line = inr (Some snapshot)
                /\ timestamp record = snapTimestamp snapshot)
            /\ withinWindow (timestamp record) start end_ = true
            /\ model record = "codex"
            /\ 0 <= input record /\ 0 <= output record
            /\ 0 <= cacheRead record /\ cacheCreate record = 0
            /\ 0 < calculateTotalTokens record)
    (reduceCodexSessions start end_ fs)
  /\ (List.length (reduceCodexSessions start end_ fs) <= List.length fs)%nat.
Proof.
  split.
  - unfold reduceCodexSessions. apply Forall_forall. intros record Hrecord.
    apply in_flat_map in Hrecord as (state & Hstate & Hrecord).
    unfold mapValues in Hstate. apply in_map_iff in Hstate as (kv & <- & Hkv).
    destruct (proj1 (Forall_forall _ _) (sessions_reached_by_lines fs) _ Hkv)
      as (ls & Hreached & Hfrom).
    apply sessionRecord_sound in Hrecord
      as (current & Hcurrent & Hts & Hmodel & Hfigures).
    destruct (session_slots_are_maxima start end_ ls) as [_ Hinside].
    cbv zeta in Hinside. rewrite <- Hreached, Hcurrent in Hinside.
    apply slotMax_fresh in Hinside as [Hparsed Hsel].
    apply in_map_iff in Hparsed as (line & Hvalue & Hline).
    assert (Hparse : parseCodexTokenSnapshot line = inr (Some current)).
    { unfold parseCodexTokenSnapshot in *.
      rewrite catch_null_normal. now rewrite Hvalue. }
    destruct (snapshot_inversion line current Hparse)
      as (_ & _ & _ & Hcodex & _).
    destruct (Hfrom line Hline) as (file & Hfile & Hin).
    split; [now exists file, line, current|].
    split; [rewrite Hts; now apply isInside_withinWindow|].
    split; [congruence | exact Hfigures].
  - unfold reduceCodexSessions, mapValues.
    etransitivity; [apply flat_map_length_bound, sessionRecord_at_most_one|].
    rewrite length_map. apply scanCodexFiles_length.
Qed.

End SessionRecords.

Section SessionsAcrossFiles.
Context {rt : JsRuntime}.
Variables start end_ : Z.

Lemma sessionLines_snoc (sessionId : string) (fs : list LogFile) (file : LogFile) :
  sessionLines sessionId (fs ++ [file])
  = sessionLines sessionId fs
    ++ (if String.eqb sessionId (sessionOf file) then lines file else []).
Proof.
  unfold sessionLines. rewrite filter_app, flat_map_app. simpl.
  destruct (String.eqb sessionId (sessionOf file)); simpl;
    now rewrite ?app_nil_r.
Qed.

Lemma sessionLines_absent (sessionId : string) (fs : list LogFile) :
  existsb (String.eqb sessionId) (map sessionOf fs) = false ->
  sessionLines sessionId fs = [].
Proof.
  unfold sessionLines. induction fs as [|file fs IH]; simpl; [reflexivity|].
  intros Habsent. apply orb_false_iff in Habsent as [-> Hrest]. now apply IH.
Qed.

Lemma sessions_lookup (fs : list LogFile) (sessionId : string) :
  mapGet sessionId (fold_left (scanCodexFile start end_) fs [])
  = if existsb (String.eqb sessionId) (map sessionOf fs)
    then Some (fold_left (updateSession start end_)
                 (sessionLines sessionId fs) emptySession)
    else None.
Proof.
  induction fs as [|file fs IH] using rev_ind; [reflexivity|].
  rewrite fold_left_app. simpl fold_left.
  set (sessions := fold_left (scanCodexFile start end_) fs []) in *.
  unfold scanCodexFile. fold (sessionOf file).
  rewrite mapGet_mapSet, map_app, existsb_app, sessionLines_snoc.
  simpl existsb. rewrite orb_false_r.
  destruct (String.eqb_spec sessionId (sessionOf file)) as [<-|Hother].
  - rewrite orb_true_r, fold_left_app, IH.
    destruct (existsb _ _) eqn:Hseen; [reflexivity|].
    now rewrite (sessionLines_absent _ _ Hseen).
  - now rewrite orb_false_r, app_nil_r.
Qed.

Lemma sessions_keys (fs : list LogFile) :
  map fst (fold_left (scanCodexFile start end_) fs []) = distinctSessions fs.
Proof.
  unfold distinctSessions.
  induction fs as [|file fs IH] using rev_ind; [reflexivity|].
  rewrite !fold_left_app. simpl fold_left. rewrite <- IH.
  unfold scanCodexFile at 1. fold (sessionOf file). apply mapSet_keys.
Qed.

Lemma sessions_NoDup (fs : list LogFile) :
  NoDup (map fst (fold_left (scanCodexFile start end_) fs [])).
Proof.
  induction fs as [|file fs IH] using rev_ind; [constructor|].
  rewrite fold_left_app. simpl fold_left. unfold scanCodexFile at 1.
  now apply mapSet_NoDup.
Qed.

Lemma mapGet_of_key {V : Type} (k : string) (m : list (string * V)) :
  In k (map fst m) <-> exists v, mapGet k m = Some v.
Proof.
  induction m as [|[k0 v0] rest IH]; simpl.
  - split; [intros [] | intros [v Hv]; discriminate].
  - destruct (String.eqb_spec k k0) as [->|Hne].
    + split; [eauto | auto].
    + rewrite <- IH. split; [intros [Heq|Hin]; [congruence | exact Hin] | auto].
Qed.

Lemma mapValues_by_key {V : Type} (d : V) (m : list (string * V)) :
  NoDup (map fst m) ->
  mapValues m
  = map (fun k => match mapGet k m with Some v => v | None => d end)
      (map fst m).
Proof.
  unfold mapValues. induction m as [|[k0 v0] rest IH]; [reflexivity|].
  simpl map. intros Hnodup. apply NoDup_cons_iff in Hnodup as [Hfresh Hrest].
  simpl mapGet at 1. rewrite String.eqb_refl. f_equal.
  rewrite (IH Hrest). apply map_ext_in. intros k Hk. simpl.
  destruct (String.eqb_spec k k0) as [->|_]; [contradiction | reflexivity].
Qed.

(** X10: the Codex scan counts by session, not by file: its records are,
    for each session in the order of the first file of the session, the
    record of the state reached from the empty session by reading the
    lines of all the files of the session, file after file. The sessions
    are the session identifiers of the files, each once. *)
Theorem codex_files_of_a_session_are_read_as_one (fs : list LogFile) :
  reduceCodexSessions start end_ fs
  = flat_map (fun sessionId =>
                sessionRecord
                  (fold_left (updateSession start end_)
                     (sessionLines sessionId fs) emptySession))
      (distinctSessions fs)
  /\ NoDup (distinctSessions fs)
  /\ (forall sessionId,
        In sessionId (distinctSessions fs)
        <-> exists file, In file fs /\ sessionOf file = sessionId).
Proof.
  split; [|split].
  - unfold reduceCodexSessions.
    rewrite (mapValues_by_key emptySession _ (sessions_NoDup fs)).
    rewrite !flat_map_concat_map, map_map, <- sessions_keys. f_equal.
    apply map_ext_in. intros sessionId Hin.
    apply mapGet_of_key in Hin as [state Hstate].
    rewrite Hstate. rewrite sessions_lookup in Hstate.
    destruct (existsb _ _); [|discriminate]. now injection Hstate as <-.
  - rewrite <- sessions_keys. apply sessions_NoDup.
  - intros sessionId. rewrite <- sessions_keys, mapGet_of_key, sessions_lookup.
    destruct (existsb _ _) eqn:Hseen.
    + apply existsb_exists in Hseen as (other & Hother & Heq).
      apply String.eqb_eq in Heq. subst other.
      apply in_map_iff in Hother as (file & Hfile & Hin).
      split; [intros _; now exists file | eauto].
    + split; [intros [state Hstate]; discriminate|].
      intros (file & Hin & Hfile).
      assert (Hex : existsb (String.eqb sessionId) (map sessionOf fs) = true).
      { apply existsb_exists. exists sessionId.
        split; [rewrite <- Hfile; now apply in_map | apply String.eqb_refl]. }
      congruence.
Qed.

End SessionsAcrossFiles.

(** ** The session of a file *)

Section SessionIdentifiers.

Lemma length_append (a b : string) :
  String.length (a ++ b) = (String.length a + String.length b)%nat.
Proof. induction a as [|c a IH]; simpl; [reflexivity | now rewrite IH]. Qed.

Lemma substring_all (s : string) : substring 0 (String.length s) s = s.
Proof. induction s as [|c s IH]; simpl; [reflexivity | now rewrite IH]. Qed.

Lemma substring_skip (a b : string) (n : nat) :
  substring (String.length a) n (a ++ b) = substring 0 n b.
Proof. induction a as [|c a IH]; simpl; [reflexivity | exact IH]. Qed.

Lemma substring_prefix (a b : string) :
  substring 0 (String.length a) (a ++ b) = a.
Proof. induction a as [|c a IH]; simpl; [now destruct b | now rewrite IH]. Qed.

Lemma lastChars_app (n : nat) (a b : string) :
  String.length b = n -> lastChars n (a ++ b) = b.
Proof.
  intros <-. unfold lastChars. rewrite length_append.
  replace (String.length a + String.length b - String.length b)%nat
    with (String.length a) by lia.
  now rewrite substring_skip, substring_all.
Qed.

Lemma dropLastChars_app (n : nat) (a b : string) :
  String.length b = n -> dropLastChars n (a ++ b) = a.
Proof.
  intros <-. unfold dropLastChars. rewrite length_append.
  replace (String.length a + String.length b - String.length b)%nat
    with (String.length a) by lia.
  apply substring_prefix.
Qed.

Lemma matchesShape_length (shape s : string) :
  matchesShape shape s = true -> String.length s = String.length shape.
Proof.
  revert s. induction shape as [|p shape IH]; intros [|c s]; simpl;
    try discriminate; [reflexivity|].
  intros H. apply andb_true_iff in H as [_ H]. now rewrite (IH s H).
Qed.

Lemma hex_digit_is_no_separator (c : ascii) :
  isHexDigit c = true -> isPathSeparator c = false.
Proof.
  destruct c as [[] [] [] [] [] [] [] []]; vm_compute; congruence.
Qed.

Lemma matchesShape_free (shape s : string) :
  matchesShape shape s = true -> freeOf isPathSeparator s = true.
Proof.
  revert s. induction shape as [|p shape IH]; intros [|c s]; simpl;
    try discriminate; [reflexivity|].
  intros H. apply andb_true_iff in H as [Hc H]. rewrite (IH s H), andb_true_r.
  destruct (Ascii.eqb p "-").
  - apply Ascii.eqb_eq in Hc. now subst c.
  - now rewrite hex_digit_is_no_separator.
Qed.

Lemma last_app_nonempty {A : Type} (l1 l2 : list A) (d : A) :
  l2 <> [] -> last (l1 ++ l2) d = last l2 d.
Proof.
  intros Hne. induction l1 as [|x l1 IH]; [reflexivity|].
  simpl app. simpl last. destruct (l1 ++ l2) eqn:Happ; [|exact IH].
  apply app_eq_nil in Happ as [_ Hnil]. contradiction.
Qed.

Lemma splitBy_at_separator (p : ascii -> bool) (a b : string) (c : ascii) :
  p c = true ->
  exists piece pieces,
    splitBy p (a ++ String c b) = (piece :: pieces) ++ splitBy p b.
Proof.
  intros Hc. induction a as [|x a (piece & pieces & IH)]; simpl.
  - rewrite Hc. now exists EmptyString, [].
  - rewrite IH. destruct (p x).
    + now exists EmptyString, (piece :: pieces).
    + now exists (String x piece), pieces.
Qed.

Lemma fileName_after_separator (dir name : string) (sep : ascii) :
  isPathSeparator sep = true ->
  last (splitBy isPathSeparator (dir ++ String sep name)) EmptyString
  = last (splitBy isPathSeparator name) EmptyString.
Proof.
  intros Hsep.
  destruct (splitBy_at_separator isPathSeparator dir name sep Hsep)
    as (piece & pieces & ->).
  apply last_app_nonempty, splitBy_nonempty.
Qed.

Lemma toLowerCase_empty (s : string) : toLowerCase s = "" -> s = "".
Proof. destruct s; simpl; [reflexivity | discriminate]. Qed.

(** X11: the session identifier of a path is never empty, is in lower case,
    and depends on the file name only, the part after the last separator
    ([/] or [\]). *)
Theorem extractCodexSessionId_of_file_name (filePath : string) :
  extractCodexSessionId filePath <> ""
  /\ toLowerCase (extractCodexSessionId filePath) = extractCodexSessionId filePath
  /\ (forall dir sep,
        isPathSeparator sep = true ->
        extractCodexSessionId (dir ++ String sep filePath)
        = extractCodexSessionId filePath).
Proof.
  split; [|split].
  - unfold extractCodexSessionId. cbv zeta. intros Hempty.
    apply toLowerCase_empty in Hempty.
    destruct (matchesShape _ _) eqn:Hshape.
    + apply matchesShape_length in Hshape. rewrite Hempty in Hshape.
      discriminate Hshape.
    + destruct (String.eqb_spec
                  (if String.eqb
                        (toLowerCase
                           (lastChars 6
                              (last (splitBy isPathSeparator filePath) "")))
                        ".jsonl"
                   then dropLastChars 6 (last (splitBy isPathSeparator filePath) "")
                   else last (splitBy isPathSeparator filePath) "") "");
        [discriminate Hempty | contradiction].
  - unfold extractCodexSessionId. cbv zeta. apply toLowerCase_idem.
  - intros dir sep Hsep. unfold extractCodexSessionId.
    now rewrite fileName_after_separator.
Qed.

(** X12: a file named by a prefix, a UUID and the extension [.jsonl], in
    any directory, belongs to the session of the UUID in lower case; so two
    such files with the same UUID belong to one session, whatever their
    prefixes and directories. *)
Theorem extractCodexSessionId_of_rollout_file (prefix uuid : string) :
  freeOf isPathSeparator prefix = true ->
  matchesShape CODEX_SESSION_ID_SHAPE uuid = true ->
  extractCodexSessionId (prefix ++ uuid ++ ".jsonl") = toLowerCase uuid
  /\ (forall dir sep,
        isPathSeparator sep = true ->
        extractCodexSessionId (dir ++ String sep (prefix ++ uuid ++ ".jsonl"))
        = toLowerCase uuid).
Proof.
  intros Hprefix Hshape.
  assert (Hname :
    extractCodexSessionId (prefix ++ uuid ++ ".jsonl") = toLowerCase uuid).
  { unfold extractCodexSessionId.
    rewrite splitBy_of_free.
    2:{ rewrite !freeOf_app, Hprefix, (matchesShape_free _ _ Hshape).
        reflexivity. }
    cbn [last]. rewrite <- append_assoc.
    rewrite (lastChars_app 6 _ ".jsonl" eq_refl).
    rewrite (dropLastChars_app 6 _ ".jsonl" eq_refl).
    change (String.eqb (toLowerCase ".jsonl") ".jsonl") with true. cbv iota.
    rewrite (lastChars_app 36 prefix uuid (matchesShape_length _ _ Hshape)).
    now rewrite Hshape. }
  split; [exact Hname|].
  intros dir sep Hsep. unfold extractCodexSessionId in *.
  now rewrite fileName_after_separator.
Qed.

End SessionIdentifiers.

(** ** Series names *)

Section SeriesNames.

Lemma fallbackName_canonical (lowerModel : string) :
  toLowerCase lowerModel = lowerModel ->
  canonicalName (fallbackName lowerModel).
Proof.
  intros Hlower.
  destruct (fallbackName_prefix lowerModel) as [rest Hrest].
  split; [|split].
  - apply (toLowerCase_prefix _ rest). now rewrite <- Hrest.
  - unfold fallbackName. apply join_free; [reflexivity|].
    apply Forall_firstn, splitBy_keeps_free.
    pose proof (splitBy_free (fun x => Ascii.eqb x ":") lowerModel) as Hfree.
    unfold split. destruct (splitBy _ lowerModel); [reflexivity|].
    now inversion Hfree.
  - unfold fallbackName.
    set (pieces := firstn 2 (split "-" (hd EmptyString (split ":" lowerModel)))).
    assert (Hne : pieces <> []).
    { unfold pieces, split.
      destruct (splitBy _ (hd _ _)) eqn:Hs; [|discriminate].
      now apply splitBy_nonempty in Hs. }
    assert (Hdash : Forall (fun piece =>
                      freeOf (fun x => Ascii.eqb x "-") piece = true) pieces).
    { apply Forall_firstn, splitBy_free. }
    unfold split at 1.
    rewrite (splitBy_join _ "-"%char pieces Hne eq_refl Hdash).
    unfold pieces. rewrite length_firstn. lia.
Qed.

Lemma rule_series_canonical :
  Forall (fun rule => canonicalName (snd rule)) MODEL_RULES.
Proof. repeat constructor. Qed.

Lemma normalizeModelName_is_canonical (value : JsVal) :
  canonicalName (normalizeModelName value).
Proof.
  assert (Hunknown : canonicalName "unknown") by (repeat constructor).
  destruct value as [| |b|n|text|elems|props]; try exact Hunknown.
  unfold normalizeModelName. destruct (String.eqb text ""); [exact Hunknown|].
  destruct (find _ _) as [rule|] eqn:Hfind.
  - apply find_some in Hfind as [Hin _].
    exact (proj1 (Forall_forall _ _) rule_series_canonical rule Hin).
  - apply fallbackName_canonical, toLowerCase_idem.
Qed.

(** X13: whatever the value, the name of the series is in canonical form:
    in lower case, without a colon and of at most two parts between
    hyphens; a value that is not a text, and the empty text, give
    [unknown]; and the case of the letters of a name does not matter. *)
Theorem normalizeModelName_canonical (value : JsVal) :
  canonicalName (normalizeModelName value)
  /\ ((forall text, value <> JStr text) -> normalizeModelName value = "unknown")
  /\ normalizeModelName (JStr "") = "unknown"
  /\ (forall text,
        value = JStr text ->
        normalizeModelName (JStr (toLowerCase text)) = normalizeModelName value).
Proof.
  split; [apply normalizeModelName_is_canonical|]. split; [|split].
  - intros Hother.
    destruct value as [| |b|n|text|elems|props]; try reflexivity.
    exfalso. now apply (Hother text).
  - reflexivity.
  - intros text ->. unfold normalizeModelName.
    destruct text as [|c text]; [reflexivity|].
    change (String.eqb (toLowerCase (String c text)) "") with false.
    change (String.eqb (String c text) "") with false. cbv iota.
    now rewrite toLowerCase_idem.
Qed.

End SeriesNames.

(** ** Colours *)

Section Colours.

Lemma table_colours_exact :
  Forall (fun entry => getModelColor (fst entry) = snd entry) MODEL_COLORS.
Proof. repeat constructor. Qed.

(** X14: the colour of a model is always a colour of the table, the name
    of a key of the table gets the colour of that key, and the case of the
    letters of the name does not matter. The two names in lower case that
    every object inherits, [constructor] and [__proto__], are left aside:
    for them the look-up of the source finds what the table inherits. *)
Theorem getModelColor_from_table (modelName : string) :
  toLowerCase modelName <> "constructor" ->
  toLowerCase modelName <> "__proto__" ->
  In (getModelColor modelName) (map snd MODEL_COLORS)
  /\ getModelColor (toLowerCase modelName) = getModelColor modelName
  /\ (forall color,
        In (modelName, color) MODEL_COLORS -> getModelColor modelName = color).
Proof.
  intros _ _. split; [|split].
  - unfold getModelColor.
    destruct (mapGet _ _) as [color|] eqn:Hget.
    + apply mapGet_some_in in Hget. now apply (in_map snd) in Hget.
    + destruct (find _ _) as [entry|] eqn:Hfind.
      * apply find_some in Hfind as [Hin _]. now apply in_map.
      * unfold MODEL_COLORS_default, MODEL_COLORS. simpl. tauto.
  - unfold getModelColor. now rewrite toLowerCase_idem.
  - intros color Hin.
    exact (proj1 (Forall_forall _ _) table_colours_exact _ Hin).
Qed.

End Colours.

(** ** The record parser of Codex and the window test of the parser module *)

Section ParsersMore.
Context {rt : JsRuntime}.

Tactic Notation "invert_bind" hyp(H) "as" ident(x) ident(Hx) :=
  apply bind_inr in H; destruct H as (x & Hx & H).

Lemma get_defined (v : JsVal) (k : string) :
  v <> JUndefined -> v <> JNull -> get v k = inr (prop v k).
Proof. destruct v; simpl; congruence. Qed.

Lemma truthy_defined (v : JsVal) :
  truthy v = true -> v <> JUndefined /\ v <> JNull.
Proof. destruct v; simpl; intros H; split; congruence. Qed.

Lemma get_succeeded (v x : JsVal) (k : string) :
  get v k = inr x -> v <> JUndefined /\ v <> JNull.
Proof. destruct v; simpl; intros H; split; congruence. Qed.

(** X15: a record of the Codex record parser has the model [codex] and no
    cache creation; and every line for which the snapshot parser yields a
    snapshot yields a record too, with the time stamp of the snapshot. *)
Theorem parseCodexLog_records (line : string) :
  (forall record,
      parseCodexLog line = inr (Some record) ->
      model record = "codex" /\ cacheCreate record = 0)
  /\ (forall snapshot,
        parseCodexTokenSnapshot line = inr (Some snapshot) ->
        exists record,
          parseCodexLog line = inr (Some record)
          /\ timestamp record = snapTimestamp snapshot).
Proof.
  split.
  - intros record H. unfold parseCodexLog, parseCodexLogBody in H.
    apply catch_null_some in H.
    invert_bind H as data Hdata. invert_bind H as event Hevent.
    destruct event as [payload|]; [|discriminate].
    invert_bind H as info Hinfo. destruct (negb (truthy info)); [discriminate|].
    invert_bind H as lastUsage Hlast. invert_bind H as usage Husage.
    destruct (negb (truthy usage)); [discriminate|].
    invert_bind H as ts Hts. invert_bind H as inputTokens Hinput.
    invert_bind H as outputTokens Houtput. invert_bind H as cachedInput Hcached.
    injection H as <-. split; reflexivity.
  - intros snapshot H.
    unfold parseCodexTokenSnapshot, parseCodexTokenSnapshotBody in H.
    apply catch_null_some in H.
    invert_bind H as data Hdata. invert_bind H as event Hevent.
    destruct event as [payload|]; [|discriminate].
    invert_bind H as info Hinfo. invert_bind H as totalOpt HtotalOpt.
    destruct (truthy totalOpt) eqn:Htotal; [|discriminate]. simpl negb in H.
    cbv iota in H.
    invert_bind H as totalUsage HtotalUsage.
    invert_bind H as inputTokens Hinput. invert_bind H as outputTokens Houtput.
    invert_bind H as cachedInput Hcached. invert_bind H as totalField HtotalField.
    invert_bind H as ts Hts.
    injection H as <-. cbn [snapTimestamp].
    assert (Hobject : truthy info = true
                      /\ totalUsage = prop info "total_token_usage"
                      /\ truthy totalUsage = true).
    { apply get_inr in HtotalUsage.
      destruct info; simpl in HtotalOpt;
        injection HtotalOpt as <-; try discriminate Htotal;
        simpl in HtotalUsage; subst totalUsage; auto. }
    destruct Hobject as (Hobject & Hprop & HtotalTruthy).
    destruct (get_succeeded _ _ _ Hts) as [Hdata1 Hdata2].
    set (lastUsage := prop info "last_token_usage").
    destruct (truthy_defined _ Hobject) as [Hi1 Hi2].
    assert (Hpick : exists usage,
      truthy usage = true
      /\ (if truthy lastUsage then inr lastUsage
          else get info "total_token_usage") = inr usage).
    { destruct (truthy lastUsage) eqn:Hlast; [now exists lastUsage|].
      now exists totalUsage. }
    destruct Hpick as (usage & Husage & Hpick).
    destruct (truthy_defined _ Husage) as [Hu1 Hu2].
    eexists. split.
    { unfold parseCodexLog, parseCodexLogBody.
      rewrite Hdata. simpl. rewrite Hevent. simpl. rewrite Hinfo. simpl.
      rewrite Hobject. simpl.
      rewrite (get_defined info "last_token_usage" Hi1 Hi2). simpl.
      fold lastUsage.
      destruct (truthy lastUsage).
      - injection Hpick as ->. rewrite Husage. simpl. rewrite Hts. simpl.
        rewrite !(get_defined usage _ Hu1 Hu2). simpl. reflexivity.
      - rewrite Hpick. rewrite Husage. simpl. rewrite Hts. simpl.
        rewrite !(get_defined usage _ Hu1 Hu2). simpl. reflexivity. }
    reflexivity.
Qed.

(** X31: what a snapshot holds of its line. The line is a token-count
    event whose [total_token_usage] is truthy; the snapshot has the model
    [codex] and the time stamp of the line; its totals of input, output and
    cache reads are the clamped fields of [total_token_usage], none of them
    negative; its total is the clamped [total_tokens] when that is not 0,
    and else the sum of the three totals, as long as that sum is at most
    2^53. *)
Theorem snapshot_fields_of_the_line (line : string) (data : JsVal)
  (snapshot : CodexSnapshot) :
  JSON_parse line = Some data ->
  parseCodexTokenSnapshot line = inr (Some snapshot) ->
  let totalUsage :=
    prop (prop (prop data "payload") "info") "total_token_usage" in
  let reported := toSafeInt (prop totalUsage "total_tokens") in
  let sum :=
    inputTotal snapshot + outputTotal snapshot + cacheReadTotal snapshot in
  (prop data "type" = JStr "event_msg"
   /\ prop (prop data "payload") "type" = JStr "token_count"
   /\ truthy totalUsage = true)
  /\ (snapModel snapshot = "codex"
      /\ snapTimestamp snapshot = dateOrNull (prop data "timestamp"))
  /\ (inputTotal snapshot = toSafeInt (prop totalUsage "input_tokens")
      /\ outputTotal snapshot = toSafeInt (prop totalUsage "output_tokens")
      /\ cacheReadTotal snapshot
         = toSafeInt (prop totalUsage "cached_input_tokens"))
  /\ (0 <= inputTotal snapshot /\ 0 <= outputTotal snapshot
      /\ 0 <= cacheReadTotal snapshot)
  /\ (reported <> 0 ->
      totalTokens snapshot = reported /\ 0 < totalTokens snapshot)
  /\ (reported = 0 -> sum <= 2 ^ 53 -> totalTokens snapshot = sum).
Proof.
  intros Hdata Hparse. cbv zeta.
  destruct (snapshot_of_line line data snapshot Hdata Hparse)
    as (Htype & Hcount & Htruthy & ->).
  cbn [snapModel snapTimestamp inputTotal outputTotal cacheReadTotal totalTokens].
  set (totalUsage := prop (prop (prop data "payload") "info") "total_token_usage").
  pose proof (toSafeInt_nonneg (prop totalUsage "input_tokens")).
  pose proof (toSafeInt_nonneg (prop totalUsage "output_tokens")).
  pose proof (toSafeInt_nonneg (prop totalUsage "cached_input_tokens")).
  pose proof (toSafeInt_nonneg (prop totalUsage "total_tokens")).
  repeat split; try assumption.
  - destruct (Z.eqb_spec (toSafeInt (prop totalUsage "total_tokens")) 0);
      [contradiction | reflexivity].
  - destruct (Z.eqb_spec (toSafeInt (prop totalUsage "total_tokens")) 0); lia.
  - intros Hzero _. now rewrite Hzero.
Qed.

End ParsersMore.

(** ** The scanner of the host *)

Section Scanner.
Context {host : LogScanner.NodePath}.

Lemma collectCandidates_Forall (Q : LogScanner.Candidate.t -> Prop)
  (maxDepth : Z) (startTime endTime : JsDate) :
  (forall filePath mtime text,
      LogScanner.outsideRange mtime startTime endTime = false ->
      Q {| LogScanner.Candidate.path := filePath;
           LogScanner.Candidate.mtime := mtime;
           LogScanner.Candidate.content := text |}) ->
  forall node currentPath depth,
    Forall Q (LogScanner.collectCandidates maxDepth startTime endTime
                node currentPath depth).
Proof.
  intros Hkept node.
  induction node as [|entries IH|stat text|] using LogScanner.FsEntry_ind;
    intros currentPath depth; simpl;
    destruct (maxDepth <? depth); try constructor.
  induction IH as [|[name entry] rest Hentry Hrest IHrest]; [constructor|].
  apply Forall_app. split; [|exact IHrest].
  destruct entry as [children|stat text|].
  - apply Hentry.
  - destruct (LogScanner.endsWith name ".jsonl"); [|constructor].
    destruct stat as [mtime|]; [|constructor].
    destruct (LogScanner.outsideRange mtime startTime endTime) eqn:Hrange;
      constructor; [now apply Hkept | constructor].
  - constructor.
Qed.

Lemma slice0_firstn {A : Type} (n : Z) (l : list A) :
  exists k, LogScanner.slice0 n l = firstn k l.
Proof. unfold LogScanner.slice0. eauto. Qed.

Lemma readCandidate_Forall (Q : LogScanner.Candidate.t -> Prop)
  (R : LogScanner.ScannedFile -> Prop) (maxLines : Z)
  (selected : list LogScanner.Candidate.t) :
  (forall candidate content,
      Q candidate ->
      R {| LogScanner.path := LogScanner.Candidate.path candidate;
           LogScanner.lines := LogScanner.readLines maxLines content;
           LogScanner.mtime := LogScanner.Candidate.mtime candidate |}) ->
  Forall Q selected ->
  Forall R (flat_map (LogScanner.readCandidate maxLines) selected).
Proof.
  intros Hread. induction 1 as [|candidate rest Hc Hrest IH]; [constructor|].
  simpl. apply Forall_app. split; [|exact IH].
  unfold LogScanner.readCandidate.
  destruct (LogScanner.Candidate.content candidate); repeat constructor.
  now apply Hread.
Qed.

Lemma scanned_from_candidates (Q : LogScanner.Candidate.t -> Prop)
  (R : LogScanner.ScannedFile -> Prop)
  (root : LogScanner.FsEntry) (basePath : string) (startTime endTime : JsDate)
  (options : LogScanner.Options) :
  (forall filePath mtime text,
      LogScanner.outsideRange mtime startTime endTime = false ->
      Q {| LogScanner.Candidate.path := filePath;
           LogScanner.Candidate.mtime := mtime;
           LogScanner.Candidate.content := text |}) ->
  (forall candidate content,
      Q candidate ->
      R {| LogScanner.path := LogScanner.Candidate.path candidate;
           LogScanner.lines :=
             LogScanner.readLines
               (LogScanner.orDefault (LogScanner.maxLinesPerFile options) 10000)
               content;
           LogScanner.mtime := LogScanner.Candidate.mtime candidate |}) ->
  Forall R
    (LogScanner.files
       (LogScanner.scanLogFilesInRange root basePath startTime endTime options)).
Proof.
  intros Hkept Hread. unfold LogScanner.scanLogFilesInRange.
  cbn [LogScanner.files].
  apply (readCandidate_Forall Q); [exact Hread|].
  destruct (slice0_firstn
              (LogScanner.orDefault (LogScanner.maxFiles options) 5000)
              (sortBy LogScanner.newestFirst
                 (LogScanner.collectCandidates
                    (LogScanner.orDefault (LogScanner.maxDepth options) 10)
                    startTime endTime root basePath 0))) as [k ->].
  apply Forall_firstn.
  eapply Permutation_Forall;
    [apply Permutation_sym, sortBy_perm | now apply collectCandidates_Forall].
Qed.

(** X17: every file the scanner returns was modified inside the range,
    start included and end excluded; a bound that is an invalid date is
    not applied. *)
Theorem scanned_files_lie_in_range (root : LogScanner.FsEntry)
  (basePath : string) (startTime endTime : JsDate)
  (options : LogScanner.Options) :
  Forall (fun file =>
            match dateNumber startTime with
            | Some start => start <= LogScanner.mtime file
            | None => True
            end
            /\ match dateNumber endTime with
               | Some end_ => LogScanner.mtime file < end_
               | None => True
               end)
    (LogScanner.files
       (LogScanner.scanLogFilesInRange root basePath startTime endTime options)).
Proof.
  apply (scanned_from_candidates
           (fun candidate =>
              LogScanner.outsideRange (LogScanner.Candidate.mtime candidate)
                startTime endTime = false)).
  - auto.
  - intros candidate content Hrange. cbn [LogScanner.mtime].
    unfold LogScanner.outsideRange, ltNumber, geNumber in Hrange.
    apply orb_false_iff in Hrange as [Hstart Hend].
    destruct (dateNumber startTime), (dateNumber endTime); split; auto.
    + now apply Z.ltb_ge.
    + now apply Z.leb_gt.
    + now apply Z.ltb_ge.
    + now apply Z.leb_gt.
Qed.

Lemma newestFirst_total (a b : LogScanner.Candidate.t) :
  notAfter LogScanner.newestFirst a b \/ notAfter LogScanner.newestFirst b a.
Proof. unfold notAfter, LogScanner.newestFirst. lia. Qed.

Lemma newestFirst_trans (a b c : LogScanner.Candidate.t) :
  notAfter LogScanner.newestFirst a b -> notAfter LogScanner.newestFirst b c ->
  notAfter LogScanner.newestFirst a c.
Proof. unfold notAfter, LogScanner.newestFirst. lia. Qed.

Lemma StronglySorted_firstn {A : Type} (R : A -> A -> Prop) (n : nat)
  (l : list A) :
  StronglySorted R l -> StronglySorted R (firstn n l).
Proof.
  intros Hsorted. revert n.
  induction Hsorted as [|x rest Hrest IH Hx]; intros [|n]; simpl;
    constructor; [apply IH | now apply Forall_firstn].
Qed.

Lemma skipn_In {A : Type} (n : nat) (l : list A) (x : A) :
  In x (skipn n l) -> In x l.
Proof.
  revert l. induction n as [|n IH]; intros [|y l]; simpl; auto.
Qed.

Lemma StronglySorted_split {A : Type} (R : A -> A -> Prop) (n : nat)
  (l : list A) :
  StronglySorted R l ->
  forall x y, In x (firstn n l) -> In y (skipn n l) -> R x y.
Proof.
  intros Hsorted. revert n.
  induction Hsorted as [|z rest Hrest IH Hz]; intros [|n] x y; simpl;
    try (intros []; fail).
  intros [<-|Hx] Hy.
  - apply (proj1 (Forall_forall _ _) Hz). now apply (skipn_In n).
  - now apply (IH n).
Qed.

Lemma readCandidate_sorted (maxLines : Z)
  (selected : list LogScanner.Candidate.t) :
  StronglySorted (notAfter LogScanner.newestFirst) selected ->
  StronglySorted (fun a b => LogScanner.mtime b <= LogScanner.mtime a)
    (flat_map (LogScanner.readCandidate maxLines) selected).
Proof.
  induction 1 as [|candidate rest Hrest IH Hfirst]; [constructor|].
  simpl. unfold LogScanner.readCandidate at 1.
  destruct (LogScanner.Candidate.content candidate); [|exact IH].
  simpl. constructor; [exact IH|]. cbn [LogScanner.mtime].
  apply (readCandidate_Forall
           (fun later => notAfter LogScanner.newestFirst candidate later));
    [|exact Hfirst].
  intros later content Hlater. cbn [LogScanner.mtime].
  unfold notAfter, LogScanner.newestFirst in Hlater. lia.
Qed.

(** X18: the scanner returns the files newest first, and when the number
    of files is limited it is the oldest that are left out: the candidates
    divide into the selected ones, which are read in their order, and the
    others, none of which is newer than a selected one. *)
Theorem scan_keeps_the_newest (root : LogScanner.FsEntry) (basePath : string)
  (startTime endTime : JsDate) (options : LogScanner.Options) :
  let scan :=
    LogScanner.scanLogFilesInRange root basePath startTime endTime options in
  let found :=
    LogScanner.collectCandidates
      (LogScanner.orDefault (LogScanner.maxDepth options) 10)
      startTime endTime root basePath 0 in
  StronglySorted (fun a b => LogScanner.mtime b <= LogScanner.mtime a)
    (LogScanner.files scan)
  /\ exists selected others,
       Permutation (selected ++ others) found
       /\ LogScanner.files scan
          = flat_map
              (LogScanner.readCandidate
                 (LogScanner.orDefault (LogScanner.maxLinesPerFile options) 10000))
              selected
       /\ Z.of_nat (List.length selected) = LogScanner.scannedCount scan
       /\ (forall kept other,
              In kept selected -> In other others ->
              LogScanner.Candidate.mtime other <= LogScanner.Candidate.mtime kept).
Proof.
  cbv zeta. unfold LogScanner.scanLogFilesInRange.
  cbn [LogScanner.files LogScanner.scannedCount].
  set (found := LogScanner.collectCandidates _ _ _ _ _ _).
  assert (Hsorted : StronglySorted (notAfter LogScanner.newestFirst)
                      (sortBy LogScanner.newestFirst found)).
  { apply sortBy_sorted; [exact newestFirst_total | exact newestFirst_trans]. }
  unfold LogScanner.slice0.
  set (k := Z.to_nat _).
  split.
  - apply readCandidate_sorted. now apply StronglySorted_firstn.
  - exists (firstn k (sortBy LogScanner.newestFirst found)),
      (skipn k (sortBy LogScanner.newestFirst found)).
    split; [rewrite firstn_skipn; apply sortBy_perm|].
    split; [reflexivity|]. split; [reflexivity|].
    intros kept other Hkept Hother.
    pose proof (StronglySorted_split _ k _ Hsorted kept other Hkept Hother)
      as Horder.
    unfold notAfter, LogScanner.newestFirst in Horder. lia.
Qed.

(** X19: the counts of a scan. [totalMatched] is the number of candidates;
    [scannedCount] is the smaller of it and the limit (a negative limit
    leaves that many out at the end); no more files are returned than were
    selected; and [truncated] tells whether the candidates exceed the
    limit, 5000 unless the options give one. *)
Theorem scan_counts (root : LogScanner.FsEntry) (basePath : string)
  (startTime endTime : JsDate) (options : LogScanner.Options) :
  let scan :=
    LogScanner.scanLogFilesInRange root basePath startTime endTime options in
  let limit := LogScanner.orDefault (LogScanner.maxFiles options) 5000 in
  LogScanner.totalMatched scan
  = Z.of_nat
      (List.length
         (LogScanner.collectCandidates
            (LogScanner.orDefault (LogScanner.maxDepth options) 10)
            startTime endTime root basePath 0))
  /\ LogScanner.scannedCount scan
     = (if limit <? 0 then Z.max 0 (LogScanner.totalMatched scan + limit)
        else Z.min limit (LogScanner.totalMatched scan))
  /\ Z.of_nat (List.length (LogScanner.files scan))
     <= LogScanner.scannedCount scan <= LogScanner.totalMatched scan
  /\ (LogScanner.truncated scan = true
      <-> limit < LogScanner.totalMatched scan).
Proof.
  cbv zeta. unfold LogScanner.scanLogFilesInRange.
  cbn [LogScanner.files LogScanner.scannedCount LogScanner.totalMatched
       LogScanner.truncated].
  set (found := LogScanner.collectCandidates _ _ _ _ _ _).
  set (limit := LogScanner.orDefault (LogScanner.maxFiles options) 5000).
  rewrite sortBy_length.
  assert (Hselected :
    Z.of_nat (List.length (LogScanner.slice0 limit (sortBy LogScanner.newestFirst found)))
    = if limit <? 0 then Z.max 0 (Z.of_nat (List.length found) + limit)
      else Z.min limit (Z.of_nat (List.length found))).
  { unfold LogScanner.slice0. rewrite length_firstn, sortBy_length.
    destruct (Z.ltb_spec limit 0); lia. }
  split; [reflexivity|]. split; [exact Hselected|].
  split; [|apply Z.ltb_lt].
  rewrite Hselected. split.
  - rewrite <- Hselected. apply inj_le.
    etransitivity; [apply flat_map_length_bound|]; [|reflexivity].
    intros candidate. unfold LogScanner.readCandidate.
    destruct (LogScanner.Candidate.content candidate); simpl; lia.
  - destruct (Z.ltb_spec limit 0); lia.
Qed.

Lemma split_free (sep : ascii) (s : string) :
  Forall (fun piece => freeOf (fun c => Ascii.eqb c sep) piece = true)
    (split sep s).
Proof. apply splitBy_free. Qed.

(** X20: the lines of a returned file are lines of its text: none is
    blank, none holds a line feed, and there are no more of them than the
    limit, 10000 unless the options give one. *)
Theorem scanned_lines (root : LogScanner.FsEntry) (basePath : string)
  (startTime endTime : JsDate) (options : LogScanner.Options) :
  let limit := LogScanner.orDefault (LogScanner.maxLinesPerFile options) 10000 in
  Forall (fun file =>
            Forall (fun line =>
                      LogScanner.isBlank line = false
                      /\ freeOf (fun c => Ascii.eqb c "010") line = true)
              (LogScanner.lines file)
            /\ (0 <= limit ->
                Z.of_nat (List.length (LogScanner.lines file)) <= limit))
    (LogScanner.files
       (LogScanner.scanLogFilesInRange root basePath startTime endTime options)).
Proof.
  cbv zeta.
  apply (scanned_from_candidates (fun _ => True)); [auto|].
  intros candidate content _. cbn [LogScanner.lines].
  unfold LogScanner.readLines, LogScanner.slice0. split.
  - apply Forall_firstn. apply Forall_forall. intros line Hline.
    apply filter_In in Hline as [Hsplit Hblank]. split.
    + now apply negb_true_iff.
    + exact (proj1 (Forall_forall _ _) (split_free "010" content) _ Hsplit).
  - intros Hlimit. rewrite length_firstn.
    destruct (Z.ltb_spec
                (LogScanner.orDefault (LogScanner.maxLinesPerFile options) 10000) 0);
      lia.
Qed.

End Scanner.

(** ** The handler of the scan *)

Section Handler.
Context {rt : JsRuntime}.

Lemma handler_result_cases (params : option ScanLogFilesHandler.Params)
  (deps : ScanLogFilesHandler.Deps) :
  let result := ScanLogFilesHandler.handleScanLogFiles params deps in
  (exists reason, result = ScanLogFilesHandler.failed reason)
  \/ (ScanLogFilesHandler.success result = true
      /\ ScanLogFilesHandler.error result = None).
Proof.
  cbv zeta.
  unfold ScanLogFilesHandler.handleScanLogFiles,
    ScanLogFilesHandler.handleScanLogFilesBody.
  destruct (match params with
            | Some given =>
                (ScanLogFilesHandler.basePath given,
                 ScanLogFilesHandler.start given,
                 ScanLogFilesHandler.end_ given)
            | None => (JUndefined, JUndefined, JUndefined)
            end) as [[basePath start] end_].
  destruct basePath as [| |b|n|text|elems|props]; simpl; eauto.
  destruct (String.eqb text ""); simpl; eauto.
  destruct (ScanLogFilesHandler.pathExistsFn deps _) as [thrown|found]; simpl.
  { destruct (ScanLogFilesHandler.isPermissionError thrown); eauto. }
  destruct found; simpl; [|right; split; reflexivity].
  destruct (ScanLogFilesHandler.scanLogFilesInRangeFn deps _ _ _)
    as [thrown|scan]; simpl.
  { destruct (ScanLogFilesHandler.isPermissionError thrown); eauto. }
  right. split; reflexivity.
Qed.

(** X21: the handler always answers, and its answer is a success without
    an error or a failure with one; a failure carries no file and no
    count. *)
Theorem handleScanLogFiles_answers (params : option ScanLogFilesHandler.Params)
  (deps : ScanLogFilesHandler.Deps) :
  let result := ScanLogFilesHandler.handleScanLogFiles params deps in
  (ScanLogFilesHandler.success result = true
   <-> ScanLogFilesHandler.error result = None)
  /\ (ScanLogFilesHandler.success result = false ->
      ScanLogFilesHandler.files result = []
      /\ ScanLogFilesHandler.totalMatched result = 0
      /\ ScanLogFilesHandler.scannedCount result = 0
      /\ ScanLogFilesHandler.truncated result = false).
Proof.
  cbv zeta.
  destruct (handler_result_cases params deps) as [[reason ->]|[Hsuccess Herror]].
  - split; [split; discriminate | intros _; repeat split].
  - rewrite Hsuccess, Herror. split; [tauto | discriminate].
Qed.

Context {host : LogScanner.NodePath}.

Lemma application_handler_scan (fields : ScanLogFilesHandler.Params)
  (text homedir : string)
  (fileSystem : string -> option LogScanner.FsEntry) :
  ScanLogFilesHandler.basePath fields = JStr text -> text <> "" ->
  let expandedPath := ScanLogFilesHandler.expandHomePath homedir text in
  let scan :=
    LogScanner.scanLogFilesInRange
      (ScanLogFilesHandler.entryAt fileSystem expandedPath) expandedPath
      (newDate (ScanLogFilesHandler.start fields))
      (newDate (ScanLogFilesHandler.end_ fields)) LogScanner.noOptions in
  ScanLogFilesHandler.handleScanLogFiles (Some fields)
    (ScanLogFilesHandler.applicationDeps homedir fileSystem)
  = {| ScanLogFilesHandler.success := true;
       ScanLogFilesHandler.files := LogScanner.files scan;
       ScanLogFilesHandler.totalMatched := LogScanner.totalMatched scan;
       ScanLogFilesHandler.scannedCount := LogScanner.scannedCount scan;
       ScanLogFilesHandler.truncated := LogScanner.truncated scan;
       ScanLogFilesHandler.error := None |}.
Proof.
  destruct fields as [basePath start end_].
  cbn [ScanLogFilesHandler.basePath ScanLogFilesHandler.start
       ScanLogFilesHandler.end_].
  intros -> Htext. cbv zeta.
  unfold ScanLogFilesHandler.handleScanLogFiles,
    ScanLogFilesHandler.handleScanLogFilesBody.
  cbn [ScanLogFilesHandler.basePath ScanLogFilesHandler.start
       ScanLogFilesHandler.end_].
  destruct (String.eqb_spec text ""); [contradiction|].
  cbn [ScanLogFilesHandler.applicationDeps ScanLogFilesHandler.pathExistsFn
       ScanLogFilesHandler.expandHomeFn
       ScanLogFilesHandler.scanLogFilesInRangeFn]. simpl.
  unfold ScanLogFilesHandler.pathExists, ScanLogFilesHandler.entryAt.
  destruct (fileSystem _) as [node|]; reflexivity.
Qed.

(** X23: with the collaborators the application registers, and the two
    ends of the range given as primitives (texts, as the bridge sends
    them), the handler reports no error but [INVALID_PATH]: a directory
    that cannot be read is an empty success, never [PERMISSION_DENIED],
    since the scanner catches what the file system throws. For a path that
    is a non-empty text the answer is the scan of what lies at the expanded
    path. *)
Theorem application_handler_reports_no_permission_error
  (params : option ScanLogFilesHandler.Params) (homedir : string)
  (fileSystem : string -> option LogScanner.FsEntry) :
  (forall fields,
      params = Some fields ->
      isPrimitive (ScanLogFilesHandler.start fields) = true
      /\ isPrimitive (ScanLogFilesHandler.end_ fields) = true) ->
  let result :=
    ScanLogFilesHandler.handleScanLogFiles params
      (ScanLogFilesHandler.applicationDeps homedir fileSystem) in
  (ScanLogFilesHandler.error result = None
   \/ result = ScanLogFilesHandler.failed "INVALID_PATH")
  /\ (forall fields text,
        params = Some fields ->
        ScanLogFilesHandler.basePath fields = JStr text -> text <> "" ->
        let expandedPath := ScanLogFilesHandler.expandHomePath homedir text in
        let scan :=
          LogScanner.scanLogFilesInRange
            (ScanLogFilesHandler.entryAt fileSystem expandedPath) expandedPath
            (newDate (ScanLogFilesHandler.start fields))
            (newDate (ScanLogFilesHandler.end_ fields)) LogScanner.noOptions in
        ScanLogFilesHandler.success result = true
        /\ ScanLogFilesHandler.files result = LogScanner.files scan
        /\ ScanLogFilesHandler.totalMatched result = LogScanner.totalMatched scan
        /\ ScanLogFilesHandler.scannedCount result = LogScanner.scannedCount scan
        /\ ScanLogFilesHandler.truncated result = LogScanner.truncated scan).
Proof.
  intros _. cbv zeta. split.
  - unfold ScanLogFilesHandler.handleScanLogFiles,
      ScanLogFilesHandler.handleScanLogFilesBody.
    destruct params as [[basePath start end_]|];
      cbn [ScanLogFilesHandler.basePath ScanLogFilesHandler.start
           ScanLogFilesHandler.end_]; [|now right].
    destruct basePath as [| |b|n|text|elems|props]; try (now right).
    destruct (String.eqb text ""); [now right|].
    cbn [ScanLogFilesHandler.applicationDeps ScanLogFilesHandler.pathExistsFn
         ScanLogFilesHandler.expandHomeFn
         ScanLogFilesHandler.scanLogFilesInRangeFn]. simpl.
    destruct (ScanLogFilesHandler.pathExists fileSystem _); now left.
  - intros fields text -> Hbase Htext.
    pose proof (application_handler_scan _ text homedir fileSystem Hbase Htext)
      as Hscan.
    cbv zeta in Hscan. rewrite Hscan. repeat split.
Qed.

End Handler.

(** ** From the file system to the records *)

Section HostPipeline.
Context {rt : JsRuntime} {host : LogScanner.NodePath}.
Variables (toISOString : Z -> string) (homedir : string).
Variable fileSystem : string -> option LogScanner.FsEntry.

Lemma hostScan_result (base : string) (start end_ : Z) :
  base <> "" ->
  Date_parse (toISOString start) = ValidDate start ->
  Date_parse (toISOString end_) = ValidDate end_ ->
  hostScan toISOString homedir fileSystem
    {| basePath := base; pattern := "**/*.jsonl";
       reqStart := start; reqEnd := end_ |}
  = Resolved
      (let scan := scannedUnder homedir fileSystem base start end_ in
       {| success := true;
          files := Some (map toLogFile (LogScanner.files scan));
          totalMatched := LogScanner.totalMatched scan;
          scannedCount := LogScanner.scannedCount scan;
          truncated := LogScanner.truncated scan;
          error := None |}).
Proof.
  intros Hbase Hstart Hend. unfold hostScan. cbn [basePath reqStart reqEnd].
  rewrite (application_handler_scan
             {| ScanLogFilesHandler.basePath := JStr base;
                ScanLogFilesHandler.start := JStr (toISOString start);
                ScanLogFilesHandler.end_ := JStr (toISOString end_) |}
             base homedir fileSystem eq_refl Hbase).
  cbn [ScanLogFilesHandler.start ScanLogFilesHandler.end_ newDate].
  rewrite Hstart, Hend. reflexivity.
Qed.

(** X24: through the bridge and the handler of the application, the
    aggregator reads exactly the files the scanner returns for the two log
    directories of the home, and every one of them was modified inside the
    window: no line of a file modified before the start of the window, or
    at its end or later, is counted, whatever the time stamp of the line. *)
Theorem aggregator_reads_files_modified_in_the_window (clock start end_ : Z) :
  Date_parse (toISOString start) = ValidDate start ->
  Date_parse (toISOString end_) = ValidDate end_ ->
  let env :=
    {| now := clock;
       scanLogFiles := Some (hostScan toISOString homedir fileSystem) |} in
  let claude :=
    LogScanner.files
      (scannedUnder homedir fileSystem "~/.claude/projects" start end_) in
  let codex :=
    LogScanner.files
      (scannedUnder homedir fileSystem "~/.codex/sessions" start end_) in
  scanClaudeLogs env start end_
  = flat_map (fun file =>
                flat_map (keepClaudeLine start end_) (LogScanner.lines file))
      claude
  /\ scanCodexLogs env start end_
     = reduceCodexSessions start end_ (map toLogFile codex)
  /\ Forall (fun file => start <= LogScanner.mtime file < end_)
       (claude ++ codex).
Proof.
  intros Hstart Hend. cbv zeta. split; [|split].
  - unfold scanClaudeLogs. cbn [scanLogFiles].
    rewrite hostScan_result by (assumption || discriminate).
    cbv zeta. cbn [success files].
    rewrite flat_map_concat_map, map_map, <- flat_map_concat_map.
    reflexivity.
  - unfold scanCodexLogs. cbn [scanLogFiles].
    rewrite hostScan_result by (assumption || discriminate).
    reflexivity.
  - assert (Hrange : forall base,
      Forall (fun file => start <= LogScanner.mtime file < end_)
        (LogScanner.files (scannedUnder homedir fileSystem base start end_))).
    { intros base. unfold scannedUnder.
      apply (scanned_from_candidates
               (fun candidate =>
                  LogScanner.outsideRange (LogScanner.Candidate.mtime candidate)
                    (ValidDate start) (ValidDate end_) = false)); [auto|].
      intros candidate content Hin. cbn [LogScanner.mtime].
      unfold LogScanner.outsideRange, ltNumber, geNumber, dateNumber in Hin.
      apply orb_false_iff in Hin as [Hlow Hhigh].
      apply Z.ltb_ge in Hlow. apply Z.leb_gt in Hhigh. lia. }
    apply Forall_app. split; apply Hrange.
Qed.

End HostPipeline.

(** ** Day keys *)

Section DayKeys.

Lemma dateOfEraDay_ranges (doe : Z) :
  0 <= doe < 146097 ->
  let '(yoe, m, d) := dateOfEraDay doe in
  0 <= yoe < 400 /\ 1 <= m <= 12 /\ 1 <= d <= 31.
Proof.
  intros Hdoe. unfold dateOfEraDay.
  set (yoe := (doe - doe / 1460 + doe / 36524 - doe / 146096) / 365).
  set (doy := doe - (365 * yoe + yoe / 4 - yoe / 100)).
  set (mp := (5 * doy + 2) / 153).
  assert (Hyear : 0 <= yoe < 400 /\ 0 <= doy < 366).
  { unfold doy, yoe. Z.div_mod_to_equations. lia. }
  destruct Hyear as [Hyoe Hdoy].
  assert (Hmp : 0 <= mp < 12) by (unfold mp; Z.div_mod_to_equations; lia).
  split; [exact Hyoe|]. split.
  - destruct (Z.ltb_spec mp 10); lia.
  - unfold mp. Z.div_mod_to_equations. lia.
Qed.

Lemma civil_from_days_ranges (z : Z) :
  - 719468 <= z ->
  let '(y, m, d) := civil_from_days z in
  0 <= y /\ 1 <= m <= 12 /\ 1 <= d <= 31.
Proof.
  intros Hz. unfold civil_from_days.
  set (era := (z + 719468) / 146097).
  set (doe := z + 719468 - era * 146097).
  assert (Hera : 0 <= era) by (unfold era; apply Z.div_pos; lia).
  assert (Hdoe : 0 <= doe < 146097).
  { unfold doe, era.
    pose proof (Z.mod_pos_bound (z + 719468) 146097 eq_refl) as Hm.
    rewrite Z.mod_eq in Hm by lia. lia. }
  pose proof (dateOfEraDay_ranges doe Hdoe) as Hdate.
  destruct (dateOfEraDay doe) as [[yoe m] d].
  destruct Hdate as (Hyoe & Hm & Hd).
  split; [destruct (m <=? 2); lia | split; assumption].
Qed.

Lemma digits_without_dash (d : Decimal.uint) :
  freeOf isDash (NilEmpty.string_of_uint d) = true.
Proof. induction d; simpl; auto. Qed.

Lemma decimal_without_dash (n : Z) : freeOf isDash (decimal n) = true.
Proof.
  unfold decimal, NilZero.string_of_uint.
  destruct (N.to_uint (Z.to_N n)) eqn:Hd; try reflexivity;
    rewrite <- Hd; apply digits_without_dash.
Qed.

Lemma to_uint_nonnil (n : N) : N.to_uint n <> Decimal.Nil.
Proof.
  destruct n; simpl; [discriminate | apply DecimalPos.Unsigned.to_uint_nonnil].
Qed.

Lemma decimal_injective (a b : Z) :
  0 <= a -> 0 <= b -> decimal a = decimal b -> a = b.
Proof.
  unfold decimal. intros Ha Hb Heq.
  apply (f_equal NilZero.uint_of_string) in Heq.
  rewrite !NilZero.usu in Heq by apply to_uint_nonnil.
  injection Heq as Heq. apply DecimalN.Unsigned.to_uint_inj in Heq.
  now apply Z2N.inj.
Qed.

Lemma twoDigit_without_dash (n : Z) : freeOf isDash (twoDigit n) = true.
Proof.
  unfold twoDigit. destruct (n <? 10); [|apply decimal_without_dash].
  rewrite freeOf_app, decimal_without_dash. reflexivity.
Qed.

Lemma twoDigit_injective (a b : Z) :
  0 <= a < 100 -> 0 <= b < 100 -> twoDigit a = twoDigit b -> a = b.
Proof.
  intros Ha Hb Heq.
  assert (Hall :
    forallb (fun i =>
      forallb (fun j =>
        implb (String.eqb (twoDigit (Z.of_nat i)) (twoDigit (Z.of_nat j)))
              (Nat.eqb i j))
        (seq 0 100))
      (seq 0 100) = true) by (vm_compute; reflexivity).
  rewrite forallb_forall in Hall.
  specialize (Hall (Z.to_nat a) ltac:(apply in_seq; lia)).
  rewrite forallb_forall in Hall.
  specialize (Hall (Z.to_nat b) ltac:(apply in_seq; lia)).
  rewrite !Z2Nat.id in Hall by lia.
  rewrite Heq, String.eqb_refl in Hall. simpl in Hall.
  apply Nat.eqb_eq in Hall. lia.
Qed.

Lemma append_separator_injective (p : ascii -> bool) (a a' r r' : string)
  (c : ascii) :
  freeOf p a = true -> freeOf p a' = true -> p c = true ->
  (a ++ String c r = a' ++ String c r')%string -> a = a' /\ r = r'.
Proof.
  intros Ha Ha' Hc. revert a' Ha'.
  induction a as [|x a IH]; intros [|x' a'] Ha'; simpl; intros Heq.
  - now injection Heq as ->.
  - injection Heq as <- _. simpl in Ha'. now rewrite Hc in Ha'.
  - injection Heq as -> _. simpl in Ha. now rewrite Hc in Ha.
  - injection Heq as -> Heq. simpl in Ha, Ha'.
    apply andb_true_iff in Ha as [_ Ha]. apply andb_true_iff in Ha' as [_ Ha'].
    destruct (IH Ha a' Ha' Heq) as [-> ->]. split; reflexivity.
Qed.

Lemma dateText_injective (p q : DateTimeParts) :
  0 <= year p -> 0 <= year q ->
  0 <= month p < 100 -> 0 <= month q < 100 ->
  0 <= day p < 100 -> 0 <= day q < 100 ->
  dateText p = dateText q ->
  year p = year q /\ month p = month q /\ day p = day q.
Proof.
  intros Hyp Hyq Hmp Hmq Hdp Hdq. unfold dateText. intros Heq.
  apply (append_separator_injective isDash) in Heq
    as [Hyear Heq]; try apply decimal_without_dash; try reflexivity.
  apply (append_separator_injective isDash) in Heq
    as [Hmonth Hday]; try apply twoDigit_without_dash; try reflexivity.
  split; [now apply decimal_injective|].
  split; now apply twoDigit_injective.
Qed.

Lemma dateText_nonempty (p : DateTimeParts) : dateText p <> "".
Proof.
  unfold dateText. intros Hempty.
  apply (f_equal (freeOf isDash)) in Hempty.
  rewrite freeOf_app in Hempty. simpl in Hempty.
  now rewrite andb_false_r in Hempty.
Qed.

Lemma dayKey_injective (a b : Z) :
  - msPerDay <= a -> - msPerDay <= b ->
  getBeijingDayKey a = getBeijingDayKey b -> civilDay a = civilDay b.
Proof.
  unfold getBeijingDayKey, getBeijingDateTimeParts, civilDay.
  intros Ha Hb.
  assert (Hda : - 719468 <= (a + beijingOffset) / msPerDay).
  { unfold beijingOffset, msPerHour, msPerDay in *.
    Z.div_mod_to_equations. lia. }
  assert (Hdb : - 719468 <= (b + beijingOffset) / msPerDay).
  { unfold beijingOffset, msPerHour, msPerDay in *.
    Z.div_mod_to_equations. lia. }
  pose proof (civil_from_days_ranges _ Hda) as Hra.
  pose proof (civil_from_days_ranges _ Hdb) as Hrb.
  pose proof (days_from_civil_from_days ((a + beijingOffset) / msPerDay)) as Hba.
  pose proof (days_from_civil_from_days ((b + beijingOffset) / msPerDay)) as Hbb.
  destruct (civil_from_days ((a + beijingOffset) / msPerDay)) as [[ya ma] da].
  destruct (civil_from_days ((b + beijingOffset) / msPerDay)) as [[yb mb] db].
  intros Hkey. apply dateText_injective in Hkey; cbn [year month day] in *;
    try lia.
  destruct Hkey as (-> & -> & ->). congruence.
Qed.

End DayKeys.

Section Freshness.

Lemma dayKey_iff (a b : Z) :
  - msPerDay <= a -> - msPerDay <= b ->
  getBeijingDayKey a = getBeijingDayKey b <-> civilDay a = civilDay b.
Proof.
  intros Ha Hb. split; [now apply dayKey_injective | apply dayKey_of_day].
Qed.

Lemma batch_is_a_day (instant : Z) :
  civilDay (if (instant + beijingOffset) mod msPerDay
               <? DAILY_REFRESH_MINUTE * msPerMinute
            then instant - msPerDay else instant)
  = batchDay instant.
Proof.
  unfold civilDay, batchDay, DAILY_REFRESH_MINUTE, msPerMinute, msPerDay,
    beijingOffset, msPerHour.
  destruct (Z.ltb_spec ((instant + 8 * 3600000) mod 86400000) (5 * 60000));
    Z.div_mod_to_equations; lia.
Qed.

Lemma batchKey_iff (a b : Z) :
  0 <= a -> 0 <= b ->
  getDailyRefreshKey a = getDailyRefreshKey b <-> batchDay a = batchDay b.
Proof.
  intros Ha Hb. rewrite !getDailyRefreshKey_batch.
  rewrite dayKey_iff, !batch_is_a_day; [reflexivity| |].
  - destruct (_ <? _); unfold msPerDay in *; lia.
  - destruct (_ <? _); unfold msPerDay in *; lia.
Qed.

Lemma dayKey_nonempty (instant : Z) : getBeijingDayKey instant <> "".
Proof. apply dateText_nonempty. Qed.

Lemma batchKey_nonempty (instant : Z) : getDailyRefreshKey instant <> "".
Proof. rewrite getDailyRefreshKey_batch. apply dayKey_nonempty. Qed.

Lemma present_text (text : string) : text <> "" -> present (Some text) = Some text.
Proof.
  intros Htext. unfold present.
  destruct (String.eqb_spec text ""); [contradiction | reflexivity].
Qed.

Lemma civilRange_after_epoch (instant : Z) : civilRange instant -> 0 <= instant.
Proof.
  intros [Hfrom _].
  assert (H1992 : 0 <= beijingInstant 1992 1 1 0 0 0) by (vm_compute; discriminate).
  lia.
Qed.

(** X25: for instants from 1992 to 9999, the day key tells the civil days
    of Beijing apart and the batch key the batches, a batch running from
    00:05 to 00:05; the start of the day of an instant has the day key of
    the instant and lies at most a day before it. *)
Theorem keys_identify_day_and_batch (a b : Z) :
  civilRange a -> civilRange b ->
  (getBeijingDayKey a = getBeijingDayKey b <-> civilDay a = civilDay b)
  /\ (getDailyRefreshKey a = getDailyRefreshKey b <-> batchDay a = batchDay b)
  /\ getBeijingDayKey (getBeijingDayStart a) = getBeijingDayKey a
  /\ getBeijingDayStart a <= a < getBeijingDayStart a + msPerDay.
Proof.
  intros Ha Hb.
  apply civilRange_after_epoch in Ha. apply civilRange_after_epoch in Hb.
  split; [apply dayKey_iff; unfold msPerDay; lia|].
  split; [now apply batchKey_iff|].
  unfold getBeijingDayStart. rewrite midnightOf_parts. split.
  - apply dayKey_of_day.
    unfold msPerDay, beijingOffset, msPerHour. Z.div_mod_to_equations. lia.
  - unfold msPerDay, beijingOffset, msPerHour. Z.div_mod_to_equations. lia.
Qed.

Context {rt : JsRuntime}.

(** X26: how long the entry of a successful refresh stays fresh, for
    instants from 1992 to 9999. Stored
    with the text of the instant [computed] and keyed at the instant
    [stamped], the entry of today is fresh at [now] exactly when [now]
    lies in the civil day of [stamped] and less than five minutes after
    [computed]; the entry of the week or of the month exactly when [now]
    lies in the batch of [stamped]. So an entry is fresh at the instant
    it is stored: a refresh is not followed by another at once. *)
Theorem refreshed_entry_freshness (period : string) (result : UsageData)
  (text : string) (computed stamped now : Z) :
  text <> "" -> Date_parse text = ValidDate computed ->
  civilRange stamped -> civilRange now ->
  let entry := Some (refreshedEntry period result text stamped) in
  (shouldRefreshPeriod period entry now = false
   <-> if String.eqb period "today"
       then civilDay now = civilDay stamped
            /\ now - computed < TODAY_REFRESH_INTERVAL_MS
       else batchDay now = batchDay stamped)
  /\ (computed <= stamped < computed + TODAY_REFRESH_INTERVAL_MS ->
      shouldRefreshPeriod period entry stamped = false).
Proof.
  intros Htext Hparse Hstamped Hnow. cbv zeta.
  apply civilRange_after_epoch in Hstamped.
  apply civilRange_after_epoch in Hnow.
  assert (Hfresh : forall instant, 0 <= instant ->
    shouldRefreshPeriod period
      (Some (refreshedEntry period result text stamped)) instant = false
    <-> if String.eqb period "today"
        then civilDay instant = civilDay stamped
             /\ instant - computed < TODAY_REFRESH_INTERVAL_MS
        else batchDay instant = batchDay stamped).
  { intros instant Hinstant.
    unfold shouldRefreshPeriod, refreshedEntry, hasData.
    cbn [data negb]. destruct (String.eqb period "today").
    - unfold isTodayCacheFresh. cbn [computedAt dayKey].
      rewrite (present_text _ Htext), (present_text _ (dayKey_nonempty stamped)).
      rewrite Hparse. rewrite negb_false_iff.
      assert (Hs : - msPerDay <= stamped) by (unfold msPerDay; lia).
      assert (Hi : - msPerDay <= instant) by (unfold msPerDay; lia).
      destruct (String.eqb_spec (getBeijingDayKey stamped)
                  (getBeijingDayKey instant)) as [Hkey|Hkey]; cbn [negb].
      + apply (proj1 (dayKey_iff stamped instant Hs Hi)) in Hkey.
        rewrite Z.ltb_lt. split; [intros Hlt; split; [congruence | exact Hlt] | tauto].
      + split; [discriminate|]. intros [Hday _]. exfalso. apply Hkey.
        symmetry. apply dayKey_of_day. exact Hday.
    - unfold isRangeCacheFresh. cbn [dailyRefreshKey negb].
      rewrite (present_text _ (batchKey_nonempty stamped)).
      rewrite negb_false_iff, String.eqb_eq, batchKey_iff by assumption.
      split; congruence. }
  split; [now apply Hfresh|].
  intros Hsoon. apply Hfresh; [assumption|].
  destruct (String.eqb period "today"); [|reflexivity].
  split; [reflexivity | lia].
Qed.

End Freshness.

(** ** The records of Claude, the view and the slots of a session *)

Section ClaudeRecords.
Context {rt : JsRuntime}.

Tactic Notation "invert_step" hyp(H) "as" ident(x) ident(Hx) :=
  apply bind_inr in H; destruct H as (x & Hx & H).

Lemma claudeRecord_inversion (line : string) (record : UsageRecord) :
  parseClaudeLog line = inr (Some record) ->
  canonicalName (model record)
  /\ exists parsed,
       JSON_parse line = Some parsed
       /\ truthy (prop (prop parsed "message") "usage") = true.
Proof.
  intros H. unfold parseClaudeLog, parseClaudeLogBody in H.
  apply catch_null_some in H.
  invert_step H as parsed Hparsed. invert_step H as message Hmessage.
  invert_step H as usageOpt HusageOpt.
  destruct (truthy usageOpt) eqn:Husage; [|discriminate]. simpl negb in H.
  cbv iota in H.
  invert_step H as usage Husage'. invert_step H as dataTs HdataTs.
  invert_step H as ts Hts. invert_step H as rawModel HrawModel.
  invert_step H as inputTokens Hinput. invert_step H as outputTokens Houtput.
  invert_step H as cacheReadInput Hcri. invert_step H as cacheReadLegacy Hcrl.
  invert_step H as cacheCreateInput Hcci. invert_step H as cacheCreateLegacy Hccl.
  injection H as <-. cbn [model].
  split; [apply normalizeModelName_is_canonical|].
  exists parsed. split.
  - unfold jsonParse in Hparsed. destruct (JSON_parse line); [|discriminate].
    now injection Hparsed as ->.
  - apply get_inr in Hmessage. subst message.
    destruct (prop parsed "message"); simpl in HusageOpt;
      injection HusageOpt as <-; try discriminate Husage; exact Husage.
Qed.

(** X27: the Claude parser yields a record only for a line that is JSON
    with a truthy [message.usage], and for every such line whose time
    stamp ([timestamp], or else [message.timestamp]) is a primitive; the
    model of every record is a series name in canonical form. *)
Theorem parseClaudeLog_yields_a_record (line : string) :
  ((exists record, parseClaudeLog line = inr (Some record)) ->
   exists parsed,
     JSON_parse line = Some parsed
     /\ truthy (prop (prop parsed "message") "usage") = true)
  /\ (forall parsed,
        JSON_parse line = Some parsed ->
        truthy (prop (prop parsed "message") "usage") = true ->
        isPrimitive
          (orElse (prop parsed "timestamp")
                  (prop (prop parsed "message") "timestamp")) = true ->
        exists record, parseClaudeLog line = inr (Some record))
  /\ (forall record,
        parseClaudeLog line = inr (Some record) -> canonicalName (model record)).
Proof.
  split; [|split].
  - intros [record Hrecord].
    exact (proj2 (claudeRecord_inversion line record Hrecord)).
  - intros parsed Hparsed Husage _.
    unfold parseClaudeLog, parseClaudeLogBody, jsonParse. rewrite Hparsed.
    destruct parsed as [| |b|n|s|elems|props]; try discriminate Husage.
    simpl in Husage. simpl.
    destruct (lookup "message" props) as [| |b|n|s|elems|inner];
      try discriminate Husage.
    simpl in Husage. simpl. rewrite Husage. simpl.
    destruct (lookup "usage" inner) as [| |b|n|s|elems|usage];
      try discriminate Husage; simpl;
      destruct (truthy (lookup "timestamp" props)); simpl; eauto.
  - intros record Hrecord.
    exact (proj1 (claudeRecord_inversion line record Hrecord)).
Qed.

Lemma keepClaudeLine_sound (start end_ : Z) (line : string)
  (record : UsageRecord) :
  In record (keepClaudeLine start end_ line) ->
  parseClaudeLog line = inr (Some record)
  /\ withinWindow (timestamp record) start end_ = true.
Proof.
  unfold keepClaudeLine.
  destruct (parseClaudeLog line) as [thrown|[parsed|]] eqn:Hparse; simpl;
    try (intros []; fail).
  destruct (withinWindow (timestamp parsed) start end_) eqn:Hwindow;
    [|intros []].
  intros [<-|[]]. split; [reflexivity | exact Hwindow].
Qed.

Lemma keepClaudeLine_at_most_one (start end_ : Z) (line : string) :
  (List.length (keepClaudeLine start end_ line) <= 1)%nat.
Proof.
  unfold keepClaudeLine. destruct (valueOf (parseClaudeLog line)); [|simpl; lia].
  destruct (withinWindow _ _ _); simpl; lia.
Qed.

(** X28: every record of the Claude scan is the record the parser yields
    for a line of a file of the scan, and its time stamp passes the test of
    the half-open window; a line gives at most one record, so there are no
    more records than lines. *)
Theorem claude_records_are_sound (env : Env) (start end_ : Z) :
  Forall (fun record =>
            withinWindow (timestamp record) start end_ = true
            /\ exists scan result fs file line,
                 scanLogFiles env = Some scan
                 /\ scan {| basePath := "~/.claude/projects";
                            pattern := "**/*.jsonl";
                            reqStart := start; reqEnd := end_ |}
                    = Resolved result
                 /\ files result = Some fs /\ In file fs
                 /\ In line (lines file)
                 /\ parseClaudeLog line = inr (Some record))
    (scanClaudeLogs env start end_)
  /\ (forall scan result fs,
        scanLogFiles env = Some scan ->
        scan {| basePath := "~/.claude/projects"; pattern := "**/*.jsonl";
                reqStart := start; reqEnd := end_ |} = Resolved result ->
        files result = Some fs ->
        (List.length (scanClaudeLogs env start end_)
         <= List.length (flat_map lines fs))%nat).
Proof.
  unfold scanClaudeLogs. split.
  - destruct (scanLogFiles env) as [scan|]; [|constructor].
    destruct (scan _) as [result|] eqn:Hscan; [|constructor].
    destruct (success result); [|constructor].
    destruct (files result) as [fs|] eqn:Hfiles; [|constructor].
    apply Forall_forall. intros record Hrecord.
    apply in_flat_map in Hrecord as (file & Hfile & Hrecord).
    apply in_flat_map in Hrecord as (line & Hline & Hrecord).
    apply keepClaudeLine_sound in Hrecord as [Hparse Hwindow].
    split; [exact Hwindow|].
    exists scan, result, fs, file, line. repeat split; assumption.
  - intros scan result fs -> -> ->.
    destruct (success result); [|simpl; lia].
    induction fs as [|file fs IH]; [simpl; lia|].
    simpl. rewrite !length_app.
    pose proof (flat_map_length_bound (keepClaudeLine start end_) (lines file)
                  (keepClaudeLine_at_most_one start end_)).
    lia.
Qed.

End ClaudeRecords.

Section ViewInvariants.
Context {rt : JsRuntime} {C : Collator}.

Lemma NoDup_map_filter {A B : Type} (f : A -> B) (keep : A -> bool)
  (l : list A) :
  NoDup (map f l) -> NoDup (map f (filter keep l)).
Proof.
  induction l as [|x rest IH]; [auto|]. simpl. intros Hnodup.
  apply NoDup_cons_iff in Hnodup as [Hfresh Hrest].
  destruct (keep x); [|now apply IH].
  simpl. constructor; [|now apply IH].
  intros Hin. apply Hfresh. apply in_map_iff in Hin as (y & Hy & Hin).
  apply filter_In in Hin as [Hin _]. apply in_map_iff. now exists y.
Qed.

(** X29: in the view of any list of records no model is listed twice,
    every listed model has a positive total, [modelCount] is the number of
    the models listed and [isExtremeScenario] tells whether it exceeds
    5. *)
Theorem view_lists_each_model_once (records : list UsageRecord) :
  let view := generateViewData (aggregateByModel records) in
  let names :=
    map (fun row => ModelAggregate.name (aggregate row)) (ViewData.models view) in
  let howMany := List.length (ViewData.models view) in
  NoDup names
  /\ Forall (fun row => 0 < rowTotal row) (ViewData.models view)
  /\ ViewData.modelCount view = Z.of_nat howMany
  /\ ViewData.isExtremeScenario view = (5 <? howMany)%nat.
Proof.
  cbv zeta.
  destruct (generateViewData_distribution (aggregateByModel records))
    as (Hperm & Hextreme & Hdistribution & Hothers).
  cbv zeta in *.
  set (view := generateViewData (aggregateByModel records)) in *.
  assert (Hlength : List.length (ViewData.models view)
                    = List.length (nonZeroModels (aggregateByModel records))).
  { rewrite <- (Permutation_length Hperm). now rewrite length_map. }
  split; [|split; [|split]].
  - rewrite <- (map_map aggregate ModelAggregate.name).
    apply (Permutation_NoDup
             (l := map ModelAggregate.name
                     (nonZeroModels (aggregateByModel records)))).
    + apply Permutation_map. now apply Permutation_sym.
    + unfold nonZeroModels. apply NoDup_map_filter.
      apply wellKeyed_names, aggregateByModel_wellKeyed.
  - apply rankModels_positive.
  - reflexivity.
  - now rewrite Hextreme, Hlength.
Qed.

End ViewInvariants.

Section SlotMaxima.
Context {rt : JsRuntime}.
Variables start end_ : Z.

Lemma settled_selected (sel : CodexSnapshot -> bool)
  (slot : option CodexSnapshot) (s : CodexSnapshot) :
  sel s = true -> settled sel slot (Some s) ->
  exists best,
    slot = Some best /\ replaces s best = false
    /\ totalTokens s <= totalTokens best.
Proof.
  unfold settled, stepSlot. intros ->. destruct slot as [best|]; [|discriminate].
  intros Hslot.
  assert (Hkept : pickCodexMaxSnapshot (Some best) s = best) by congruence.
  exists best. split; [reflexivity|].
  assert (Hreplaces : replaces s best = false).
  { rewrite pick_replaces in Hkept.
    destruct (replaces s best) eqn:Hsb; [|reflexivity].
    subst s. now rewrite replaces_irrefl in Hsb. }
  split; [exact Hreplaces|].
  unfold replaces in Hreplaces. apply orb_false_iff in Hreplaces as [Hlt _].
  now apply Z.ltb_ge.
Qed.

(** X30: the slots of a session hold the largest snapshots read. After the
    lines [ls], from any state, for every snapshot parsed from a line of
    [ls] and stamped before the window the [beforeWindow] slot holds a
    snapshot that it does not replace: one of a total at least as large,
    and, when the totals are equal, not stamped earlier; likewise the
    [inWindow] slot for every snapshot stamped inside the window. *)
Theorem session_slots_hold_the_largest (ls : list string)
  (state : SessionState) (line : string) (snapshot : CodexSnapshot) :
  let final := fold_left (updateSession start end_) ls state in
  In line ls ->
  parseCodexTokenSnapshot line = inr (Some snapshot) ->
  (isBefore start snapshot = true ->
   exists best,
     beforeWindow final = Some best /\ replaces snapshot best = false
     /\ totalTokens snapshot <= totalTokens best)
  /\ (isInside start end_ snapshot = true ->
      exists best,
        inWindow final = Some best /\ replaces snapshot best = false
        /\ totalTokens snapshot <= totalTokens best).
Proof.
  cbv zeta. intros Hline Hparse.
  assert (Hparsed : In (Some snapshot)
            (map (fun l => valueOf (parseCodexTokenSnapshot l)) ls)).
  { apply in_map_iff. exists line. split; [now rewrite Hparse | exact Hline]. }
  rewrite fold_updateSession.
  destruct (fold_applySnapshot_slots start end_
              (map (fun l => valueOf (parseCodexTokenSnapshot l)) ls) state)
    as [-> ->].
  split; intros Hsel; apply (settled_selected _ _ _ Hsel);
    now apply fold_settles.
Qed.

End SlotMaxima.

(** ** Instances of the further properties *)

(** Records without a negative figure, two of them of one model. *)
Lemma view_parts_witness :
  let records :=
    [ {| timestamp := None; model := "sonnet"; input := 7; output := 3;
         cacheRead := 0; cacheCreate := 0 |};
      {| timestamp := None; model := "opus"; input := 0; output := 0;
         cacheRead := 0; cacheCreate := 0 |};
      {| timestamp := None; model := "sonnet"; input := 1; output := 1;
         cacheRead := 5; cacheCreate := 2 |} ] in
  let view :=
    @generateViewData Fixture.runtime Fixture.collator (aggregateByModel records) in
  withinSafeIntegers records
  /\ ViewData.total view = 19
  /\ ViewData.total view
     = ViewData.input view + ViewData.output view + ViewData.cache view.
Proof.
  cbv zeta.
  assert (Hsafe : withinSafeIntegers
    [ {| timestamp := None; model := "sonnet"; input := 7; output := 3;
         cacheRead := 0; cacheCreate := 0 |};
      {| timestamp := None; model := "opus"; input := 0; output := 0;
         cacheRead := 0; cacheCreate := 0 |};
      {| timestamp := None; model := "sonnet"; input := 1; output := 1;
         cacheRead := 5; cacheCreate := 2 |} ]) by (vm_compute; discriminate).
  split; [exact Hsafe|]. split; [reflexivity|].
  exact (proj1 (@view_total_is_sum_of_parts Fixture.runtime Fixture.collator
                  _ Hsafe)).
Defined.

Lemma conservation_witness :
  let records :=
    [ {| timestamp := None; model := "sonnet"; input := 7; output := 3;
         cacheRead := 0; cacheCreate := 0 |};
      {| timestamp := None; model := "opus"; input := -2; output := 0;
         cacheRead := 0; cacheCreate := 0 |};
      {| timestamp := None; model := "sonnet"; input := 1; output := 1;
         cacheRead := 5; cacheCreate := 2 |} ] in
  withinSafeIntegers records
  /\ map (fun data => (ModelAggregate.name data, ModelAggregate.input data))
       (mapValues (aggregateByModel records))
     = [("sonnet", 8); ("opus", -2)]
  /\ sumOf ModelAggregate.input (mapValues (aggregateByModel records))
     = sumOf input records.
Proof.
  cbv zeta.
  assert (Hsafe : withinSafeIntegers
    [ {| timestamp := None; model := "sonnet"; input := 7; output := 3;
         cacheRead := 0; cacheCreate := 0 |};
      {| timestamp := None; model := "opus"; input := -2; output := 0;
         cacheRead := 0; cacheCreate := 0 |};
      {| timestamp := None; model := "sonnet"; input := 1; output := 1;
         cacheRead := 5; cacheCreate := 2 |} ]) by (vm_compute; discriminate).
  split; [exact Hsafe|]. split; [reflexivity|].
  exact (proj1 (aggregateByModel_conserves _ Hsafe)).
Defined.

Lemma view_total_witness :
  let records :=
    [ {| timestamp := None; model := "sonnet"; input := 7; output := 3;
         cacheRead := 0; cacheCreate := 0 |};
      {| timestamp := None; model := "opus"; input := 0; output := 0;
         cacheRead := 0; cacheCreate := 0 |};
      {| timestamp := None; model := "sonnet"; input := 1; output := 1;
         cacheRead := 5; cacheCreate := 2 |} ] in
  withinSafeIntegers records
  /\ Forall (fun record => 0 <= calculateTotalTokens record) records
  /\ ViewData.total
       (@generateViewData Fixture.runtime Fixture.collator
          (aggregateByModel records))
     = sumOf calculateTotalTokens records.
Proof.
  cbv zeta.
  assert (Hsafe : withinSafeIntegers
    [ {| timestamp := None; model := "sonnet"; input := 7; output := 3;
         cacheRead := 0; cacheCreate := 0 |};
      {| timestamp := None; model := "opus"; input := 0; output := 0;
         cacheRead := 0; cacheCreate := 0 |};
      {| timestamp := None; model := "sonnet"; input := 1; output := 1;
         cacheRead := 5; cacheCreate := 2 |} ]) by (vm_compute; discriminate).
  assert (Hall : Forall (fun record => 0 <= calculateTotalTokens record)
    [ {| timestamp := None; model := "sonnet"; input := 7; output := 3;
         cacheRead := 0; cacheCreate := 0 |};
      {| timestamp := None; model := "opus"; input := 0; output := 0;
         cacheRead := 0; cacheCreate := 0 |};
      {| timestamp := None; model := "sonnet"; input := 1; output := 1;
         cacheRead := 5; cacheCreate := 2 |} ]).
  { repeat constructor; unfold calculateTotalTokens; simpl; lia. }
  split; [exact Hsafe|]. split; [exact Hall|].
  exact (@view_total_counts_every_token Fixture.runtime Fixture.collator _
           Hsafe Hall).
Defined.

(** The windows at 11:00 of 2026-02-15 in Beijing. *)
Lemma windows_witness :
  let now := Fixture.fixedNow in
  civilRange now
  /\ windowStart (getBeijingTimeWindow now "today") = beijingInstant 2026 2 15 0 0 0
  /\ windowEnd (getBeijingTimeWindow now "week")
     = windowStart (getBeijingTimeWindow now "today")
  /\ windowEnd (getBeijingTimeWindow now "week")
       - windowStart (getBeijingTimeWindow now "week")
     = 7 * msPerDay.
Proof.
  cbv zeta.
  assert (Hnow : civilRange Fixture.fixedNow).
  { split; vm_compute; [discriminate | reflexivity]. }
  split; [exact Hnow|]. split; [reflexivity|].
  exact (proj1 (proj2 (windows_of_an_instant Fixture.fixedNow Hnow))).
Defined.

(** A snapshot with a negative, a fractional and a textual field, and no
    reported total. *)
Lemma snapshot_fields_witness :
  let snapshot :=
    {| snapTimestamp := Some (ValidDate (utcInstant 2026 2 14 16 20 0));
       snapModel := "codex"; inputTotal := 0; outputTotal := 2;
       cacheReadTotal := 0; totalTokens := 2 |} in
  exists data,
    @JSON_parse Fixture.runtime "codex-ragged" = Some data
    /\ @parseCodexTokenSnapshot Fixture.runtime "codex-ragged"
       = inr (Some snapshot)
    /\ 0 <= inputTotal snapshot /\ 0 <= outputTotal snapshot
    /\ 0 <= cacheReadTotal snapshot.
Proof.
  cbv zeta. eexists. split; [reflexivity|]. split; [reflexivity|].
  exact (proj1 (proj2 (proj2 (proj2
           (@snapshot_fields_of_the_line Fixture.runtime "codex-ragged" _ _
              eq_refl eq_refl))))).
Defined.

(** The request of the aggregator for the Claude logs of the fixture. *)
Lemma application_handler_witness :
  let fields :=
    {| ScanLogFilesHandler.basePath := JStr "~/.claude/projects";
       ScanLogFilesHandler.start := JStr "2026-02-15T00:00:00+08:00";
       ScanLogFilesHandler.end_ := JStr "2026-02-15T03:00:00.000Z" |} in
  let result :=
    @ScanLogFilesHandler.handleScanLogFiles Fixture.runtime (Some fields)
      (@ScanLogFilesHandler.applicationDeps HostFixture.nodePath "/home/user"
         HostFixture.fileSystem) in
  isPrimitive (ScanLogFilesHandler.start fields) = true
  /\ isPrimitive (ScanLogFilesHandler.end_ fields) = true
  /\ (ScanLogFilesHandler.error result = None
      \/ result = ScanLogFilesHandler.failed "INVALID_PATH")
  /\ map LogScanner.path (ScanLogFilesHandler.files result)
     = ["/home/user/.claude/projects/project-a/current.jsonl"].
Proof.
  cbv zeta. split; [reflexivity|]. split; [reflexivity|].
  split; [|reflexivity].
  apply (@application_handler_reports_no_permission_error Fixture.runtime
           HostFixture.nodePath
           (Some {| ScanLogFilesHandler.basePath := JStr "~/.claude/projects";
                    ScanLogFilesHandler.start := JStr "2026-02-15T00:00:00+08:00";
                    ScanLogFilesHandler.end_ := JStr "2026-02-15T03:00:00.000Z" |})
           "/home/user" HostFixture.fileSystem).
  intros fields [= <-]. split; reflexivity.
Defined.


(** The session of UT-BE-AGG-07 followed by two of its lines. *)
Lemma replayed_lines_witness :
  let start := windowStart (getBeijingTimeWindow Fixture.fixedNow "today") in
  let end_ := windowEnd (getBeijingTimeWindow Fixture.fixedNow "today") in
  let ls := ["codex-before"; "codex-small"; "codex-large"] in
  let again := ["codex-large"; "codex-before"] in
  incl again ls
  /\ @reduceCodexSessions Fixture.runtime start end_
       [ {| path := "/tmp/session.jsonl"; lines := ls ++ again |} ]
     = @reduceCodexSessions Fixture.runtime start end_
         [ {| path := "/tmp/session.jsonl"; lines := ls |} ].
Proof.
  cbv zeta.
  assert (Hincl : incl ["codex-large"; "codex-before"]
                    ["codex-before"; "codex-small"; "codex-large"]).
  { intros line [<-|[<-|[]]]; simpl; auto. }
  split; [exact Hincl|].
  exact (proj2 (@codex_replayed_lines_change_nothing Fixture.runtime _ _ _ _ Hincl)
           "/tmp/session.jsonl").
Defined.

(** The rollout file of the test suite, in a directory of its day. *)
Lemma rollout_file_witness :
  let prefix := "rollout-2026-02-15T10-00-00-" in
  let uuid := "019C5F06-c6e8-7f50-add2-6865b618d549" in
  freeOf isPathSeparator prefix = true
  /\ matchesShape CODEX_SESSION_ID_SHAPE uuid = true
  /\ extractCodexSessionId
       ("/home/user/.codex/sessions/2026/02/15" ++ String "/" (prefix ++ uuid ++ ".jsonl"))
     = "019c5f06-c6e8-7f50-add2-6865b618d549".
Proof.
  cbv zeta. split; [reflexivity|]. split; [reflexivity|].
  exact (proj2 (extractCodexSessionId_of_rollout_file
                  "rollout-2026-02-15T10-00-00-"
                  "019C5F06-c6e8-7f50-add2-6865b618d549" eq_refl eq_refl)
           "/home/user/.codex/sessions/2026/02/15" "/"%char eq_refl).
Defined.

(** The home of the fixture at 11:00 of 2026-02-15 in Beijing: of the two
    Claude logs only the one modified today is read. *)
Lemma host_pipeline_witness :
  let start := HostFixture.windowStartInstant in
  let end_ := Fixture.fixedNow in
  let env :=
    {| now := Fixture.fixedNow;
       scanLogFiles :=
         Some (@hostScan Fixture.runtime HostFixture.nodePath
                 HostFixture.isoText "/home/user" HostFixture.fileSystem) |} in
  @Date_parse Fixture.runtime (HostFixture.isoText start) = ValidDate start
  /\ @Date_parse Fixture.runtime (HostFixture.isoText end_) = ValidDate end_
  /\ List.length (@scanClaudeLogs Fixture.runtime env start end_) = 2%nat
  /\ map LogScanner.path
       (LogScanner.files
          (@scannedUnder HostFixture.nodePath "/home/user" HostFixture.fileSystem
             "~/.claude/projects" start end_))
     = ["/home/user/.claude/projects/project-a/current.jsonl"]
  /\ Forall (fun file => start <= LogScanner.mtime file < end_)
       (LogScanner.files
          (@scannedUnder HostFixture.nodePath "/home/user" HostFixture.fileSystem
             "~/.claude/projects" start end_)
        ++ LogScanner.files
             (@scannedUnder HostFixture.nodePath "/home/user" HostFixture.fileSystem
                "~/.codex/sessions" start end_)).
Proof.
  cbv zeta. split; [reflexivity|]. split; [reflexivity|].
  destruct (@aggregator_reads_files_modified_in_the_window
              Fixture.runtime HostFixture.nodePath HostFixture.isoText
              "/home/user" HostFixture.fileSystem Fixture.fixedNow
              HostFixture.windowStartInstant Fixture.fixedNow eq_refl eq_refl)
    as (Hclaude & _ & Hrange).
  cbv zeta in Hclaude, Hrange.
  split; [rewrite Hclaude; reflexivity|].
  split; [reflexivity | exact Hrange].
Defined.

(** Two instants of one civil day, on either side of noon. *)
Lemma keys_witness :
  let a := Fixture.fixedNow in
  let b := Fixture.fixedNow + 2 * msPerHour in
  civilRange a /\ civilRange b
  /\ getBeijingDayKey a = getBeijingDayKey b
  /\ civilDay a = civilDay b
  /\ getBeijingDayStart a = beijingInstant 2026 2 15 0 0 0.
Proof.
  cbv zeta.
  assert (Ha : civilRange Fixture.fixedNow).
  { split; vm_compute; [discriminate | reflexivity]. }
  assert (Hb : civilRange (Fixture.fixedNow + 2 * msPerHour)).
  { split; vm_compute; [discriminate | reflexivity]. }
  split; [exact Ha|]. split; [exact Hb|].
  destruct (keys_identify_day_and_batch _ _ Ha Hb) as (Hday & _ & _ & _).
  split; [apply Hday; reflexivity|]. split; reflexivity.
Defined.

(** The entry of today stored at 11:00, looked at one minute later. *)
Lemma refreshed_entry_witness :
  let text := "2026-02-15T03:00:00.000Z" in
  let stored := Fixture.fixedNow in
  let now := Fixture.fixedNow + msPerMinute in
  text <> ""
  /\ @Date_parse Fixture.runtime text = ValidDate stored
  /\ civilRange stored /\ civilRange now
  /\ @shouldRefreshPeriod Fixture.runtime "today"
       (Some (refreshedEntry "today" Fixture.emptyUsage text stored)) now
     = false.
Proof.
  cbv zeta.
  assert (Htext : "2026-02-15T03:00:00.000Z" <> "") by discriminate.
  assert (Hstored : civilRange Fixture.fixedNow).
  { split; vm_compute; [discriminate | reflexivity]. }
  assert (Hnow : civilRange (Fixture.fixedNow + msPerMinute)).
  { split; vm_compute; [discriminate | reflexivity]. }
  split; [exact Htext|]. split; [reflexivity|].
  split; [exact Hstored|]. split; [exact Hnow|].
  apply (proj1 (@refreshed_entry_freshness Fixture.runtime "today"
                  Fixture.emptyUsage _ _ _ _ Htext eq_refl Hstored Hnow)).
  split; [reflexivity | vm_compute; reflexivity].
Defined.

(** The name of a model in upper case. *)
Lemma model_colour_witness :
  toLowerCase "Claude-OPUS-4-1" <> "constructor"
  /\ toLowerCase "Claude-OPUS-4-1" <> "__proto__"
  /\ getModelColor "Claude-OPUS-4-1" = "#2563eb"
  /\ In (getModelColor "Claude-OPUS-4-1") (map snd MODEL_COLORS).
Proof.
  assert (H1 : toLowerCase "Claude-OPUS-4-1" <> "constructor") by discriminate.
  assert (H2 : toLowerCase "Claude-OPUS-4-1" <> "__proto__") by discriminate.
  split; [exact H1|]. split; [exact H2|]. split; [reflexivity|].
  exact (proj1 (getModelColor_from_table "Claude-OPUS-4-1" H1 H2)).
Defined.

(** The lines of UT-BE-AGG-07, out of order. *)
Lemma session_slots_witness :
  let start := windowStart (getBeijingTimeWindow Fixture.fixedNow "today") in
  let end_ := windowEnd (getBeijingTimeWindow Fixture.fixedNow "today") in
  let ls := ["codex-large"; "codex-before"; "codex-small"] in
  let final :=
    fold_left (@updateSession Fixture.runtime start end_) ls emptySession in
  In "codex-small" ls
  /\ (exists snapshot,
        @parseCodexTokenSnapshot Fixture.runtime "codex-small"
        = inr (Some snapshot)
        /\ isInside start end_ snapshot = true
        /\ exists best,
             inWindow final = Some best /\ replaces snapshot best = false
             /\ totalTokens snapshot <= totalTokens best).
Proof.
  cbv zeta. split; [simpl; auto|].
  eexists. split; [reflexivity|]. split; [reflexivity|].
  apply (proj2 (@session_slots_hold_the_largest Fixture.runtime _ _
                  ["codex-large"; "codex-before"; "codex-small"] emptySession
                  "codex-small" _ ltac:(simpl; auto) eq_refl)).
  reflexivity.
Defined.

(** ** The unit tests of the scanner and of its handler, replayed *)

(** UT-BE-01: the range holds its start and not its end. *)
Example scanner_range_is_half_open :
  let start := utcInstant 2026 2 10 0 0 0 in
  let end_ := utcInstant 2026 2 11 0 0 0 in
  let root :=
    LogScanner.Directory (Some
      [ ("a",
         LogScanner.Directory (Some
           [ ("at-start.jsonl", LogScanner.RegularFile (Some start) (Some "at-start"));
             ("in-window.jsonl",
              LogScanner.RegularFile (Some (utcInstant 2026 2 10 12 0 0))
                (Some "in-window"));
             ("at-end.jsonl", LogScanner.RegularFile (Some end_) (Some "at-end")) ])) ]) in
  let scan :=
    @LogScanner.scanLogFilesInRange HostFixture.nodePath root "/sandbox"
      (ValidDate start) (ValidDate end_) LogScanner.noOptions in
  map LogScanner.path (LogScanner.files scan)
  = ["/sandbox/a/in-window.jsonl"; "/sandbox/a/at-start.jsonl"]
  /\ LogScanner.totalMatched scan = 2
  /\ LogScanner.truncated scan = false.
Proof. vm_compute. repeat split. Qed.

(** UT-BE-02: with a limit of two files the two newest are kept, newest
    first. *)
Example scanner_keeps_the_two_newest :
  let scan :=
    @LogScanner.scanLogFilesInRange HostFixture.nodePath HostFixture.threeLogs
      "/sandbox" (ValidDate (utcInstant 2026 2 1 0 0 0))
      (ValidDate (utcInstant 2026 3 1 0 0 0))
      {| LogScanner.maxFiles := Some 2; LogScanner.maxLinesPerFile := None;
         LogScanner.maxDepth := None |} in
  map LogScanner.path (LogScanner.files scan)
  = ["/sandbox/logs/newest.jsonl"; "/sandbox/logs/middle.jsonl"]
  /\ LogScanner.totalMatched scan = 3
  /\ LogScanner.scannedCount scan = 2
  /\ LogScanner.truncated scan = true.
Proof. vm_compute. repeat split. Qed.

(** UT-BE-03: empty lines are dropped and the lines limited. *)
Example scanner_limits_the_lines :
  LogScanner.readLines 2
    ("first" ++ HostFixture.lineFeed ++ HostFixture.lineFeed ++ "second"
     ++ HostFixture.lineFeed ++ "third" ++ HostFixture.lineFeed)%string
  = ["first"; "second"].
Proof. reflexivity. Qed.

(** UT-BE-SCAN-01 and UT-BE-SCAN-02: a directory that does not exist, and a
    scanner that throws [EACCES]. *)
Example handler_error_cases :
  let params :=
    Some {| ScanLogFilesHandler.basePath := JStr "~/.claude/projects";
            ScanLogFilesHandler.start := JStr "2026-02-15T00:00:00+08:00";
            ScanLogFilesHandler.end_ := JStr "2026-02-15T03:00:00.000Z" |} in
  let denied :=
    {| ScanLogFilesHandler.code := Some "EACCES";
       ScanLogFilesHandler.message := "permission denied" |} in
  @ScanLogFilesHandler.handleScanLogFiles Fixture.runtime params
    {| ScanLogFilesHandler.expandHomeFn := fun _ => "/tmp/claude-projects";
       ScanLogFilesHandler.pathExistsFn := fun _ => inr false;
       ScanLogFilesHandler.scanLogFilesInRangeFn := fun _ _ _ => inl denied |}
  = ScanLogFilesHandler.nothingFound
  /\ @ScanLogFilesHandler.handleScanLogFiles Fixture.runtime params
       {| ScanLogFilesHandler.expandHomeFn := fun _ => "/tmp/claude-projects";
          ScanLogFilesHandler.pathExistsFn := fun _ => inr true;
          ScanLogFilesHandler.scanLogFilesInRangeFn := fun _ _ _ => inl denied |}
     = ScanLogFilesHandler.failed "PERMISSION_DENIED".
Proof. split; reflexivity. Qed.
